(** * colpali_engine.evaluation.retrieval_evaluator

    A shallow embedding of [CustomRetrievalEvaluator] and the properties of
    its scoring routines and of its metric renaming pass.

    Conventions of the embedding.
    - Tensor entries are exact numbers (here [Z]): rounding of floating
      point arithmetic is outside the model.
    - A tensor is its [shape] together with its entries as nested lists,
      the way [tolist()] shows them.  The shape is kept apart from the
      entries because a dimension of size zero is invisible in nested
      lists, while the library decides its errors on the shape.
    - A Python exception is a value of [exn]; a computation that may raise
      returns a [result].
    - A tensor carries [requires_grad].  The result of an operation of the
      library requires grad when the grad mode of the runtime
      ([torch.is_grad_enabled()]) is on and an operand requires grad;
      [numpy()] refuses a tensor that requires grad.
    - A method of the evaluator runs in the monad [M]: it reads what the
      call can reach (the evaluator [self], the two argument lists, the
      logger of the module, the grad mode of the runtime) from a [Frame]
      and returns the frame it leaves behind together with its result.
    - The device of the evaluator is one the runtime can use. *)

From Stdlib Require Import ZArith List Bool Lia QArith Ascii String.
From stdpp Require Import base strings gmap list fin_maps.

Local Open Scope string_scope.
Local Open Scope list_scope.
Local Open Scope Z_scope.

(* ===================================================================== *)
(** ** Exceptions and results *)

Inductive exn : Type :=
  | ValueError (msg : string)
  | RuntimeError (msg : string)
  | IndexError (msg : string)
  | AssertionError (expected got : nat)
  | ZeroDivisionError.

Inductive result (A : Type) : Type :=
  | Ok (a : A)
  | Raise (e : exn).

Arguments Ok {A} a.
Arguments Raise {A} e.

Definition rbind {A B} (r : result A) (k : A -> result B) : result B :=
  match r with
  | Ok a => k a
  | Raise e => Raise e
  end.

(** [for x in xs: out.append(f(x))] where [f] may raise. *)
Fixpoint rmap {A B} (f : A -> result B) (xs : list A) : result (list B) :=
  match xs with
  | [] => Ok []
  | x :: r => rbind (f x) (fun y => rbind (rmap f r) (fun ys => Ok (y :: ys)))
  end.

Definition is_value_error {A} (r : result A) : bool :=
  match r with
  | Raise (ValueError _) => true
  | _ => false
  end.

Definition is_assertion_error {A} (r : result A) : bool :=
  match r with
  | Raise (AssertionError _ _) => true
  | _ => false
  end.

(* ===================================================================== *)
(** ** Python built-ins used by the module *)

Module py.

(** [len(l)] *)
Definition len {A} (l : list A) : Z := Z.of_nat (length l).

(** [range(start, stop, step)], as the list it iterates over. *)
Definition range (start stop step : Z) : result (list Z) :=
  if step =? 0 then Raise (ValueError "range() arg 3 must not be zero")
  else
    let count :=
      if 0 <? step
      then (if start <? stop then (stop - start + step - 1) / step else 0)
      else (if stop <? start then (start - stop - step - 1) / (- step) else 0) in
    Ok (map (fun k => start + Z.of_nat k * step) (seq 0 (Z.to_nat count))).

(** An index of a slice brought into [0 .. len]. *)
Definition clamp (n k : Z) : Z :=
  if k <? 0 then Z.max 0 (k + n) else Z.min k n.

(** [l[i:j]] *)
Definition slice {A} (l : list A) (i j : Z) : list A :=
  let lo := clamp (len l) i in
  let hi := clamp (len l) j in
  firstn (Z.to_nat (hi - lo)) (skipn (Z.to_nat lo) l).

(** [s.split(sep)] for a separator of one character. *)
Fixpoint split (sep : ascii) (s : string) : list string :=
  match s with
  | EmptyString => [EmptyString]
  | String c r =>
      if Ascii.eqb c sep then EmptyString :: split sep r
      else match split sep r with
           | [] => [String c EmptyString]
           | h :: t => String c h :: t
           end
  end.

(** [l[i]] for [0 <= i] *)
Definition index {A} (l : list A) (i : nat) : result A :=
  match nth_error l i with
  | Some x => Ok x
  | None => Raise (IndexError "list index out of range")
  end.

(** [a / b] on integers *)
Definition truediv (a b : Z) : result Q :=
  if b =? 0 then Raise ZeroDivisionError
  else Ok (Qdiv (inject_Z a) (inject_Z b)).

End py.

(* ===================================================================== *)
(** ** Tensors *)

Local Unset Elimination Schemes.

Inductive Data : Type :=
  | Sc (z : Z)
  | Ar (elems : list Data).

Local Set Elimination Schemes.

Record Tensor : Type := mkTensor {
  shape : list nat;
  data : Data;
  requires_grad : bool
}.

Definition shape_eqb (s t : list nat) : bool :=
  if decide (s = t) then true else false.

(** Entries of a tensor of rank 0 to 4 from nested lists, and back. *)
Definition of0 (z : Z) : Data := Sc z.
Definition of1 (v : list Z) : Data := Ar (map of0 v).
Definition of2 (m : list (list Z)) : Data := Ar (map of1 m).
Definition of3 (t : list (list (list Z))) : Data := Ar (map of2 t).
Definition of4 (t : list (list (list (list Z)))) : Data := Ar (map of3 t).

Fixpoint omap_list {A B} (f : A -> option B) (xs : list A) : option (list B) :=
  match xs with
  | [] => Some []
  | x :: r =>
      match f x, omap_list f r with
      | Some y, Some ys => Some (y :: ys)
      | _, _ => None
      end
  end.

Definition as0 (x : Data) : option Z :=
  match x with Sc z => Some z | Ar _ => None end.
Definition as1 (x : Data) : option (list Z) :=
  match x with Ar l => omap_list as0 l | Sc _ => None end.
Definition as2 (x : Data) : option (list (list Z)) :=
  match x with Ar l => omap_list as1 l | Sc _ => None end.
Definition as3 (x : Data) : option (list (list (list Z))) :=
  match x with Ar l => omap_list as2 l | Sc _ => None end.
Definition as4 (x : Data) : option (list (list (list (list Z)))) :=
  match x with Ar l => omap_list as3 l | Sc _ => None end.

(** A single-vector embedding of dimension [length v], made from its
    entries: [torch.tensor(v)]. *)
Definition tensor1 (v : list Z) : Tensor :=
  {| shape := [length v]; data := of1 v; requires_grad := false |}.

(** A multi-vector embedding made from its entries: one row of [d]
    entries per token. *)
Definition tensor2 (d : nat) (rows : list (list Z)) : Tensor :=
  {| shape := [length rows; d]; data := of2 rows; requires_grad := false |}.

Definition sumZ (l : list Z) : Z := fold_right Z.add 0 l.

(** Largest entry of a list; the list is not empty where it is used. *)
Definition maxZ (l : list Z) : Z :=
  match l with
  | [] => 0
  | x :: r => fold_left Z.max r x
  end.

Fixpoint zip_with_mul (u v : list Z) : list Z :=
  match u, v with
  | a :: u', b :: v' => a * b :: zip_with_mul u' v'
  | _, _ => []
  end.

(** Contraction over the index [d] of an einsum equation. *)
Definition dot (u v : list Z) : Z := sumZ (zip_with_mul u v).

Definition max_nat_list (l : list nat) : nat := fold_right Nat.max 0%nat l.
Definition sum_nat_list (l : list nat) : nat := fold_right Nat.add 0%nat l.

Definition items (x : Data) : list Data :=
  match x with Ar l => l | Sc _ => [] end.

Definition scalars (x : Data) : list Z :=
  map (fun c => match c with Sc z => z | Ar _ => 0 end) (items x).

(** The block of shape [sh] filled with [v]. *)
Fixpoint full (sh : list nat) (v : Z) : Data :=
  match sh with
  | [] => Sc v
  | n :: sh' => Ar (repeat (full sh' v) n)
  end.

(** Columns of a list of [n]-element rows. *)
Fixpoint transpose {A} (n : nat) (ls : list (list A)) : list (list A) :=
  match ls with
  | [] => repeat [] n
  | l :: r => zip_with cons l (transpose n r)
  end.

(** Reduction of the innermost dimension, [depth] levels down. *)
Fixpoint reduce_last (f : list Z -> Z) (depth : nat) (x : Data) : Data :=
  match depth with
  | O => Sc (f (scalars x))
  | S k => Ar (map (reduce_last f k) (items x))
  end.

(** Position of the first largest entry. *)
Fixpoint argmaxZ_from (best : Z) (best_i i : nat) (l : list Z) : nat :=
  match l with
  | [] => best_i
  | x :: r =>
      if best <? x then argmaxZ_from x i (S i) r
      else argmaxZ_from best best_i (S i) r
  end.

Definition argmaxZ (l : list Z) : Z :=
  match l with
  | [] => 0
  | x :: r => Z.of_nat (argmaxZ_from x 0 1 r)
  end.

(** Entries joined along dimension [dim]; [sh] is the shape of the first
    operand. *)
Fixpoint cat_data (dim : nat) (sh : list nat) (ds : list Data) : Data :=
  match dim with
  | O => Ar (concat (map items ds))
  | S k => Ar (map (cat_data k (tl sh)) (transpose (hd 0%nat sh) (map items ds)))
  end.

(** Shapes that agree everywhere but at position [dim]. *)
Fixpoint same_but (dim : nat) (s t : list nat) : bool :=
  match s, t with
  | [], [] => true
  | a :: s', b :: t' =>
      match dim with
      | O => shape_eqb s' t'
      | S k => Nat.eqb a b && same_but k s' t'
      end
  | _, _ => false
  end.

Fixpoint set_dim (dim : nat) (n : nat) (s : list nat) : list nat :=
  match s with
  | [] => []
  | a :: s' =>
      match dim with
      | O => n :: s'
      | S k => a :: set_dim k n s'
      end
  end.

(** Entries of shape [src] repeated to fill the shape [dst] of the same
    rank: a dimension of size 1 is repeated, the others are kept. *)
Fixpoint expand (dst src : list nat) (x : Data) : Data :=
  match dst, src with
  | n :: dst', m :: src' =>
      if Nat.eqb m n then Ar (map (expand dst' src') (items x))
      else Ar (repeat (expand dst' src' (hd (Sc 0) (items x))) n)
  | _, _ => x
  end.

Fixpoint expandable (dst src : list nat) : bool :=
  match dst, src with
  | [], [] => true
  | n :: dst', m :: src' => (Nat.eqb m n || Nat.eqb m 1) && expandable dst' src'
  | _, _ => false
  end.

(** Entries with [k] more dimensions of size 1 in front. *)
Fixpoint wrap (k : nat) (x : Data) : Data :=
  match k with
  | O => x
  | S k' => Ar [wrap k' x]
  end.

(** [dst.copy_(src)]: the entries written into a block of shape [dst] from
    a tensor of shape [src], when [src] broadcasts to [dst]. *)
Definition copy_to (dst src : list nat) (x : Data) : option Data :=
  if Nat.leb (length src) (length dst) then
    let k := (length dst - length src)%nat in
    if expandable dst (repeat 1%nat k ++ src)
    then Some (expand dst (repeat 1%nat k ++ src) (wrap k x))
    else None
  else None.

(* ===================================================================== *)
(** ** The tensor library, as far as the module calls it

    Each function checks what the library checks on the shapes and raises
    the library's exception.  Entries that do not fit the shape are not
    tensors; on them a function raises [RuntimeError]. *)

Module torch.

Definition malformed {A} : result A :=
  Raise (RuntimeError "entries do not fit the shape").

(** Autograd: whether the result of an operation on [operands] requires
    grad, in the grad mode [grad_enabled] of the runtime. *)
Definition tracks (operands : list Tensor) (grad_enabled : bool) : bool :=
  existsb requires_grad operands && grad_enabled.

(** [torch.stack(tensors)] *)
Definition stack (tensors : list Tensor) (grad_enabled : bool) : result Tensor :=
  match tensors with
  | [] => Raise (RuntimeError "stack expects a non-empty TensorList")
  | t :: r =>
      if forallb (fun u => shape_eqb (shape u) (shape t)) r
      then Ok {| shape := length tensors :: shape t;
                 data := Ar (map data tensors);
                 requires_grad := tracks tensors grad_enabled |}
      else Raise (RuntimeError "stack expects each tensor to be equal size")
  end.

(** [torch.nn.utils.rnn.pad_sequence(sequences, batch_first=True,
    padding_value=padding_value)] *)
Definition pad_sequence (sequences : list Tensor) (padding_value : Z)
    (grad_enabled : bool) : result Tensor :=
  match sequences with
  | [] => Raise (RuntimeError "received an empty list of sequences")
  | t :: _ =>
      match shape t with
      | [] => Raise (RuntimeError "pad_sequence(): the first sequence has no dimension")
      | _ :: trailing =>
          if existsb (fun u => shape_eqb (shape u) []) sequences
          then Raise (IndexError "Dimension specified as 0 but tensor has no dimensions")
          else
            let max_len := max_nat_list (map (fun u => hd 0%nat (shape u)) sequences) in
            match omap_list (fun u =>
                    option_map (fun copied =>
                      Ar (items copied ++
                          repeat (full trailing padding_value)
                                 (max_len - hd 0%nat (shape u))))
                      (copy_to (hd 0%nat (shape u) :: trailing) (shape u) (data u)))
                    sequences with
            | Some rows =>
                Ok {| shape := length sequences :: max_len :: trailing;
                      data := Ar rows;
                      requires_grad := tracks sequences grad_enabled |}
            | None =>
                Raise (RuntimeError "The size of tensor a must match the size of tensor b")
            end
      end
  end.

(** Sizes of a subscript that occurs in both operands: equal, or one of
    them 1. *)
Definition broadcastable (d d' : nat) : bool :=
  Nat.eqb d d' || Nat.eqb d 1 || Nat.eqb d' 1.

(** The sum over a subscript of sizes [d] and [d'], an operand of size 1
    being repeated. *)
Definition contract (d d' : nat) (u v : list Z) : Z :=
  if Nat.eqb d d' then dot u v
  else if Nat.eqb d 1 then dot (repeat (hd 0 u) d') v
  else dot u (repeat (hd 0 v) d).

Definition einsum_bd_cd_bc (x y : Tensor) (grad_enabled : bool) : result Tensor :=
  match shape x, shape y with
  | [b; d], [c; d'] =>
      if broadcastable d d' then
        match as2 (data x), as2 (data y) with
        | Some q, Some p =>
            Ok {| shape := [b; c];
                  data := of2 (map (fun qv =>
                            map (fun pv => contract d d' qv pv) p) q);
                  requires_grad := tracks [x; y] grad_enabled |}
        | _, _ => malformed
        end
      else Raise (RuntimeError "einsum(): operands do not broadcast")
  | _, _ => Raise (RuntimeError "einsum(): subscripts do not match the dimensions")
  end.

Definition einsum_bnd_csd_bcns (x y : Tensor) (grad_enabled : bool) : result Tensor :=
  match shape x, shape y with
  | [b; n; d], [c; s; d'] =>
      if broadcastable d d' then
        match as3 (data x), as3 (data y) with
        | Some q, Some p =>
            Ok {| shape := [b; c; n; s];
                  data := of4 (map (fun qm => map (fun pm =>
                            map (fun qv =>
                              map (fun pv => contract d d' qv pv) pm) qm) p) q);
                  requires_grad := tracks [x; y] grad_enabled |}
        | _, _ => malformed
        end
      else Raise (RuntimeError "einsum(): operands do not broadcast")
  | _, _ => Raise (RuntimeError "einsum(): subscripts do not match the dimensions")
  end.

(** [torch.einsum(equation, x, y)] for the two equations of the module. *)
Definition einsum (equation : string) (x y : Tensor) (grad_enabled : bool)
    : result Tensor :=
  if String.eqb equation "bd,cd->bc" then einsum_bd_cd_bc x y grad_enabled
  else if String.eqb equation "bnd,csd->bcns" then einsum_bnd_csd_bcns x y grad_enabled
  else Raise (RuntimeError "einsum(): equation not used by this module").

(** [x.max(dim=dim)], the pair of values and indices, for the last
    dimension of [x].  The indices are integers and never require grad. *)
Definition max (x : Tensor) (dim : nat) (grad_enabled : bool)
    : result (Tensor * Tensor) :=
  if Nat.ltb dim (length (shape x)) then
    if Nat.eqb (S dim) (length (shape x)) then
      if Nat.eqb (nth dim (shape x) 0%nat) 0
      then Raise (IndexError "max(): Expected reduction dim to have non-zero size")
      else Ok ({| shape := firstn dim (shape x);
                  data := reduce_last maxZ dim (data x);
                  requires_grad := tracks [x] grad_enabled |},
               {| shape := firstn dim (shape x);
                  data := reduce_last argmaxZ dim (data x);
                  requires_grad := false |})
    else Raise (RuntimeError "max(): reduction of an inner dimension is not used by this module")
  else Raise (IndexError "Dimension out of range").

(** [x.sum(dim=dim)] for the last dimension of [x]. *)
Definition sum (x : Tensor) (dim : nat) (grad_enabled : bool) : result Tensor :=
  if Nat.ltb dim (length (shape x)) then
    if Nat.eqb (S dim) (length (shape x)) then
      Ok {| shape := firstn dim (shape x);
            data := reduce_last sumZ dim (data x);
            requires_grad := tracks [x] grad_enabled |}
    else Raise (RuntimeError "sum(): reduction of an inner dimension is not used by this module")
  else Raise (IndexError "Dimension out of range").

(** [x.argmax(dim=dim)] for the last dimension of [x]: a tensor of
    integers, which never requires grad. *)
Definition argmax (x : Tensor) (dim : nat) : result Tensor :=
  if Nat.ltb dim (length (shape x)) then
    if Nat.eqb (S dim) (length (shape x)) then
      if Nat.eqb (nth dim (shape x) 0%nat) 0
      then Raise (IndexError "argmax(): Expected reduction dim to have non-zero size")
      else Ok {| shape := firstn dim (shape x);
                 data := reduce_last argmaxZ dim (data x);
                 requires_grad := false |}
    else Raise (RuntimeError "argmax(): reduction of an inner dimension is not used by this module")
  else Raise (IndexError "Dimension out of range").

(** [torch.cat(tensors, dim=dim)] *)
Definition cat (tensors : list Tensor) (dim : nat) (grad_enabled : bool)
    : result Tensor :=
  match tensors with
  | [] => Raise (RuntimeError "torch.cat(): expected a non-empty list of Tensors")
  | t :: r =>
      if Nat.ltb dim (length (shape t)) then
        if forallb (fun u => same_but dim (shape t) (shape u)) r
        then Ok {| shape := set_dim dim
                     (sum_nat_list (map (fun u => nth dim (shape u) 0%nat) tensors))
                     (shape t);
                   data := cat_data dim (shape t) (map data tensors);
                   requires_grad := tracks tensors grad_enabled |}
        else Raise (RuntimeError "Sizes of tensors must match except in the dimension of cat")
      else Raise (IndexError "Dimension out of range")
  end.

(** [torch.arange(n)] *)
Definition arange (n : nat) : Tensor :=
  tensor1 (map Z.of_nat (seq 0 n)).

(** [(x == y).sum().item()] for two tensors of rank one. *)
Definition count_eq (x y : Tensor) : result Z :=
  if shape_eqb (shape x) (shape y) then
    match as1 (data x), as1 (data y) with
    | Some u, Some v =>
        Ok (sumZ (zip_with (fun a b => if a =? b then 1 else 0) u v))
    | _, _ => malformed
    end
  else Raise (RuntimeError "The size of tensor a must match the size of tensor b").

(** [x.to(device)], [x.cpu()], [x.to(torch.float32)]: the entries and the
    shape stay; where the entries are held and their rounding are outside
    the model.  The module applies them to results of operations of the
    same call, which keep their [requires_grad]. *)
Definition to (x : Tensor) (device : string) : Tensor := x.
Definition cpu (x : Tensor) : Tensor := x.
Definition to_float32 (x : Tensor) : Tensor := x.

(** [x.numpy()]: the library refuses a tensor that requires grad, with
    the message "Can't call numpy() on Tensor that requires grad." *)
Definition numpy_requires_grad : exn :=
  RuntimeError
    "Can't call numpy() on Tensor that requires grad. Use tensor.detach().numpy() instead.".

Definition numpy (x : Tensor) : result Tensor :=
  if requires_grad x then Raise numpy_requires_grad else Ok x.

End torch.

(* ===================================================================== *)
(** ** The evaluator object and the frame of a call *)

(** A value of [mteb_evaluator_args]. *)
Inductive PyVal : Type :=
  | PyBool (b : bool)
  | PyInt (z : Z)
  | PyStr (s : string)
  | PyInts (l : list Z).

(** [mteb.evaluation.evaluators.RetrievalEvaluator], as far as this module
    reads it. *)
Record RetrievalEvaluator : Type := { k_values : list Z }.

Record CustomRetrievalEvaluator : Type := {
  is_multi_vector : bool;
  mteb_evaluator_args : gmap string PyVal;
  mteb_evaluator : RetrievalEvaluator;
  device : string
}.

(** A record passed to [logger.info]: the text and the number formatted
    into it. *)
Inductive LogRecord : Type :=
  | INFO (msg : string) (value : Q).

(** What a call of a method can reach: the evaluator, the two argument
    lists, the records passed to the module's logger so far and the grad
    mode of the tensor runtime. *)
Record Frame : Type := {
  self : CustomRetrievalEvaluator;
  qs : list Tensor;
  ps : list Tensor;
  logger : list LogRecord;
  grad_enabled : bool
}.

Definition M (A : Type) : Type := Frame -> Frame * result A.

Definition ret {A} (a : A) : M A := fun fr => (fr, Ok a).

Definition bind {A B} (m : M A) (k : A -> M B) : M B :=
  fun fr =>
    match m fr with
    | (fr', Ok a) => k a fr'
    | (fr', Raise e) => (fr', Raise e)
    end.

Definition raise {A} (e : exn) : M A := fun fr => (fr, Raise e).

Definition lift {A} (r : result A) : M A := fun fr => (fr, r).

Definition gets {A} (field : Frame -> A) : M A := fun fr => (fr, Ok (field fr)).

(** An operation of the tensor library: it runs in the grad mode of the
    runtime. *)
Definition torch_call {A} (op : bool -> result A) : M A :=
  fun fr => (fr, op (grad_enabled fr)).

Definition logger_info (r : LogRecord) : M unit :=
  fun fr =>
    ({| self := self fr; qs := qs fr; ps := ps fr;
        logger := logger fr ++ [r]; grad_enabled := grad_enabled fr |}, Ok tt).

Notation "'let*' x := m 'in' k" := (bind m (fun x => k))
  (at level 10, x name, m at level 100, k at level 200, only parsing).

(** [for x in xs: body], threading the local variable the body updates. *)
Fixpoint for_ {A S} (xs : list A) (acc : S) (body : S -> A -> M S) : M S :=
  match xs with
  | [] => ret acc
  | x :: r => let* acc' := body acc x in for_ r acc' body
  end.

Definition returned {A} (out : Frame * result A) : result A := snd out.

(* ===================================================================== *)
(** ** CustomRetrievalEvaluator *)

(** [CustomRetrievalEvaluator(is_multi_vector, mteb_evaluator_args, device)];
    an argument left out is [None].  [get_torch_device] of
    [colpali_engine.utils.torch_utils] and the constructor of the metrics
    library's evaluator are parameters. *)
Section Construction.

Variable get_torch_device : string -> string.
Variable RetrievalEvaluator_new : gmap string PyVal -> RetrievalEvaluator.

Definition __init__ (is_multi_vector_arg : option bool)
    (mteb_evaluator_args_arg : option (gmap string PyVal))
    (device_arg : option string) : CustomRetrievalEvaluator :=
  let args := default ∅ mteb_evaluator_args_arg in
  {| mteb_evaluator_args := args;
     is_multi_vector := default false is_multi_vector_arg;
     mteb_evaluator := RetrievalEvaluator_new args;
     device := get_torch_device (default "auto" device_arg) |}.

End Construction.

Definition get_single_vector_scores : M Tensor :=
  let* q := gets qs in
  if py.len q =? 0 then raise (ValueError "No querie(s) provided") else
  let* p := gets ps in
  if py.len p =? 0 then raise (ValueError "No passage(s) provided") else
  let* q := gets qs in
  let* qs_stacked := torch_call (torch.stack q) in
  let* s := gets self in
  let qs_stacked := torch.to qs_stacked (device s) in
  let* p := gets ps in
  let* ps_stacked := torch_call (torch.stack p) in
  let* s := gets self in
  let ps_stacked := torch.to ps_stacked (device s) in
  let* scores := torch_call (torch.einsum "bd,cd->bc" qs_stacked ps_stacked) in
  ret scores.

Definition get_multi_vector_scores (batch_size : Z) : M Tensor :=
  let* q := gets qs in
  if py.len q =? 0 then raise (ValueError "No querie(s) provided") else
  let* p := gets ps in
  if py.len p =? 0 then raise (ValueError "No passage(s) provided") else
  let* q := gets qs in
  let* starts := lift (py.range 0 (py.len q) batch_size) in
  let* scores_list := for_ starts [] (fun scores_list i =>
    let* q := gets qs in
    let* qs_batch :=
      torch_call (torch.pad_sequence (py.slice q i (i + batch_size)) 0) in
    let* s := gets self in
    let qs_batch := torch.to qs_batch (device s) in
    let* p := gets ps in
    let* starts' := lift (py.range 0 (py.len p) batch_size) in
    let* scores_batch := for_ starts' [] (fun scores_batch j =>
      let* p := gets ps in
      let* ps_batch :=
        torch_call (torch.pad_sequence (py.slice p j (j + batch_size)) 0) in
      let* s := gets self in
      let ps_batch := torch.to ps_batch (device s) in
      let* sim := torch_call (torch.einsum "bnd,csd->bcns" qs_batch ps_batch) in
      let* mx := torch_call (torch.max sim 3) in
      let* sm := torch_call (torch.sum (fst mx) 2) in
      ret (scores_batch ++ [sm])) in
    let* scores_batch := torch_call (torch.cat scores_batch 1) in
    let scores_batch := torch.cpu scores_batch in
    ret (scores_list ++ [scores_batch])) in
  let* scores := torch_call (torch.cat scores_list 0) in
  ret scores.

Definition evaluate : M Tensor :=
  let* s := gets self in
  let* scores := (if is_multi_vector s then get_multi_vector_scores 128
                  else get_single_vector_scores) in
  let* n0 := lift (py.index (shape scores) 0) in
  let* q := gets qs in
  if negb (Z.of_nat n0 =? py.len q) then raise (AssertionError (length q) n0) else
  let* arg_score := lift (torch.argmax scores 1) in
  let* n0 := lift (py.index (shape scores) 0) in
  let* correct := lift (torch.count_eq arg_score (torch.arange n0)) in
  let* n0 := lift (py.index (shape scores) 0) in
  let* accuracy := lift (py.truediv correct (Z.of_nat n0)) in
  let* u := logger_info (INFO "Top 1 Accuracy (verif): " accuracy) in
  let* scores := lift (torch.numpy (torch.cpu (torch.to_float32 scores))) in
  ret scores.

(** The metric dictionaries.  A dictionary the module iterates over is the
    list of its items in iteration order; the dictionary it builds is a
    finite map. *)
Section Metrics.

Context {V : Type}.

Definition items_of : Type := list (string * V).

Definition Qrels : Type := gmap string (gmap string Z).
Definition Run : Type := gmap string (gmap string V).

(** [RetrievalEvaluator.evaluate] and [RetrievalEvaluator.evaluate_custom]
    of the metrics library. *)
Variable RetrievalEvaluator_evaluate :
  RetrievalEvaluator -> Qrels -> Run -> list Z -> PyVal ->
  result (items_of * items_of * items_of * items_of * items_of).
Variable RetrievalEvaluator_evaluate_custom :
  RetrievalEvaluator -> Qrels -> Run -> list Z -> string ->
  result (list items_of).

(** [f"{prefix}{k.split('@')[1]}"] *)
Definition at_key (prefix k : string) : result string :=
  rbind (py.index (py.split "@" k) 1) (fun part => Ok (prefix ++ part)%string).

(** [{f"{prefix}{k.split('@')[1]}": v for (k, v) in d.items()}], built
    into [acc]. *)
Fixpoint dict_comp (prefix : string) (d : items_of) (acc : gmap string V)
  : result (gmap string V) :=
  match d with
  | [] => Ok acc
  | (k, v) :: r =>
      rbind (at_key prefix k) (fun key => dict_comp prefix r (<[key := v]> acc))
  end.

(** [{**scores, **d}] *)
Definition unpack_into (scores d : gmap string V) : gmap string V := d ∪ scores.

Definition compute_metrics (relevant_docs : Qrels) (results : Run)
    (kwargs : gmap string PyVal) : M (gmap string V) :=
  let* s := gets self in
  let* out := lift (RetrievalEvaluator_evaluate (mteb_evaluator s)
                 relevant_docs results (k_values (mteb_evaluator s))
                 (default (PyBool true) (kwargs !! "ignore_identical_ids"))) in
  let '(ndcg, _map, recall, precision, naucs) := out in
  let* s := gets self in
  let* mrr := lift (RetrievalEvaluator_evaluate_custom (mteb_evaluator s)
                 relevant_docs results (k_values (mteb_evaluator s)) "mrr") in
  let scores := ∅ in
  let* d := lift (dict_comp "ndcg_at_" ndcg ∅) in
  let scores := unpack_into scores d in
  let* d := lift (dict_comp "map_at_" _map ∅) in
  let scores := unpack_into scores d in
  let* d := lift (dict_comp "recall_at_" recall ∅) in
  let scores := unpack_into scores d in
  let* d := lift (dict_comp "precision_at_" precision ∅) in
  let scores := unpack_into scores d in
  let* mrr0 := lift (py.index mrr 0) in
  let* d := lift (dict_comp "mrr_at_" mrr0 ∅) in
  let scores := unpack_into scores d in
  let* d := lift (dict_comp "naucs_at_" naucs ∅) in
  let scores := unpack_into scores d in
  ret scores.

End Metrics.

(* ===================================================================== *)
(** ** Definitions used by the statements *)

(** MaxSim, in the words of the glossary: for each token vector of the
    query the largest similarity over the token vectors of the passage,
    summed over the query tokens. *)
Definition MaxSim (q p : list (list Z)) : Z :=
  sumZ (map (fun qv => maxZ (map (fun pv => dot qv pv) p)) q).

(** A token matrix followed by [k] zero vectors of dimension [d]. *)
Definition append_zeros (d k : nat) (m : list (list Z)) : list (list Z) :=
  m ++ repeat (repeat 0 d) k.

(** What [pad_sequence] makes of a token matrix in a batch whose longest
    member has [n] tokens. *)
Definition pad_to (d n : nat) (m : list (list Z)) : list (list Z) :=
  append_zeros d (n - length m) m.

Definition longest (ms : list (list (list Z))) : nat :=
  max_nat_list (map (fun m => length m) ms).

(** The batches [l[i : i + batch_size]] of the two loops. *)
Definition batches {A} (batch_size : Z) (l : list A) : list (list A) :=
  match py.range 0 (py.len l) batch_size with
  | Ok starts => map (fun i => py.slice l i (i + batch_size)) starts
  | Raise _ => []
  end.

(** Entry [(b, c)] of a score matrix held as nested lists. *)
Definition entry (m : list (list Z)) (b c : nat) : Z :=
  nth c (nth b m []) 0.

(** The value [get_single_vector_scores] computes from the two lists, in
    the grad mode [g]. *)
Definition single_vector_scores (g : bool) (Q P : list Tensor) : result Tensor :=
  if py.len Q =? 0 then Raise (ValueError "No querie(s) provided") else
  if py.len P =? 0 then Raise (ValueError "No passage(s) provided") else
  rbind (torch.stack Q g) (fun qs_stacked =>
  rbind (torch.stack P g) (fun ps_stacked =>
  torch.einsum "bd,cd->bc" qs_stacked ps_stacked g)).

(** The scores of one batch of queries against one batch of passages. *)
Definition scores_block (g : bool) (qs_batch : Tensor) (p_slice : list Tensor)
    : result Tensor :=
  rbind (torch.pad_sequence p_slice 0 g) (fun ps_batch =>
  rbind (torch.einsum "bnd,csd->bcns" qs_batch ps_batch g) (fun sim =>
  rbind (torch.max sim 3 g) (fun mx => torch.sum (fst mx) 2 g))).

(** The scores of one batch of queries against all passages. *)
Definition scores_rows (g : bool) (batch_size : Z) (P : list Tensor)
    (q_slice : list Tensor) : result Tensor :=
  rbind (torch.pad_sequence q_slice 0 g) (fun qs_batch =>
  rbind (py.range 0 (py.len P) batch_size) (fun starts' =>
  rbind (rmap (fun j => scores_block g qs_batch (py.slice P j (j + batch_size)))
              starts') (fun scores_batch =>
  torch.cat scores_batch 1 g))).

(** The value [get_multi_vector_scores] computes from the two lists, in
    the grad mode [g]. *)
Definition multi_vector_scores (g : bool) (batch_size : Z) (Q P : list Tensor)
    : result Tensor :=
  if py.len Q =? 0 then Raise (ValueError "No querie(s) provided") else
  if py.len P =? 0 then Raise (ValueError "No passage(s) provided") else
  rbind (py.range 0 (py.len Q) batch_size) (fun starts =>
  rbind (rmap (fun i => scores_rows g batch_size P (py.slice Q i (i + batch_size)))
              starts) (fun scores_list =>
  torch.cat scores_list 0 g)).

(** The number of rounds of [for i in range(0, n, batch_size)]. *)
Definition rounds (n batch_size : Z) : nat :=
  Z.to_nat (if 0 <? n then (n + batch_size - 1) / batch_size else 0).

(** A batch of passages none of which has a token. *)
Definition no_tokens (ms : list (list (list Z))) : bool :=
  Nat.eqb (longest ms) 0.

(** The scores of one query against all passages, each passage padded to
    the longest of its batch. *)
Definition score_row (d : nat) (batch_size : Z) (P : list (list (list Z)))
    (q : list (list Z)) : list Z :=
  concat (map (fun ms => map (fun p => MaxSim q (pad_to d (longest ms) p)) ms)
              (batches batch_size P)).

Definition score_matrix (d : nat) (batch_size : Z) (Q P : list (list (list Z)))
    : list (list Z) :=
  map (score_row d batch_size P) Q.

(** The inner product of two vectors of dimension [d], by the formula:
    the sum over [k < d] of [u[k] * v[k]]. *)
Definition inner_product (d : nat) (u v : list Z) : Z :=
  sumZ (map (fun k => nth k u 0 * nth k v 0) (seq 0 d)).

(** The frame of a call [method(self, qs, ps)] in a runtime in its default
    grad mode. *)
Definition call (s : CustomRetrievalEvaluator) (Q P : list Tensor)
    (records : list LogRecord) : Frame :=
  {| self := s; qs := Q; ps := P; logger := records; grad_enabled := true |}.

(** An evaluator, and embeddings of dimension one: a query of one token, a
    passage of one token and a passage of two. *)
Definition example_evaluator (multi : bool) : CustomRetrievalEvaluator :=
  {| is_multi_vector := multi; mteb_evaluator_args := ∅;
     mteb_evaluator := {| k_values := [1; 3; 5] |}; device := "cpu" |}.

Definition example_query : list (list Z) := [[-1]].
Definition example_short_passage : list (list Z) := [[1]].
Definition example_long_passage : list (list Z) := [[1]; [1]].

Definition example_frame : Frame :=
  call (example_evaluator true)
       [tensor2 1 example_query]
       [tensor2 1 example_short_passage; tensor2 1 example_long_passage] [].

(** A query vector that requires grad, as the output of a model that is
    being trained does. *)
Definition example_tracked_query : Tensor :=
  {| shape := [2%nat]; data := of1 [1; 2]; requires_grad := true |}.

(** A frame with another logger, in a runtime whose grad mode is off. *)
Definition example_frame_no_grad : Frame :=
  {| self := example_evaluator false; qs := []; ps := [];
     logger := [INFO "Top 1 Accuracy (verif): " 1]; grad_enabled := false |}.

(** Keys of the form [<name>@<k>]. *)
Fixpoint has_at (s : string) : bool :=
  match s with
  | EmptyString => false
  | String c r => Ascii.eqb c "@" || has_at r
  end.

Definition metric_key (name k : string) : string :=
  (name ++ "@" ++ k)%string.

Section MetricEntries.

Context {V : Type}.

(** A metric dictionary given by its entries: name, cut-off and value. *)
Definition metric_items (entries : list (string * string * V)) : list (string * V) :=
  map (fun e => (metric_key (fst (fst e)) (snd (fst e)), snd e)) entries.

(** Neither the names nor the cut-offs hold an [@]. *)
Definition well_keyed (entries : list (string * string * V)) : Prop :=
  Forall (fun e => has_at (fst (fst e)) = false /\ has_at (snd (fst e)) = false)
         entries.

(** No two entries of the dictionary have the same cut-off. *)
Definition distinct_cutoffs (entries : list (string * string * V)) : Prop :=
  List.NoDup (map (fun e => snd (fst e)) entries).

(** [key] is the renamed key of an entry with value [v]. *)
Definition renamed (prefix : string) (entries : list (string * string * V))
    (key : string) (v : V) : Prop :=
  exists name k, In (name, k, v) entries /\ key = (prefix ++ k)%string.

(** The returned dictionary holds, for every entry of the six
    dictionaries, the renamed key with the value of the entry, and
    nothing else. *)
Definition renames_exactly (scores : gmap string V)
    (ndcg _map recall precision mrr naucs : list (string * string * V)) : Prop :=
  forall key v,
    scores !! key = Some v <->
    renamed "ndcg_at_" ndcg key v \/ renamed "map_at_" _map key v \/
    renamed "recall_at_" recall key v \/ renamed "precision_at_" precision key v \/
    renamed "mrr_at_" mrr key v \/ renamed "naucs_at_" naucs key v.

(** The dictionary a comprehension builds from well keyed entries. *)
Definition comprehension (prefix : string) (entries : list (string * string * V))
    (acc : gmap string V) : gmap string V :=
  fold_left (fun m e => <[(prefix ++ snd (fst e))%string := snd e]> m) entries acc.

End MetricEntries.

(** A metrics library that returns the given dictionaries. *)
Definition fixed_evaluate {V} (ndcg _map recall precision naucs : list (string * V))
    (ev : RetrievalEvaluator) (relevant_docs : @Qrels) (results : @Run V)
    (ks : list Z) (ignore_identical_ids : PyVal)
    : result (@items_of V * @items_of V * @items_of V * @items_of V * @items_of V) :=
  Ok (ndcg, _map, recall, precision, naucs).

Definition fixed_evaluate_custom {V} (mrr : list (string * V))
    (ev : RetrievalEvaluator) (relevant_docs : @Qrels) (results : @Run V)
    (ks : list Z) (metric : string) : result (list (@items_of V)) :=
  Ok [mrr; []].

(** Two entries of the nAUC dictionary with one cut-off. *)
Definition example_naucs : list (string * string * Z) :=
  [("nAUC_NDCG", "1_max", 3); ("nAUC_MAP", "1_max", 7)].

Definition example_ndcg : list (string * string * Z) :=
  [("NDCG", "1", 5); ("NDCG", "3", 6)].

(** The nAUC dictionary of the metrics library for the cut-off 1: the
    three statistics [max], [std] and [diff1] of each of the four metrics,
    with twelve different values. *)
Definition library_naucs : list (string * string * Z) :=
  [("nAUC_NDCG", "1_max", 1); ("nAUC_NDCG", "1_std", 2);
   ("nAUC_NDCG", "1_diff1", 3);
   ("nAUC_MAP", "1_max", 4); ("nAUC_MAP", "1_std", 5);
   ("nAUC_MAP", "1_diff1", 6);
   ("nAUC_Recall", "1_max", 7); ("nAUC_Recall", "1_std", 8);
   ("nAUC_Recall", "1_diff1", 9);
   ("nAUC_P", "1_max", 10); ("nAUC_P", "1_std", 11);
   ("nAUC_P", "1_diff1", 12)].

(** The scoring routine [evaluate] selects. *)
Definition selected_routine (s : CustomRetrievalEvaluator) : M Tensor :=
  if is_multi_vector s then get_multi_vector_scores 128
  else get_single_vector_scores.

(** The number of rows [b] of a score matrix whose first largest entry is
    entry [b]: the queries ranked first with the passage of their own
    position. *)
Definition top1_hits (m : list (list Z)) : Z :=
  sumZ (zip_with (fun a b => if a =? b then 1 else 0)
                 (map argmaxZ m) (map Z.of_nat (seq 0 (length m)))).

(** Column [b] holds the first largest entry of [row]: no entry is larger
    and the entries before it are smaller. *)
Definition first_largest (row : list Z) (b : nat) : bool :=
  Nat.ltb b (length row) &&
  forallb (fun c => nth c row 0 <=? nth b row 0) (seq 0 (length row)) &&
  forallb (fun c => nth c row 0 <? nth b row 0) (seq 0 b).

(** The number of queries [b] whose own passage [b] has the first largest
    score of row [b]. *)
Definition top1_count (m : list (list Z)) : nat :=
  length (List.filter (fun b => first_largest (nth b m []) b) (seq 0 (length m))).

(** Row [b] of a score matrix has its one largest entry at column [b]. *)
Definition own_passage_first (m : list (list Z)) : Prop :=
  forall b, (b < length m)%nat ->
    (b < length (nth b m []))%nat /\
    forall c, (c < length (nth b m []))%nat -> c <> b -> entry m b c < entry m b b.

(** The value kept for a cut-off is the value of the last entry that has
    it. *)
Definition last_entry_wins {V : Type} (prefix : string)
    (entries : list (string * string * V)) (scores : gmap string V) : Prop :=
  forall before name k v after,
    entries = before ++ (name, k, v) :: after ->
    Forall (fun e => snd (fst e) <> k) after ->
    scores !! (prefix ++ k)%string = Some v.

(** [key] is the prefix followed by what stands after the first [@] of
    [k], up to the next one. *)
Definition renamed_key (prefix k key : string) : Prop :=
  exists part, nth_error (py.split "@" k) 1 = Some part /\
               key = (prefix ++ part)%string.

(** [key] was made from the key of an item of [d] that has the value [v]. *)
Definition made_from {V : Type} (prefix : string) (d : list (string * V))
    (key : string) (v : V) : Prop :=
  exists k, In (k, v) d /\ renamed_key prefix k key.

(** Every item of [d] has its renamed key in [scores]. *)
Definition covers {V : Type} (prefix : string) (d : list (string * V))
    (scores : gmap string V) : Prop :=
  forall k v key, In (k, v) d -> renamed_key prefix k key ->
    is_Some (scores !! key).

(** What the selected routine computes from the frame. *)
Definition selected_scores (fr : Frame) : result Tensor :=
  if is_multi_vector (self fr)
  then multi_vector_scores (grad_enabled fr) 128 (qs fr) (ps fr)
  else single_vector_scores (grad_enabled fr) (qs fr) (ps fr).

(** The frame after [logger.info] wrote one record. *)
Definition logged (fr : Frame) (r : LogRecord) : Frame :=
  {| self := self fr; qs := qs fr; ps := ps fr; logger := logger fr ++ [r];
     grad_enabled := grad_enabled fr |}.

(** The entries [argmax(dim=1)] returns for a tensor of two dimensions. *)
Definition row_argmax (T : Tensor) : list Z :=
  map (fun row => argmaxZ (scalars row)) (items (data T)).

(** The number [evaluate] divides by [len(qs)] for its accuracy. *)
Definition hits (T : Tensor) (n : nat) : Z :=
  sumZ (zip_with (fun a b => if a =? b then 1 else 0)
                 (row_argmax T) (map Z.of_nat (seq 0 n))).

(** Every key of a dictionary holds an [@]. *)
Definition keys_have_at {V : Type} (d : list (string * V)) : bool :=
  forallb (fun kv => has_at (fst kv)) d.

(** The frame of the next call, with the arguments [Q] and [P]: the
    call shares the evaluator, the logger and the runtime with the call
    that left [fr]. *)
Definition enter (fr : Frame) (Q P : list Tensor) : Frame :=
  {| self := self fr; qs := Q; ps := P; logger := logger fr;
     grad_enabled := grad_enabled fr |}.

Section Calls.

Context {V : Type}.

Variable RetrievalEvaluator_evaluate :
  RetrievalEvaluator -> Qrels -> @Run V -> list Z -> PyVal ->
  result (@items_of V * @items_of V * @items_of V * @items_of V * @items_of V).
Variable RetrievalEvaluator_evaluate_custom :
  RetrievalEvaluator -> Qrels -> @Run V -> list Z -> string ->
  result (list (@items_of V)).

(** A call of a method of the evaluator, with its arguments. *)
Inductive Call : Type :=
  | Evaluate (Q P : list Tensor)
  | GetSingleVectorScores (Q P : list Tensor)
  | GetMultiVectorScores (Q P : list Tensor) (batch_size : Z)
  | ComputeMetrics (relevant_docs : Qrels) (results : @Run V)
                   (kwargs : gmap string PyVal).

(** The frame a call leaves behind. *)
Definition invoke (c : Call) (fr : Frame) : Frame :=
  match c with
  | Evaluate Q P => fst (evaluate (enter fr Q P))
  | GetSingleVectorScores Q P => fst (get_single_vector_scores (enter fr Q P))
  | GetMultiVectorScores Q P batch_size =>
      fst (get_multi_vector_scores batch_size (enter fr Q P))
  | ComputeMetrics relevant_docs results kwargs =>
      fst (compute_metrics RetrievalEvaluator_evaluate
             RetrievalEvaluator_evaluate_custom relevant_docs results kwargs fr)
  end.

(** The frame left by the calls of [history], one after the other. *)
Definition after (history : list Call) (fr : Frame) : Frame :=
  fold_left (fun fr c => invoke c fr) history fr.

End Calls.




(** The frame of a call on a query that requires grad, in grad mode. *)
Definition example_tracked_frame : Frame :=
  call (example_evaluator false) [example_tracked_query] [tensor1 [3; 4]] [].




(** A method that only reads the frame: it leaves the frame as it found
    it and returns [f] of it. *)
Definition reads {A} (m : M A) (f : Frame -> result A) : Prop :=
  forall fr, m fr = (fr, f fr).

(** The part of a frame a call must leave alone. *)
Definition same_objects (fr fr' : Frame) : Prop :=
  self fr' = self fr /\ qs fr' = qs fr /\ ps fr' = ps fr.

(** A method that leaves the evaluator and the argument lists alone. *)
Definition preserves {A} (m : M A) : Prop :=
  forall fr, same_objects fr (fst (m fr)).

(** Exceptions of the tensor library. *)
Definition library_exn (e : exn) : bool :=
  match e with
  | RuntimeError _ | IndexError _ => true
  | _ => false
  end.

Definition library_result {A} (r : result A) : Prop :=
  match r with
  | Ok _ => True
  | Raise e => library_exn e = true
  end.

(* ===================================================================== *)
(** ** The monad *)

(** A loop that appends one value per round is a [rmap]. *)
Lemma reads_for_append {A B} (body : list B -> A -> M (list B))
    (F : Frame -> A -> result B) :
  (forall acc x, reads (body acc x)
     (fun fr => rbind (F fr x) (fun y => Ok (acc ++ [y])))) ->
  forall xs acc, reads (for_ xs acc body)
     (fun fr => rbind (rmap (F fr) xs) (fun ys => Ok (acc ++ ys))).
Proof.
  intros Hbody xs. induction xs as [|x xs IH]; intros acc fr; simpl.
  - rewrite app_nil_r. reflexivity.
  - unfold bind. rewrite Hbody.
    destruct (F fr x) as [y|e]; simpl; [|reflexivity].
    rewrite IH. destruct (rmap (F fr) xs) as [ys|e]; simpl; [|reflexivity].
    rewrite <- app_assoc. reflexivity.
Qed.

(** [get_single_vector_scores] only reads the frame. *)
Lemma get_single_vector_scores_reads :
  reads get_single_vector_scores
        (fun fr => single_vector_scores (grad_enabled fr) (qs fr) (ps fr)).
Proof.
  intros fr. unfold get_single_vector_scores, single_vector_scores.
  unfold bind at 1. unfold gets at 1.
  destruct (py.len (qs fr) =? 0); [reflexivity|].
  unfold bind at 1. unfold gets at 1.
  destruct (py.len (ps fr) =? 0); [reflexivity|].
  unfold bind, gets, torch_call, ret, torch.to.
  destruct (torch.stack (qs fr) _) as [x|e]; simpl; [|reflexivity].
  destruct (torch.stack (ps fr) _) as [y|e]; simpl; [|reflexivity].
  destruct (torch.einsum _ x y _); reflexivity.
Qed.

Lemma scores_block_reads batch_size qs_batch scores_batch j :
  reads
    (let* p := gets ps in
     let* ps_batch :=
       torch_call (torch.pad_sequence (py.slice p j (j + batch_size)) 0) in
     let* s := gets self in
     let ps_batch := torch.to ps_batch (device s) in
     let* sim := torch_call (torch.einsum "bnd,csd->bcns" qs_batch ps_batch) in
     let* mx := torch_call (torch.max sim 3) in
     let* sm := torch_call (torch.sum (fst mx) 2) in
     ret (scores_batch ++ [sm]))
    (fun fr => rbind (scores_block (grad_enabled fr) qs_batch
                                   (py.slice (ps fr) j (j + batch_size)))
                     (fun y => Ok (scores_batch ++ [y]))).
Proof.
  intros fr. unfold scores_block, bind, gets, torch_call, ret, torch.to.
  destruct (torch.pad_sequence _ 0 _) as [pb|e]; simpl; [|reflexivity].
  destruct (torch.einsum _ qs_batch pb _) as [sim|e]; simpl; [|reflexivity].
  destruct (torch.max sim 3 _) as [mx|e]; simpl; [|reflexivity].
  destruct (torch.sum (fst mx) 2 _); reflexivity.
Qed.

Lemma scores_rows_reads batch_size scores_list i :
  reads
    (let* q := gets qs in
     let* qs_batch :=
       torch_call (torch.pad_sequence (py.slice q i (i + batch_size)) 0) in
     let* s := gets self in
     let qs_batch := torch.to qs_batch (device s) in
     let* p := gets ps in
     let* starts' := lift (py.range 0 (py.len p) batch_size) in
     let* scores_batch := for_ starts' [] (fun scores_batch j =>
       let* p := gets ps in
       let* ps_batch :=
         torch_call (torch.pad_sequence (py.slice p j (j + batch_size)) 0) in
       let* s := gets self in
       let ps_batch := torch.to ps_batch (device s) in
       let* sim := torch_call (torch.einsum "bnd,csd->bcns" qs_batch ps_batch) in
       let* mx := torch_call (torch.max sim 3) in
       let* sm := torch_call (torch.sum (fst mx) 2) in
       ret (scores_batch ++ [sm])) in
     let* scores_batch := torch_call (torch.cat scores_batch 1) in
     let scores_batch := torch.cpu scores_batch in
     ret (scores_list ++ [scores_batch]))
    (fun fr => rbind (scores_rows (grad_enabled fr) batch_size (ps fr)
                               (py.slice (qs fr) i (i + batch_size)))
                     (fun y => Ok (scores_list ++ [y]))).
Proof.
  intros fr. unfold scores_rows.
  unfold bind at 1. unfold gets at 1.
  unfold bind at 1. unfold torch_call at 1.
  destruct (torch.pad_sequence _ 0 _) as [qb|e]; simpl; [|reflexivity].
  unfold bind at 1. unfold gets at 1.
  unfold bind at 1. unfold gets at 1.
  unfold bind at 1. unfold lift at 1.
  destruct (py.range 0 (py.len (ps fr)) batch_size) as [js|e]; simpl; [|reflexivity].
  unfold bind at 1.
  match goal with
  | |- context [for_ js [] ?body fr] =>
      assert (Hbody : forall acc j, reads (body acc j)
                (fun fr => rbind (scores_block (grad_enabled fr) qb
                                               (py.slice (ps fr) j (j + batch_size)))
                                 (fun y => Ok (acc ++ [y]))))
        by (intros acc j; apply scores_block_reads);
      rewrite (reads_for_append body _ Hbody js [] fr)
  end.
  destruct (rmap _ js) as [sb|e]; simpl; [|reflexivity].
  unfold bind, torch_call, ret, torch.cpu.
  destruct (torch.cat sb 1 _); reflexivity.
Qed.

(** [get_multi_vector_scores] only reads the frame. *)
Lemma get_multi_vector_scores_reads batch_size :
  reads (get_multi_vector_scores batch_size)
        (fun fr => multi_vector_scores (grad_enabled fr) batch_size (qs fr) (ps fr)).
Proof.
  intros fr. unfold get_multi_vector_scores, multi_vector_scores.
  unfold bind at 1. unfold gets at 1.
  destruct (py.len (qs fr) =? 0); [reflexivity|].
  unfold bind at 1. unfold gets at 1.
  destruct (py.len (ps fr) =? 0); [reflexivity|].
  unfold bind at 1. unfold gets at 1.
  unfold bind at 1. unfold lift at 1.
  destruct (py.range 0 (py.len (qs fr)) batch_size) as [starts|e]; simpl; [|reflexivity].
  unfold bind at 1.
  match goal with
  | |- context [for_ starts [] ?body fr] =>
      assert (Hbody : forall acc i, reads (body acc i)
                (fun fr => rbind (scores_rows (grad_enabled fr) batch_size (ps fr)
                                           (py.slice (qs fr) i (i + batch_size)))
                                 (fun y => Ok (acc ++ [y]))))
        by (intros acc i; apply scores_rows_reads);
      rewrite (reads_for_append body _ Hbody starts [] fr)
  end.
  destruct (rmap _ starts) as [sl|e]; simpl; [|reflexivity].
  unfold bind, torch_call, ret.
  destruct (torch.cat sl 0 _); reflexivity.
Qed.

(* ===================================================================== *)
(** ** Ranges, slices and batches *)

Lemma rmap_map {A B C} (g : A -> B) (F : B -> result C) (xs : list A) :
  rmap (fun x => F (g x)) xs = rmap F (map g xs).
Proof. induction xs as [|x xs IH]; simpl; [reflexivity|]. rewrite IH. reflexivity. Qed.

Lemma rmap_ext_in {A B} (F G : A -> result B) (xs : list A) :
  (forall x, In x xs -> F x = G x) -> rmap F xs = rmap G xs.
Proof.
  induction xs as [|x xs IH]; intros H; simpl; [reflexivity|].
  rewrite (H x (or_introl eq_refl)), IH; [reflexivity|].
  intros y Hy. apply H. right. exact Hy.
Qed.

Lemma rmap_Ok {A B} (f : A -> B) (xs : list A) :
  rmap (fun x => Ok (f x)) xs = Ok (map f xs).
Proof. induction xs as [|x xs IH]; simpl; [reflexivity|]. rewrite IH. reflexivity. Qed.

Lemma rmap_Ok_inv {A B} (F : A -> result B) (xs : list A) (ys : list B) :
  rmap F xs = Ok ys -> Forall2 (fun x y => F x = Ok y) xs ys.
Proof.
  revert ys. induction xs as [|x xs IH]; simpl; intros ys H.
  - inversion H. constructor.
  - destruct (F x) as [y|e] eqn:Hx; simpl in H; [|discriminate].
    destruct (rmap F xs) as [ys'|e] eqn:Hxs; simpl in H; [|discriminate].
    inversion H; subst. constructor; [exact Hx | apply IH; reflexivity].
Qed.

Lemma rmap_library {A B} (F : A -> result B) (xs : list A) :
  (forall x, library_result (F x)) -> library_result (rmap F xs).
Proof.
  intros H. induction xs as [|x xs IH]; simpl; [exact I|].
  specialize (H x). destruct (F x) as [y|e]; simpl; [|exact H].
  destruct (rmap F xs) as [ys|e]; simpl; [exact I | exact IH].
Qed.

Lemma rbind_library {A B} (r : result A) (k : A -> result B) :
  library_result r -> (forall a, library_result (k a)) -> library_result (rbind r k).
Proof. intros Hr Hk. destruct r as [a|e]; simpl; [apply Hk | exact Hr]. Qed.

Lemma range_pos n batch_size :
  0 < batch_size ->
  py.range 0 n batch_size =
  Ok (map (fun k => Z.of_nat k * batch_size) (seq 0 (rounds n batch_size))).
Proof.
  intros Hb. unfold py.range, rounds.
  destruct (Z.eqb_spec batch_size 0) as [->|_]; [lia|].
  destruct (Z.ltb_spec 0 batch_size) as [_|?]; [|lia].
  replace (n - 0 + batch_size - 1) with (n + batch_size - 1) by lia.
  reflexivity.
Qed.

Lemma range_neg n batch_size :
  0 <= n -> batch_size < 0 -> py.range 0 n batch_size = Ok [].
Proof.
  intros Hn Hb. unfold py.range.
  destruct (Z.eqb_spec batch_size 0) as [->|_]; [lia|].
  destruct (Z.ltb_spec 0 batch_size) as [?|_]; [lia|].
  destruct (Z.ltb_spec n 0) as [?|_]; [lia|]. reflexivity.
Qed.

Lemma range_library start stop step :
  step <> 0 -> library_result (py.range start stop step).
Proof.
  intros H. unfold py.range.
  destruct (Z.eqb_spec step 0) as [?|_]; [contradiction|]. exact I.
Qed.

Lemma rounds_bounds n batch_size :
  0 <= n -> 0 < batch_size ->
  n <= Z.of_nat (rounds n batch_size) * batch_size /\
  (forall k, (k < rounds n batch_size)%nat -> Z.of_nat k * batch_size < n).
Proof.
  intros Hn Hb. unfold rounds.
  destruct (Z.ltb_spec 0 n) as [Hpos|Hz].
  - assert (Hq : 0 <= (n + batch_size - 1) / batch_size)
      by (apply Z.div_pos; lia).
    rewrite Z2Nat.id by exact Hq.
    pose proof (Z.mul_div_le (n + batch_size - 1) batch_size Hb) as Hle.
    pose proof (Z.mul_succ_div_gt (n + batch_size - 1) batch_size Hb) as Hgt.
    split; [nia|].
    intros k Hk. apply Nat2Z.inj_lt in Hk. rewrite Z2Nat.id in Hk by exact Hq. nia.
  - simpl. split; [lia|]. intros k Hk. lia.
Qed.

Lemma slice_take_drop {A} (l : list A) (i batch_size : Z) :
  0 <= i -> 0 < batch_size ->
  py.slice l i (i + batch_size) =
  firstn (Z.to_nat batch_size) (skipn (Z.to_nat i) l).
Proof.
  intros Hi Hb. unfold py.slice, py.clamp, py.len.
  destruct (Z.ltb_spec i 0) as [?|_]; [lia|].
  destruct (Z.ltb_spec (i + batch_size) 0) as [?|_]; [lia|].
  set (n := Z.of_nat (length l)).
  destruct (Z.le_gt_cases n i) as [Hge|Hlt].
  - rewrite !Z.min_r by lia. rewrite Z.sub_diag. simpl.
    rewrite !skipn_all2 by lia.
    destruct (Z.to_nat batch_size); reflexivity.
  - rewrite (Z.min_l i n) by lia.
    destruct (Z.le_gt_cases (i + batch_size) n) as [Hle|Hgt].
    + rewrite Z.min_l by lia. f_equal. lia.
    + rewrite Z.min_r by lia.
      rewrite (firstn_all2 (n := Z.to_nat batch_size)); [|rewrite length_skipn; lia].
      apply firstn_all2. rewrite length_skipn. lia.
Qed.

Lemma batches_pos {A} (batch_size : Z) (l : list A) :
  0 < batch_size ->
  batches batch_size l =
  map (fun k => firstn (Z.to_nat batch_size) (skipn (k * Z.to_nat batch_size) l))
      (seq 0 (rounds (py.len l) batch_size)).
Proof.
  intros Hb. unfold batches. rewrite range_pos by exact Hb.
  rewrite map_map. apply map_ext. intros k.
  rewrite slice_take_drop by lia. f_equal. f_equal. lia.
Qed.

Lemma firstn_plus {A} (n m : nat) (l : list A) :
  firstn (n + m) l = firstn n l ++ firstn m (skipn n l).
Proof.
  revert l. induction n as [|n IH]; intros l; simpl; [reflexivity|].
  destruct l as [|x l]; simpl; [rewrite firstn_nil; reflexivity|].
  rewrite IH. reflexivity.
Qed.

Lemma concat_chunks {A} (b c : nat) (l : list A) :
  concat (map (fun k => firstn b (skipn (k * b) l)) (seq 0 c)) = firstn (c * b) l.
Proof.
  induction c as [|c IH]; [reflexivity|].
  rewrite seq_S, map_app, concat_app, IH. simpl.
  rewrite app_nil_r.
  replace (b + c * b)%nat with (c * b + b)%nat by lia.
  rewrite firstn_plus. reflexivity.
Qed.

(** The batches of a loop, one after the other, are the whole list. *)
Lemma concat_batches {A} (batch_size : Z) (l : list A) :
  0 < batch_size -> concat (batches batch_size l) = l.
Proof.
  intros Hb. rewrite batches_pos by exact Hb. rewrite concat_chunks.
  apply firstn_all2.
  destruct (rounds_bounds (py.len l) batch_size) as [H _]; unfold py.len in *; lia.
Qed.

(** No batch of a loop is empty. *)
Lemma batches_nonempty {A} (batch_size : Z) (l : list A) :
  0 < batch_size -> Forall (fun s => s <> []) (batches batch_size l).
Proof.
  intros Hb. rewrite batches_pos by exact Hb.
  apply List.Forall_forall. intros s Hs. apply in_map_iff in Hs as [k [<- Hk]].
  apply in_seq in Hk.
  destruct (rounds_bounds (py.len l) batch_size) as [_ H]; [unfold py.len; lia | lia |].
  specialize (H k ltac:(lia)). unfold py.len in H.
  intros Heq. apply (f_equal (@length A)) in Heq.
  rewrite length_firstn, length_skipn in Heq. simpl in Heq. lia.
Qed.

Lemma batches_nil_iff {A} (batch_size : Z) (l : list A) :
  0 < batch_size -> l <> [] -> batches batch_size l <> [].
Proof.
  intros Hb Hl Heq. pose proof (concat_batches batch_size l Hb) as H.
  rewrite Heq in H. simpl in H. congruence.
Qed.

Lemma len_zero_iff {A} (l : list A) : (py.len l =? 0) = true <-> l = [].
Proof.
  unfold py.len. destruct l; simpl; split; intros H; try reflexivity; try discriminate.
Qed.

Lemma len_nonzero {A} (l : list A) : l <> [] -> (py.len l =? 0) = false.
Proof.
  intros H. destruct (py.len l =? 0) eqn:E; [|reflexivity].
  apply len_zero_iff in E. contradiction.
Qed.

(** With a positive batch size the two loops run over the batches. *)
Lemma scores_rows_batches {grad} batch_size P q_slice :
  0 < batch_size ->
  scores_rows grad batch_size P q_slice =
  rbind (torch.pad_sequence q_slice 0 grad) (fun qs_batch =>
  rbind (rmap (scores_block grad qs_batch) (batches batch_size P))
        (fun scores_batch => torch.cat scores_batch 1 grad)).
Proof.
  intros Hb. unfold scores_rows, batches.
  destruct (torch.pad_sequence q_slice 0 grad) as [qb|e]; simpl; [|reflexivity].
  rewrite range_pos by exact Hb. simpl.
  rewrite (rmap_map (fun j => py.slice P j (j + batch_size)) (scores_block grad qb)).
  reflexivity.
Qed.

Lemma multi_vector_scores_batches {grad} batch_size Q P :
  0 < batch_size -> Q <> [] -> P <> [] ->
  multi_vector_scores grad batch_size Q P =
  rbind (rmap (scores_rows grad batch_size P) (batches batch_size Q))
        (fun scores_list => torch.cat scores_list 0 grad).
Proof.
  intros Hb HQ HP. unfold multi_vector_scores, batches.
  rewrite (len_nonzero Q HQ), (len_nonzero P HP).
  rewrite range_pos by exact Hb. simpl.
  rewrite (rmap_map (fun i => py.slice Q i (i + batch_size))
                    (scores_rows grad batch_size P)).
  reflexivity.
Qed.

Lemma multi_vector_scores_zero {grad} Q P :
  Q <> [] -> P <> [] ->
  multi_vector_scores grad 0 Q P = Raise (ValueError "range() arg 3 must not be zero").
Proof.
  intros HQ HP. unfold multi_vector_scores.
  rewrite (len_nonzero Q HQ), (len_nonzero P HP). reflexivity.
Qed.

Lemma multi_vector_scores_neg {grad} batch_size Q P :
  batch_size < 0 -> Q <> [] -> P <> [] ->
  multi_vector_scores grad batch_size Q P =
  Raise (RuntimeError "torch.cat(): expected a non-empty list of Tensors").
Proof.
  intros Hb HQ HP. unfold multi_vector_scores.
  rewrite (len_nonzero Q HQ), (len_nonzero P HP).
  rewrite range_neg by (unfold py.len; lia). reflexivity.
Qed.

(* ===================================================================== *)
(** ** Shapes and exceptions of the library functions, on any operands *)

Lemma stack_library ts grad : library_result (torch.stack ts grad).
Proof.
  unfold torch.stack. destruct ts as [|t r]; [reflexivity|].
  destruct (forallb _ r); simpl; auto.
Qed.

Lemma stack_shape ts grad T :
  torch.stack ts grad = Ok T -> exists sh, shape T = length ts :: sh.
Proof.
  unfold torch.stack. destruct ts as [|t r]; [discriminate|].
  destruct (forallb _ r); [|discriminate].
  intros H. inversion H; subst. simpl. eauto.
Qed.

Lemma pad_sequence_library seqs v grad :
  library_result (torch.pad_sequence seqs v grad).
Proof.
  unfold torch.pad_sequence. destruct seqs as [|t r]; [reflexivity|].
  destruct (shape t); [reflexivity|].
  destruct (existsb _ _); [reflexivity|].
  destruct (omap_list _ _); simpl; auto.
Qed.

Lemma pad_sequence_shape seqs v grad T :
  torch.pad_sequence seqs v grad = Ok T -> exists sh, shape T = length seqs :: sh.
Proof.
  unfold torch.pad_sequence. destruct seqs as [|t r]; [discriminate|].
  destruct (shape t); [discriminate|].
  destruct (existsb _ _); [discriminate|].
  destruct (omap_list _ _); [|discriminate].
  intros H. inversion H; subst. simpl. eauto.
Qed.

Lemma einsum_bd_cd_bc_eq x y grad :
  torch.einsum "bd,cd->bc" x y grad = torch.einsum_bd_cd_bc x y grad.
Proof. reflexivity. Qed.

Lemma einsum_bnd_csd_bcns_eq x y grad :
  torch.einsum "bnd,csd->bcns" x y grad = torch.einsum_bnd_csd_bcns x y grad.
Proof. reflexivity. Qed.

Lemma einsum_library eq x y grad : library_result (torch.einsum eq x y grad).
Proof.
  unfold torch.einsum, torch.einsum_bd_cd_bc, torch.einsum_bnd_csd_bcns, torch.malformed.
  repeat match goal with
         | |- library_result (if ?c then _ else _) => destruct c
         | |- library_result (match ?c with _ => _ end) => destruct c
         end; simpl; auto.
Qed.

Lemma einsum_bd_cd_bc_shape x y grad T :
  torch.einsum_bd_cd_bc x y grad = Ok T ->
  exists b c d d', shape x = [b; d] /\ shape y = [c; d'] /\ shape T = [b; c].
Proof.
  unfold torch.einsum_bd_cd_bc, torch.malformed.
  destruct (shape x) as [|b [|d [|? ?]]]; try discriminate.
  destruct (shape y) as [|c [|d' [|? ?]]]; try discriminate.
  destruct (torch.broadcastable d d'); [|discriminate].
  destruct (as2 (data x)); [|discriminate].
  destruct (as2 (data y)); [|discriminate].
  intros H. inversion H; subst. simpl. eauto 8.
Qed.

Lemma einsum_bnd_csd_bcns_shape x y grad T :
  torch.einsum_bnd_csd_bcns x y grad = Ok T ->
  exists b c n s d d',
    shape x = [b; n; d] /\ shape y = [c; s; d'] /\ shape T = [b; c; n; s].
Proof.
  unfold torch.einsum_bnd_csd_bcns, torch.malformed.
  destruct (shape x) as [|b [|n [|d [|? ?]]]]; try discriminate.
  destruct (shape y) as [|c [|s [|d' [|? ?]]]]; try discriminate.
  destruct (torch.broadcastable d d'); [|discriminate].
  destruct (as3 (data x)); [|discriminate].
  destruct (as3 (data y)); [|discriminate].
  intros H. inversion H; subst. simpl. eauto 12.
Qed.

Lemma max_library x dim grad : library_result (torch.max x dim grad).
Proof.
  unfold torch.max.
  repeat match goal with
         | |- library_result (if ?c then _ else _) => destruct c
         end; simpl; auto.
Qed.

Lemma max_shape x dim grad mx :
  torch.max x dim grad = Ok mx -> shape (fst mx) = firstn dim (shape x).
Proof.
  unfold torch.max.
  repeat match goal with
         | |- (if ?c then _ else _) = _ -> _ => destruct c
         end; try discriminate.
  intros H. inversion H; subst. reflexivity.
Qed.

Lemma sum_library x dim grad : library_result (torch.sum x dim grad).
Proof.
  unfold torch.sum.
  repeat match goal with
         | |- library_result (if ?c then _ else _) => destruct c
         end; simpl; auto.
Qed.

Lemma sum_shape x dim grad T :
  torch.sum x dim grad = Ok T -> shape T = firstn dim (shape x).
Proof.
  unfold torch.sum.
  repeat match goal with
         | |- (if ?c then _ else _) = _ -> _ => destruct c
         end; try discriminate.
  intros H. inversion H; subst. reflexivity.
Qed.

Lemma argmax_library x dim : library_result (torch.argmax x dim).
Proof.
  unfold torch.argmax.
  repeat match goal with
         | |- library_result (if ?c then _ else _) => destruct c
         end; simpl; auto.
Qed.

Lemma count_eq_library x y : library_result (torch.count_eq x y).
Proof.
  unfold torch.count_eq, torch.malformed.
  repeat match goal with
         | |- library_result (if ?c then _ else _) => destruct c
         | |- library_result (match ?c with _ => _ end) => destruct c
         end; simpl; auto.
Qed.

Lemma cat_library ts dim grad : library_result (torch.cat ts dim grad).
Proof.
  unfold torch.cat. destruct ts as [|t r]; [reflexivity|].
  repeat match goal with
         | |- library_result (if ?c then _ else _) => destruct c
         end; simpl; auto.
Qed.

Lemma cat_shape ts dim grad T :
  torch.cat ts dim grad = Ok T ->
  exists t r, ts = t :: r /\
    shape T = set_dim dim (sum_nat_list (map (fun u => nth dim (shape u) 0%nat) ts))
                      (shape t).
Proof.
  unfold torch.cat. destruct ts as [|t r]; [discriminate|].
  repeat match goal with
         | |- (if ?c then _ else _) = _ -> _ => destruct c
         end; try discriminate.
  intros H. inversion H; subst. simpl. eauto.
Qed.

(* ===================================================================== *)
(** ** Shape and exceptions of the scores, on any operands *)

Lemma sum_nat_list_lengths {A} (xs : list (list A)) :
  sum_nat_list (map (fun s => length s) xs) = length (concat xs).
Proof.
  induction xs as [|x xs IH]; simpl; [reflexivity|].
  rewrite length_app, IH. reflexivity.
Qed.

Lemma single_vector_scores_library grad Q P :
  Q <> [] -> P <> [] -> library_result (single_vector_scores grad Q P).
Proof.
  intros HQ HP. unfold single_vector_scores.
  rewrite (len_nonzero Q HQ), (len_nonzero P HP).
  apply rbind_library; [apply stack_library|]. intros x.
  apply rbind_library; [apply stack_library|]. intros y.
  apply einsum_library.
Qed.

Lemma single_vector_scores_shape {grad} Q P T :
  single_vector_scores grad Q P = Ok T -> shape T = [length Q; length P].
Proof.
  unfold single_vector_scores.
  destruct (py.len Q =? 0); [discriminate|].
  destruct (py.len P =? 0); [discriminate|].
  destruct (torch.stack Q grad) as [x|e] eqn:Hx; simpl; [|discriminate].
  destruct (torch.stack P grad) as [y|e] eqn:Hy; simpl; [|discriminate].
  rewrite einsum_bd_cd_bc_eq. intros H.
  apply einsum_bd_cd_bc_shape in H as (b & c & d & d' & Hsx & Hsy & ->).
  apply stack_shape in Hx as [shx Hx]. apply stack_shape in Hy as [shy Hy].
  congruence.
Qed.

Lemma scores_block_library grad qb p_slice :
  library_result (scores_block grad qb p_slice).
Proof.
  unfold scores_block.
  apply rbind_library; [apply pad_sequence_library|]. intros pb.
  apply rbind_library; [apply einsum_library|]. intros sim.
  apply rbind_library; [apply max_library|]. intros mx.
  apply sum_library.
Qed.

Lemma scores_block_shape {grad} qb p_slice T :
  scores_block grad qb p_slice = Ok T ->
  shape T = [hd 0%nat (shape qb); length p_slice].
Proof.
  unfold scores_block.
  destruct (torch.pad_sequence p_slice 0 grad) as [pb|e] eqn:Hpb; simpl;
    [|discriminate].
  rewrite einsum_bnd_csd_bcns_eq.
  destruct (torch.einsum_bnd_csd_bcns qb pb grad) as [sim|e] eqn:Hsim; simpl;
    [|discriminate].
  destruct (torch.max sim 3 grad) as [mx|e] eqn:Hmx; simpl; [|discriminate].
  intros Hsum.
  apply pad_sequence_shape in Hpb as [sh Hpb].
  apply einsum_bnd_csd_bcns_shape in Hsim as (b & c & n & s & d & d' & Hq & Hp & Hs).
  apply max_shape in Hmx. apply sum_shape in Hsum.
  rewrite Hsum, Hmx, Hs, Hq. simpl. congruence.
Qed.

Lemma scores_rows_library grad batch_size P q_slice :
  batch_size <> 0 -> library_result (scores_rows grad batch_size P q_slice).
Proof.
  intros Hb. unfold scores_rows.
  apply rbind_library; [apply pad_sequence_library|]. intros qb.
  apply rbind_library; [apply range_library; exact Hb|]. intros js.
  apply rbind_library; [apply rmap_library; intros j; apply scores_block_library|].
  intros sb. apply cat_library.
Qed.

Lemma blocks_widths {grad} qb (xs : list (list Tensor)) (ys : list Tensor) :
  Forall2 (fun x y => scores_block grad qb x = Ok y) xs ys ->
  map (fun u => nth 1 (shape u) 0%nat) ys = map (fun s => length s) xs /\
  Forall (fun u => shape u = [hd 0%nat (shape qb); nth 1 (shape u) 0%nat]) ys.
Proof.
  induction 1 as [|x y xs ys Hxy _ [IH1 IH2]]; simpl; [split; constructor|].
  apply scores_block_shape in Hxy. split.
  - rewrite IH1, Hxy. reflexivity.
  - constructor; [rewrite Hxy; reflexivity | exact IH2].
Qed.

Lemma scores_rows_shape {grad} batch_size P q_slice T :
  0 < batch_size ->
  scores_rows grad batch_size P q_slice = Ok T ->
  shape T = [length q_slice; length P].
Proof.
  intros Hb. rewrite scores_rows_batches by exact Hb.
  destruct (torch.pad_sequence q_slice 0 grad) as [qb|e] eqn:Hqb; simpl;
    [|discriminate].
  destruct (rmap (scores_block grad qb) (batches batch_size P)) as [sb|e] eqn:Hsb;
    simpl; [|discriminate].
  intros Hcat. apply cat_shape in Hcat as (t & r & -> & ->).
  apply rmap_Ok_inv in Hsb. apply blocks_widths in Hsb as [Hw Hs].
  rewrite Hw, sum_nat_list_lengths, concat_batches by exact Hb.
  inversion Hs as [|? ? Ht _]; subst. rewrite Ht. simpl.
  apply pad_sequence_shape in Hqb as [sh ->]. reflexivity.
Qed.

Lemma rows_heights {grad} batch_size P (xs : list (list Tensor)) (ys : list Tensor) :
  0 < batch_size ->
  Forall2 (fun x y => scores_rows grad batch_size P x = Ok y) xs ys ->
  map (fun u => nth 0 (shape u) 0%nat) ys = map (fun s => length s) xs /\
  Forall (fun u => shape u = [nth 0 (shape u) 0%nat; length P]) ys.
Proof.
  intros Hb. induction 1 as [|x y xs ys Hxy _ [IH1 IH2]]; simpl; [split; constructor|].
  apply scores_rows_shape in Hxy; [|exact Hb]. split.
  - rewrite IH1, Hxy. reflexivity.
  - constructor; [rewrite Hxy; reflexivity | exact IH2].
Qed.

Lemma multi_vector_scores_library grad batch_size Q P :
  Q <> [] -> P <> [] -> batch_size <> 0 ->
  library_result (multi_vector_scores grad batch_size Q P).
Proof.
  intros HQ HP Hb. unfold multi_vector_scores.
  rewrite (len_nonzero Q HQ), (len_nonzero P HP).
  apply rbind_library; [apply range_library; exact Hb|]. intros starts.
  apply rbind_library;
    [apply rmap_library; intros i; apply scores_rows_library; exact Hb|].
  intros sl. apply cat_library.
Qed.

(** Whatever the operands, a score matrix that is returned has one row per
    query and one column per passage. *)
Lemma multi_vector_scores_shape {grad} batch_size Q P T :
  multi_vector_scores grad batch_size Q P = Ok T -> shape T = [length Q; length P].
Proof.
  intros H.
  destruct Q as [|q0 Q']; [discriminate|]. destruct P as [|p0 P']; [discriminate|].
  destruct (Z.lt_trichotomy batch_size 0) as [Hb|[->|Hb]].
  - rewrite multi_vector_scores_neg in H by (try exact Hb; discriminate). discriminate.
  - rewrite multi_vector_scores_zero in H by discriminate. discriminate.
  - rewrite multi_vector_scores_batches in H by (try lia; discriminate).
    destruct (rmap _ (batches batch_size (q0 :: Q'))) as [sl|e] eqn:Hsl;
      simpl in H; [|discriminate].
    apply cat_shape in H as (t & r & -> & ->).
    apply rmap_Ok_inv in Hsl. apply rows_heights in Hsl as [Hh Hs]; [|lia].
    rewrite Hh, sum_nat_list_lengths, concat_batches by lia.
    inversion Hs as [|? ? Ht _]; subst. rewrite Ht. reflexivity.
Qed.

(* ===================================================================== *)
(** ** Nested lists as entries *)

Lemma omap_list_map {A B} (f : A -> option B) (g : B -> A) (xs : list B) :
  (forall x, f (g x) = Some x) -> omap_list f (map g xs) = Some xs.
Proof.
  intros H. induction xs as [|x xs IH]; simpl; [reflexivity|].
  rewrite H, IH. reflexivity.
Qed.

Lemma as1_of1 v : as1 (of1 v) = Some v.
Proof. apply omap_list_map. reflexivity. Qed.

Lemma as2_of2 m : as2 (of2 m) = Some m.
Proof. apply omap_list_map. exact as1_of1. Qed.

Lemma as3_of3 t : as3 (of3 t) = Some t.
Proof. apply omap_list_map. exact as2_of2. Qed.

Lemma as4_of4 t : as4 (of4 t) = Some t.
Proof. apply omap_list_map. exact as3_of3. Qed.

Lemma scalars_of1 v : scalars (of1 v) = v.
Proof.
  unfold scalars, of1. simpl. rewrite map_map. simpl.
  induction v as [|x v IH]; simpl; [reflexivity|]. rewrite IH. reflexivity.
Qed.

Lemma reduce_last_of1 f v : reduce_last f 0 (of1 v) = of0 (f v).
Proof. simpl. rewrite scalars_of1. reflexivity. Qed.

Lemma reduce_last_of2 f m : reduce_last f 1 (of2 m) = of1 (map f m).
Proof.
  unfold of2, of1. simpl. rewrite !map_map. f_equal.
  apply map_ext. intros v. apply reduce_last_of1.
Qed.

Lemma reduce_last_of3 f t : reduce_last f 2 (of3 t) = of2 (map (map f) t).
Proof.
  unfold of3, of2 at 2. change (reduce_last f 2 (Ar ?l)) with (Ar (map (reduce_last f 1) l)).
  rewrite !map_map. f_equal. apply map_ext. intros m. apply reduce_last_of2.
Qed.

Lemma reduce_last_of4 f t :
  reduce_last f 3 (of4 t) = of3 (map (map (map f)) t).
Proof.
  unfold of4, of3 at 2. change (reduce_last f 3 (Ar ?l)) with (Ar (map (reduce_last f 2) l)).
  rewrite !map_map. f_equal. apply map_ext. intros m. apply reduce_last_of3.
Qed.

Lemma repeat_map_const {A B} (b : B) (xs : list A) :
  repeat b (length xs) = map (fun _ => b) xs.
Proof. induction xs as [|x xs IH]; simpl; [reflexivity|]. rewrite IH. reflexivity. Qed.

Lemma zip_with_maps {A B C D} (f : B -> C -> D) (g : A -> B) (h : A -> C) (xs : list A) :
  zip_with f (map g xs) (map h xs) = map (fun x => f (g x) (h x)) xs.
Proof. induction xs as [|x xs IH]; simpl; [reflexivity|]. rewrite IH. reflexivity. Qed.

(** Columns of a table given by rows [h _ y]. *)
Lemma transpose_maps {A X Y} (h : X -> Y -> A) (xs : list X) (ys : list Y) :
  transpose (length xs) (map (fun y => map (fun x => h x y) xs) ys) =
  map (fun x => map (fun y => h x y) ys) xs.
Proof.
  induction ys as [|y ys IH]; simpl.
  - apply repeat_map_const.
  - rewrite IH. apply zip_with_maps.
Qed.

Lemma dot_zeros_l d v : dot (repeat 0 d) v = 0.
Proof.
  unfold dot. revert v. induction d as [|d IH]; intros v; simpl; [reflexivity|].
  destruct v as [|x v]; simpl; [reflexivity|]. apply IH.
Qed.

Lemma maxZ_zeros {A} (xs : list A) : maxZ (map (fun _ => 0) xs) = 0.
Proof.
  destruct xs as [|x xs]; simpl; [reflexivity|].
  induction xs as [|y xs IH]; simpl; [reflexivity|]. exact IH.
Qed.

Lemma sumZ_app u v : sumZ (u ++ v) = sumZ u + sumZ v.
Proof.
  unfold sumZ. induction u as [|x u IH]; simpl; [reflexivity|]. rewrite IH. lia.
Qed.

(** A zero vector among the query tokens adds nothing to the score. *)
Lemma MaxSim_append_zeros d k q p :
  MaxSim (append_zeros d k q) p = MaxSim q p.
Proof.
  unfold MaxSim, append_zeros. rewrite map_app, sumZ_app.
  rewrite <- (Z.add_0_r (sumZ (map _ q))) at 2. f_equal.
  induction k as [|k IH]; simpl; [reflexivity|].
  unfold sumZ in *. simpl. rewrite IH.
  rewrite (map_ext _ (fun _ => 0)) by (intros pv; apply dot_zeros_l).
  rewrite maxZ_zeros. reflexivity.
Qed.

Lemma MaxSim_pad_to d n q p : MaxSim (pad_to d n q) p = MaxSim q p.
Proof. apply MaxSim_append_zeros. Qed.

(* ===================================================================== *)
(** ** The library functions on tensors given as nested lists *)

Lemma shape_eqb_refl s : shape_eqb s s = true.
Proof. unfold shape_eqb. destruct (decide (s = s)); [reflexivity|contradiction]. Qed.

Lemma broadcastable_refl d : torch.broadcastable d d = true.
Proof. unfold torch.broadcastable. rewrite Nat.eqb_refl. reflexivity. Qed.

Lemma contract_same d u v : torch.contract d d u v = dot u v.
Proof. unfold torch.contract. rewrite Nat.eqb_refl. reflexivity. Qed.

(** Tensors made from their entries do not make a result require grad. *)
Lemma tracks_data {X} (f : X -> Tensor) (xs : list X) grad :
  (forall x, requires_grad (f x) = false) -> torch.tracks (map f xs) grad = false.
Proof.
  intros H. unfold torch.tracks.
  replace (existsb requires_grad (map f xs)) with false; [reflexivity|].
  symmetry. induction xs as [|x xs IH]; simpl; [reflexivity|].
  rewrite H. exact IH.
Qed.

Lemma stack_tensor1 {grad} d (vs : list (list Z)) :
  vs <> [] -> Forall (fun v => length v = d) vs ->
  torch.stack (map tensor1 vs) grad =
  Ok {| shape := [length vs; d]; data := of2 vs; requires_grad := false |}.
Proof.
  intros Hne Hd. destruct vs as [|v vs]; [contradiction|].
  inversion Hd as [|? ? Hv Hvs]; subst.
  unfold torch.stack.
  rewrite (tracks_data tensor1 (v :: vs) grad) by reflexivity. simpl.
  match goal with
  | |- context [forallb ?f ?l] => assert (Hall : forallb f l = true)
  end.
  { apply forallb_forall. intros u Hu. apply in_map_iff in Hu as [w [<- Hw]].
    simpl. rewrite (proj1 (List.Forall_forall _ _) Hvs w Hw). apply shape_eqb_refl. }
  rewrite Hall. rewrite length_map. unfold of2.
  rewrite map_map. reflexivity.
Qed.

Lemma einsum_bd_cd_bc_of2 {grad} b c d q p :
  torch.einsum_bd_cd_bc
    {| shape := [b; d]; data := of2 q; requires_grad := false |}
    {| shape := [c; d]; data := of2 p; requires_grad := false |} grad =
  Ok {| shape := [b; c];
        data := of2 (map (fun qv => map (fun pv => dot qv pv) p) q);
        requires_grad := false |}.
Proof.
  unfold torch.einsum_bd_cd_bc. simpl shape. simpl data. cbv beta iota.
  rewrite broadcastable_refl, !as2_of2. f_equal. f_equal. f_equal.
  apply map_ext. intros qv. apply map_ext. intros pv. apply contract_same.
Qed.

Lemma omap_list_Some {A B C} (f : A -> option B) (g : C -> A) (h : C -> B)
    (xs : list C) :
  (forall x, f (g x) = Some (h x)) -> omap_list f (map g xs) = Some (map h xs).
Proof.
  intros H. induction xs as [|x xs IH]; simpl; [reflexivity|].
  rewrite H, IH. reflexivity.
Qed.

(** A tensor copied into a block of its own shape. *)
Lemma copy_to_tensor2 d (m : list (list Z)) :
  copy_to [length m; d] [length m; d] (of2 m) = Some (of2 m).
Proof.
  unfold copy_to. simpl. rewrite !Nat.eqb_refl. simpl.
  f_equal. unfold of2. f_equal. rewrite map_map.
  apply map_ext. intros v. simpl. unfold of1. f_equal. rewrite map_map.
  apply map_ext. intros z. reflexivity.
Qed.

Lemma pad_sequence_tensor2 {grad} d (ms : list (list (list Z))) :
  ms <> [] ->
  torch.pad_sequence (map (tensor2 d) ms) 0 grad =
  Ok {| shape := [length ms; longest ms; d];
        data := of3 (map (pad_to d (longest ms)) ms);
        requires_grad := false |}.
Proof.
  intros Hne. destruct ms as [|m ms]; [contradiction|].
  unfold torch.pad_sequence.
  rewrite (tracks_data (tensor2 d) (m :: ms) grad) by reflexivity.
  change (map (tensor2 d) (m :: ms)) with (tensor2 d m :: map (tensor2 d) ms).
  cbv beta iota. simpl shape at 1. cbv beta iota.
  change (tensor2 d m :: map (tensor2 d) ms) with (map (tensor2 d) (m :: ms)).
  assert (Hnone : existsb (fun u => shape_eqb (shape u) [])
                    (map (tensor2 d) (m :: ms)) = false).
  { apply not_true_is_false. intros H.
    apply existsb_exists in H as (u & Hu & Hs).
    apply in_map_iff in Hu as [w [<- _]]. discriminate Hs. }
  rewrite Hnone.
  rewrite (omap_list_Some _ (tensor2 d)
             (fun w => of2 (pad_to d (longest (m :: ms)) w))).
  - unfold of3. rewrite !map_map, length_map. reflexivity.
  - intros w. simpl shape. simpl data. simpl hd.
    rewrite copy_to_tensor2. simpl option_map. rewrite map_map.
    unfold of2, pad_to, append_zeros, longest. f_equal. f_equal.
    rewrite map_app, map_repeat. unfold of1 at 3. rewrite map_repeat.
    reflexivity.
Qed.

Lemma einsum_bnd_csd_bcns_of3 {grad} b c n s d q p :
  torch.einsum_bnd_csd_bcns
    {| shape := [b; n; d]; data := of3 q; requires_grad := false |}
    {| shape := [c; s; d]; data := of3 p; requires_grad := false |} grad =
  Ok {| shape := [b; c; n; s];
        data := of4 (map (fun qm => map (fun pm =>
                  map (fun qv => map (fun pv => dot qv pv) pm) qm) p) q);
        requires_grad := false |}.
Proof.
  unfold torch.einsum_bnd_csd_bcns. simpl shape. simpl data. cbv beta iota.
  rewrite broadcastable_refl, !as3_of3. f_equal. f_equal. f_equal.
  apply map_ext. intros qm. apply map_ext. intros pm.
  apply map_ext. intros qv. apply map_ext. intros pv. apply contract_same.
Qed.

Lemma max_of4 {grad} b c n s t :
  s <> 0%nat ->
  torch.max {| shape := [b; c; n; s]; data := of4 t; requires_grad := false |}
            3 grad =
  Ok ({| shape := [b; c; n]; data := of3 (map (map (map maxZ)) t);
         requires_grad := false |},
      {| shape := [b; c; n]; data := of3 (map (map (map argmaxZ)) t);
         requires_grad := false |}).
Proof.
  intros Hs. unfold torch.max.
  cbn [shape data length Nat.ltb Nat.leb Nat.eqb firstn nth].
  destruct (Nat.eqb_spec s 0) as [?|_]; [contradiction|].
  rewrite !reduce_last_of4. reflexivity.
Qed.

Lemma sum_of3 {grad} b c n t :
  torch.sum {| shape := [b; c; n]; data := of3 t; requires_grad := false |}
            2 grad =
  Ok {| shape := [b; c]; data := of2 (map (map sumZ) t);
        requires_grad := false |}.
Proof.
  unfold torch.sum. cbn [shape data length Nat.ltb Nat.leb Nat.eqb firstn].
  rewrite reduce_last_of3. reflexivity.
Qed.

(** One block of scores: the queries of the batch, padded or not, against
    the padded passages of the batch. *)
Lemma scores_block_value {grad} d b n (qpad : list (list (list Z)))
    (ms : list (list (list Z))) :
  ms <> [] ->
  scores_block grad
    {| shape := [b; n; d]; data := of3 qpad; requires_grad := false |}
    (map (tensor2 d) ms) =
  if Nat.eqb (longest ms) 0
  then Raise (IndexError "max(): Expected reduction dim to have non-zero size")
  else Ok {| shape := [b; length ms];
             data := of2 (map (fun q =>
               map (fun p => MaxSim q (pad_to d (longest ms) p)) ms) qpad);
             requires_grad := false |}.
Proof.
  intros Hne. unfold scores_block.
  rewrite pad_sequence_tensor2 by exact Hne. simpl rbind.
  rewrite einsum_bnd_csd_bcns_eq, einsum_bnd_csd_bcns_of3. simpl rbind.
  destruct (Nat.eqb_spec (longest ms) 0) as [Hz|Hnz].
  - rewrite Hz. reflexivity.
  - rewrite max_of4 by exact Hnz. simpl rbind. simpl fst.
    rewrite sum_of3. f_equal. f_equal. f_equal.
    rewrite !map_map. apply map_ext. intros q.
    rewrite !map_map. apply map_ext. intros p.
    unfold MaxSim. rewrite map_map. reflexivity.
Qed.

Lemma cat_columns {grad} {X Y} (g : X -> Y -> list Z) (w : Y -> nat)
    (xs : list X) (ys : list Y) :
  ys <> [] ->
  torch.cat (map (fun y => {| shape := [length xs; w y];
                              data := of2 (map (fun x => g x y) xs);
                              requires_grad := false |}) ys) 1 grad =
  Ok {| shape := [length xs; sum_nat_list (map w ys)];
        data := of2 (map (fun x => concat (map (fun y => g x y) ys)) xs);
        requires_grad := false |}.
Proof.
  intros Hne. destruct ys as [|y0 ys]; [contradiction|].
  unfold torch.cat. rewrite tracks_data by reflexivity.
  change (map ?f (y0 :: ys)) with (f y0 :: map f ys).
  cbv beta iota. cbn [shape length Nat.ltb Nat.leb].
  match goal with
  | |- context [forallb ?f ?l] => assert (Hall : forallb f l = true)
  end.
  { apply forallb_forall. intros u Hu. apply in_map_iff in Hu as [y [<- Hy]].
    simpl. rewrite Nat.eqb_refl, shape_eqb_refl. reflexivity. }
  rewrite Hall. f_equal. f_equal.
  - simpl. rewrite map_map. reflexivity.
  - rewrite <- (map_cons (fun y => {| shape := [length xs; w y];
                                     data := of2 (map (fun x => g x y) xs);
                                     requires_grad := false |})).
    cbn [cat_data hd tl]. rewrite !map_map. cbn [data items of2].
    rewrite (map_ext (fun y => map of1 (map (fun x => g x y) xs))
                     (fun y => map (fun x => of1 (g x y)) xs))
      by (intros y; apply map_map).
    rewrite (transpose_maps (fun x y => of1 (g x y))).
    unfold of2. rewrite !map_map. f_equal. apply map_ext. intros x.
    rewrite map_map. cbn [items of1]. unfold of1. f_equal.
    rewrite <- (map_cons (fun y => g x y)), concat_map, map_map. reflexivity.
Qed.

Lemma cat_rows {grad} {X} (F : X -> list Z) (c : nat) (xss : list (list X)) :
  xss <> [] ->
  torch.cat (map (fun xs => {| shape := [length xs; c];
                               data := of2 (map F xs);
                               requires_grad := false |}) xss) 0 grad =
  Ok {| shape := [length (concat xss); c];
        data := of2 (map F (concat xss)); requires_grad := false |}.
Proof.
  intros Hne. destruct xss as [|xs0 xss]; [contradiction|].
  unfold torch.cat. rewrite tracks_data by reflexivity.
  change (map ?f (xs0 :: xss)) with (f xs0 :: map f xss).
  cbv beta iota. cbn [shape length Nat.ltb Nat.leb].
  match goal with
  | |- context [forallb ?f ?l] => assert (Hall : forallb f l = true)
  end.
  { apply forallb_forall. intros u Hu. apply in_map_iff in Hu as [y [<- Hy]].
    simpl. apply shape_eqb_refl. }
  rewrite Hall. f_equal. f_equal.
  - rewrite <- (map_cons (fun xs => {| shape := [length xs; c];
                                      data := of2 (map F xs);
                                      requires_grad := false |})).
    cbn [set_dim]. f_equal.
    rewrite map_map. cbn [shape nth]. apply sum_nat_list_lengths.
  - rewrite <- (map_cons (fun xs => {| shape := [length xs; c];
                                      data := of2 (map F xs);
                                      requires_grad := false |})).
    cbn [cat_data]. rewrite !map_map. cbn [data items of2].
    unfold of2. f_equal. rewrite !concat_map, !map_map. reflexivity.
Qed.

Lemma slice_map {A B} (f : A -> B) (l : list A) (i j : Z) :
  py.slice (map f l) i j = map f (py.slice l i j).
Proof.
  unfold py.slice, py.len. rewrite length_map, skipn_map, firstn_map. reflexivity.
Qed.

Lemma batches_map {A B} (f : A -> B) (batch_size : Z) (l : list A) :
  batches batch_size (map f l) = map (map f) (batches batch_size l).
Proof.
  unfold batches, py.len. rewrite length_map.
  destruct (py.range 0 _ batch_size) as [starts|e]; [|reflexivity].
  rewrite map_map. apply map_ext. intros i. apply slice_map.
Qed.

Lemma rmap_guard {A B} (c : A -> bool) (f : A -> B) (e : exn) (xs : list A) :
  rmap (fun x => if c x then Raise e else Ok (f x)) xs =
  if existsb c xs then Raise e else Ok (map f xs).
Proof.
  induction xs as [|x xs IH]; simpl; [reflexivity|].
  destruct (c x); simpl; [reflexivity|].
  rewrite IH. destruct (existsb c xs); reflexivity.
Qed.

Lemma rmap_Raise {A B} (e : exn) (xs : list A) :
  xs <> [] -> rmap (fun _ => @Raise B e) xs = Raise e.
Proof. intros H. destruct xs; [contradiction | reflexivity]. Qed.

Lemma map_nonempty {A B} (f : A -> B) (l : list A) : l <> [] -> map f l <> [].
Proof. destruct l; [contradiction | discriminate]. Qed.

(* ===================================================================== *)
(** ** The value of the multi-vector scores *)

Lemma scores_rows_value {grad} d batch_size (P : list (list (list Z)))
    (q_slice : list (list (list Z))) :
  0 < batch_size -> P <> [] -> q_slice <> [] ->
  scores_rows grad batch_size (map (tensor2 d) P) (map (tensor2 d) q_slice) =
  if existsb no_tokens (batches batch_size P)
  then Raise (IndexError "max(): Expected reduction dim to have non-zero size")
  else Ok {| shape := [length q_slice; length P];
             data := of2 (map (score_row d batch_size P) q_slice);
             requires_grad := false |}.
Proof.
  intros Hb HP Hq. rewrite scores_rows_batches by exact Hb.
  rewrite pad_sequence_tensor2 by exact Hq. simpl rbind.
  rewrite batches_map, <- rmap_map.
  rewrite (rmap_ext_in _ (fun ms =>
             if no_tokens ms
             then Raise (IndexError "max(): Expected reduction dim to have non-zero size")
             else Ok {| shape := [length (map (pad_to d (longest q_slice)) q_slice);
                                  length ms];
                        data := of2 (map (fun q =>
                          map (fun p => MaxSim q (pad_to d (longest ms) p)) ms)
                          (map (pad_to d (longest q_slice)) q_slice));
                        requires_grad := false |})).
  2:{ intros ms Hms. rewrite length_map. apply scores_block_value.
      exact (proj1 (List.Forall_forall _ _) (batches_nonempty batch_size P Hb) ms Hms). }
  rewrite rmap_guard.
  destruct (existsb no_tokens (batches batch_size P)) eqn:He; [reflexivity|].
  simpl rbind.
  rewrite (cat_columns
             (fun q ms => map (fun p => MaxSim q (pad_to d (longest ms) p)) ms)
             (fun ms => length ms))
    by (apply batches_nil_iff; assumption).
  rewrite sum_nat_list_lengths, concat_batches by exact Hb.
  rewrite length_map, map_map. f_equal. f_equal. f_equal.
  apply map_ext. intros q. unfold score_row. f_equal.
  apply map_ext. intros ms. apply map_ext. intros p. apply MaxSim_pad_to.
Qed.

(** The scores [get_multi_vector_scores] computes from embeddings of a
    common dimension: an error of the library when a batch of passages has
    no token at all, and otherwise the matrix of [score_row]s. *)
Lemma multi_vector_scores_value {grad} d batch_size (Q P : list (list (list Z))) :
  0 < batch_size -> Q <> [] -> P <> [] ->
  multi_vector_scores grad batch_size (map (tensor2 d) Q) (map (tensor2 d) P) =
  if existsb no_tokens (batches batch_size P)
  then Raise (IndexError "max(): Expected reduction dim to have non-zero size")
  else Ok {| shape := [length Q; length P];
             data := of2 (score_matrix d batch_size Q P);
             requires_grad := false |}.
Proof.
  intros Hb HQ HP.
  rewrite multi_vector_scores_batches by (try exact Hb; apply map_nonempty; assumption).
  rewrite batches_map, <- rmap_map.
  rewrite (rmap_ext_in _ (fun q_slice =>
             if existsb no_tokens (batches batch_size P)
             then Raise (IndexError "max(): Expected reduction dim to have non-zero size")
             else Ok {| shape := [length q_slice; length P];
                        data := of2 (map (score_row d batch_size P) q_slice);
                        requires_grad := false |})).
  2:{ intros q_slice Hin. apply scores_rows_value; try assumption.
      exact (proj1 (List.Forall_forall _ _) (batches_nonempty batch_size Q Hb) q_slice Hin). }
  destruct (existsb no_tokens (batches batch_size P)).
  - rewrite rmap_Raise by (apply batches_nil_iff; assumption). reflexivity.
  - rewrite rmap_Ok. simpl rbind.
    rewrite (cat_rows (score_row d batch_size P) (length P))
      by (apply batches_nil_iff; assumption).
    rewrite concat_batches by exact Hb. reflexivity.
Qed.

(* ===================================================================== *)
(** ** What the methods return *)

Lemma returned_get_single_vector_scores fr :
  returned (get_single_vector_scores fr) = single_vector_scores (grad_enabled fr) (qs fr) (ps fr).
Proof. rewrite get_single_vector_scores_reads. reflexivity. Qed.

Lemma returned_get_multi_vector_scores batch_size fr :
  returned (get_multi_vector_scores batch_size fr) =
  multi_vector_scores (grad_enabled fr) batch_size (qs fr) (ps fr).
Proof. rewrite get_multi_vector_scores_reads. reflexivity. Qed.

Lemma dot_inner_product d u v :
  length u = d -> length v = d -> dot u v = inner_product d u v.
Proof.
  unfold dot, inner_product. revert u v.
  induction d as [|d IH]; intros u v Hu Hv.
  - destruct u; [reflexivity | discriminate].
  - destruct u as [|a u]; [discriminate|]. destruct v as [|b v]; [discriminate|].
    simpl. rewrite <- seq_shift, map_map. simpl.
    rewrite <- IH by (simpl in Hu, Hv; lia). reflexivity.
Qed.

Lemma single_vector_scores_value {grad} d (Q P : list (list Z)) :
  Q <> [] -> P <> [] ->
  Forall (fun v => length v = d) Q -> Forall (fun v => length v = d) P ->
  single_vector_scores grad (map tensor1 Q) (map tensor1 P) =
  Ok {| shape := [length Q; length P];
        data := of2 (map (fun q => map (fun p => dot q p) P) Q);
        requires_grad := false |}.
Proof.
  intros HQ HP HdQ HdP. unfold single_vector_scores.
  rewrite (len_nonzero _ (map_nonempty tensor1 Q HQ)).
  rewrite (len_nonzero _ (map_nonempty tensor1 P HP)).
  rewrite (stack_tensor1 d Q HQ HdQ), (stack_tensor1 d P HP HdP). simpl rbind.
  rewrite einsum_bd_cd_bc_eq. apply einsum_bd_cd_bc_of2.
Qed.

Lemma entry_map2 {X Y} (f : X -> Y -> Z) (xs : list X) (ys : list Y) b c x0 y0 :
  (b < length xs)%nat -> (c < length ys)%nat ->
  entry (map (fun x => map (fun y => f x y) ys) xs) b c = f (nth b xs x0) (nth c ys y0).
Proof.
  intros Hb Hc. unfold entry.
  rewrite (nth_indep _ [] (map (fun y => f x0 y) ys)) by (rewrite length_map; exact Hb).
  rewrite (map_nth (fun x => map (fun y => f x y) ys)).
  rewrite (nth_indep _ 0 (f (nth b xs x0) y0)) by (rewrite length_map; exact Hc).
  rewrite (map_nth (fun y => f (nth b xs x0) y)). reflexivity.
Qed.

(* ===================================================================== *)
(** ** The single-vector scores *)

(** C3.  For non-empty lists of query and passage vectors of one dimension
    [d], [get_single_vector_scores] returns the matrix whose entry
    [(b, c)] is the inner product of query [b] with passage [c]. *)
Theorem get_single_vector_scores_inner_product
    (s : CustomRetrievalEvaluator) (records : list LogRecord)
    (d : nat) (Q P : list (list Z)) :
  Q <> [] -> P <> [] ->
  Forall (fun v => length v = d) Q -> Forall (fun v => length v = d) P ->
  exists m,
    returned (get_single_vector_scores
                (call s (map tensor1 Q) (map tensor1 P) records)) =
    Ok {| shape := [length Q; length P]; data := of2 m;
          requires_grad := false |} /\
    forall b c, (b < length Q)%nat -> (c < length P)%nat ->
      entry m b c = inner_product d (nth b Q []) (nth c P []).
Proof.
  intros HQ HP HdQ HdP.
  exists (map (fun q => map (fun p => dot q p) P) Q). split.
  - rewrite returned_get_single_vector_scores. simpl qs. simpl ps.
    apply (single_vector_scores_value d); assumption.
  - intros b c Hb Hc.
    rewrite (entry_map2 dot Q P b c [] []) by assumption.
    apply dot_inner_product.
    + apply (proj1 (List.Forall_forall _ _) HdQ). apply nth_In. exact Hb.
    + apply (proj1 (List.Forall_forall _ _) HdP). apply nth_In. exact Hc.
Qed.

Lemma get_single_vector_scores_inner_product_witness :
  exists m,
    returned (get_single_vector_scores
                (call (example_evaluator false)
                      (map tensor1 [[1; 2]; [3; 4]])
                      (map tensor1 [[1; 0]; [0; 1]; [1; 1]]) [])) =
    Ok {| shape := [2%nat; 3%nat]; data := of2 m; requires_grad := false |} /\
    forall b c, (b < 2)%nat -> (c < 3)%nat ->
      entry m b c =
      inner_product 2 (nth b [[1; 2]; [3; 4]] []) (nth c [[1; 0]; [0; 1]; [1; 1]] []).
Proof.
  apply (get_single_vector_scores_inner_product (example_evaluator false) [] 2
           [[1; 2]; [3; 4]] [[1; 0]; [0; 1]; [1; 1]]).
  - discriminate.
  - discriminate.
  - repeat constructor.
  - repeat constructor.
Defined.

(* ===================================================================== *)
(** ** The multi-vector scores *)

(** C1.  The multi-vector score against a passage that shares its batch
    with a longer passage: the passage is padded with a zero vector, whose
    similarity 0 is taken for the largest when the similarities of the
    tokens are negative.  The score returned is 0, MaxSim is -1. *)
Theorem get_multi_vector_scores_padded_passage :
  exists m,
    returned (get_multi_vector_scores 128 example_frame) =
    Ok {| shape := [1%nat; 2%nat]; data := of2 m; requires_grad := false |} /\
    entry m 0 0 = 0 /\
    MaxSim example_query example_short_passage = -1 /\
    entry m 0 1 = MaxSim example_query example_long_passage.
Proof.
  exists [[0; -1]]. repeat split; vm_compute; reflexivity.
Qed.

(** C2.  On the same embeddings a batch size of one, which pads no
    passage, and a batch size of two give different scores. *)
Theorem get_multi_vector_scores_batch_size_matters :
  returned (get_multi_vector_scores 1 example_frame) =
    Ok {| shape := [1%nat; 2%nat]; data := of2 [[-1; -1]];
          requires_grad := false |} /\
  returned (get_multi_vector_scores 2 example_frame) =
    Ok {| shape := [1%nat; 2%nat]; data := of2 [[0; -1]];
          requires_grad := false |} /\
  returned (get_multi_vector_scores 1 example_frame) <>
  returned (get_multi_vector_scores 2 example_frame).
Proof.
  repeat split; try (vm_compute; reflexivity).
  vm_compute. discriminate.
Qed.

Lemma in_batches {A} (batch_size : Z) (l : list A) (s : list A) (x : A) :
  0 < batch_size -> In s (batches batch_size l) -> In x s -> In x l.
Proof.
  intros Hb Hs Hx. rewrite <- (concat_batches batch_size l Hb).
  apply in_concat. exists s. split; assumption.
Qed.

Lemma longest_ge (ms : list (list (list Z))) (p : list (list Z)) :
  In p ms -> (length p <= longest ms)%nat.
Proof.
  unfold longest. induction ms as [|m ms IH]; simpl; [contradiction|].
  intros [->|H]; [lia|]. specialize (IH H). lia.
Qed.

Lemma longest_le (ms : list (list (list Z))) (n : nat) :
  Forall (fun p => (length p <= n)%nat) ms -> (longest ms <= n)%nat.
Proof.
  unfold longest. induction 1 as [|m ms Hm _ IH]; simpl; lia.
Qed.

(** Passages that all have a token leave no batch without tokens. *)
Lemma batches_have_tokens batch_size (P : list (list (list Z))) :
  0 < batch_size -> Forall (fun p => p <> []) P ->
  existsb no_tokens (batches batch_size P) = false.
Proof.
  intros Hb HP. apply not_true_is_false. intros H.
  apply existsb_exists in H as (ms & Hms & Hno).
  pose proof (proj1 (List.Forall_forall _ _) (batches_nonempty batch_size P Hb) ms Hms) as Hne.
  destruct ms as [|p ms]; [contradiction|].
  assert (Hp : In p P) by (apply (in_batches batch_size P (p :: ms)); simpl; auto).
  pose proof (proj1 (List.Forall_forall _ _) HP p Hp) as Hpne.
  pose proof (longest_ge (p :: ms) p (or_introl eq_refl)) as Hle.
  unfold no_tokens in Hno. apply Nat.eqb_eq in Hno.
  destruct p; [contradiction | simpl in Hle; lia].
Qed.

Lemma length_concat_maps {A B} (g : list A -> A -> B) (xss : list (list A)) :
  length (concat (map (fun xs => map (g xs) xs) xss)) = length (concat xss).
Proof.
  induction xss as [|xs xss IH]; simpl; [reflexivity|].
  rewrite !length_app, length_map, IH. reflexivity.
Qed.

Lemma length_score_row d batch_size P q :
  0 < batch_size -> length (score_row d batch_size P q) = length P.
Proof.
  intros Hb. unfold score_row.
  rewrite (length_concat_maps (fun ms p => MaxSim q (pad_to d (longest ms) p))).
  rewrite concat_batches by exact Hb. reflexivity.
Qed.

(** Passages of one length are not padded, and the scores are MaxSim. *)
Lemma score_row_equal_lengths d batch_size P q n :
  0 < batch_size -> Forall (fun p => length p = n) P ->
  score_row d batch_size P q = map (MaxSim q) P.
Proof.
  intros Hb HP. unfold score_row.
  rewrite <- (concat_batches batch_size P Hb) at 2. rewrite concat_map.
  f_equal. apply map_ext_in. intros ms Hms. apply map_ext_in. intros p Hp.
  f_equal. unfold pad_to, append_zeros.
  assert (Hle : (longest ms <= length p)%nat).
  { apply longest_le. apply List.Forall_forall. intros p' Hp'.
    rewrite (proj1 (List.Forall_forall _ _) HP p'), (proj1 (List.Forall_forall _ _) HP p);
      [lia | |]; apply (in_batches batch_size P ms); assumption. }
  replace (longest ms - length p)%nat with 0%nat by lia. apply app_nil_r.
Qed.

Lemma get_multi_vector_scores_equal_lengths
    (s : CustomRetrievalEvaluator) (records : list LogRecord)
    (d n : nat) (batch_size : Z) (Q P : list (list (list Z))) :
  0 < batch_size -> Q <> [] -> P <> [] -> (0 < n)%nat ->
  Forall (fun p => length p = n) P ->
  returned (get_multi_vector_scores batch_size
              (call s (map (tensor2 d) Q) (map (tensor2 d) P) records)) =
  Ok {| shape := [length Q; length P];
        data := of2 (map (fun q => map (fun p => MaxSim q p) P) Q);
        requires_grad := false |}.
Proof.
  intros Hb HQ HP Hn Hlen.
  rewrite returned_get_multi_vector_scores. simpl qs. simpl ps.
  rewrite multi_vector_scores_value by assumption.
  rewrite batches_have_tokens; [|exact Hb|].
  - unfold score_matrix. f_equal. f_equal. f_equal. apply map_ext. intros q.
    apply (score_row_equal_lengths d batch_size P q n); assumption.
  - eapply List.Forall_impl; [|exact Hlen]. intros p Hp E. subst p. simpl in Hp. lia.
Qed.

(** C4.  For non-empty lists of embeddings of one dimension, passages with
    at least one token each and a positive batch size, both scoring
    routines return a matrix with one row per query and one column per
    passage.  And on any lists and with any batch size, a score matrix
    that is returned has the shape [(len(qs), len(ps))]. *)
Theorem scoring_returns_queries_by_passages
    (s : CustomRetrievalEvaluator) (records : list LogRecord) (d : nat)
    (Q1 P1 : list (list Z)) (Q2 P2 : list (list (list Z))) (batch_size : Z) :
  Q1 <> [] -> P1 <> [] ->
  Forall (fun v => length v = d) Q1 -> Forall (fun v => length v = d) P1 ->
  Q2 <> [] -> P2 <> [] -> Forall (fun p => p <> []) P2 -> 0 < batch_size ->
  (exists m,
     returned (get_single_vector_scores
                 (call s (map tensor1 Q1) (map tensor1 P1) records)) =
     Ok {| shape := [length Q1; length P1]; data := of2 m;
           requires_grad := false |} /\
     length m = length Q1 /\ Forall (fun row => length row = length P1) m) /\
  (exists m,
     returned (get_multi_vector_scores batch_size
                 (call s (map (tensor2 d) Q2) (map (tensor2 d) P2) records)) =
     Ok {| shape := [length Q2; length P2]; data := of2 m;
           requires_grad := false |} /\
     length m = length Q2 /\ Forall (fun row => length row = length P2) m) /\
  (forall fr T,
     returned (get_single_vector_scores fr) = Ok T ->
     shape T = [length (qs fr); length (ps fr)]) /\
  (forall fr b T,
     returned (get_multi_vector_scores b fr) = Ok T ->
     shape T = [length (qs fr); length (ps fr)]).
Proof.
  intros HQ1 HP1 Hd1 Hd1' HQ2 HP2 Htok Hb. split; [|split; [|split]].
  - exists (map (fun q => map (fun p => dot q p) P1) Q1). split; [|split].
    + rewrite returned_get_single_vector_scores. simpl qs. simpl ps.
      apply (single_vector_scores_value d); assumption.
    + apply length_map.
    + apply List.Forall_forall. intros row Hrow.
      apply in_map_iff in Hrow as [q [<- _]]. apply length_map.
  - exists (score_matrix d batch_size Q2 P2). split; [|split].
    + rewrite returned_get_multi_vector_scores. simpl qs. simpl ps.
      rewrite multi_vector_scores_value by assumption.
      rewrite batches_have_tokens by assumption. reflexivity.
    + apply length_map.
    + apply List.Forall_forall. intros row Hrow.
      apply in_map_iff in Hrow as [q [<- _]]. apply length_score_row. exact Hb.
  - intros fr T. rewrite returned_get_single_vector_scores.
    apply single_vector_scores_shape.
  - intros fr b T. rewrite returned_get_multi_vector_scores.
    apply multi_vector_scores_shape.
Qed.

Lemma scoring_returns_queries_by_passages_witness :
  (exists m,
     returned (get_single_vector_scores
                 (call (example_evaluator false)
                       (map tensor1 [[1; 2]; [3; 4]])
                       (map tensor1 [[1; 0]; [0; 1]; [1; 1]]) [])) =
     Ok {| shape := [2%nat; 3%nat]; data := of2 m; requires_grad := false |} /\
     length m = 2%nat /\ Forall (fun row => length row = 3%nat) m) /\
  (exists m,
     returned (get_multi_vector_scores 2
                 (call (example_evaluator false)
                       (map (tensor2 2) [[[1; 2]; [3; 4]]; [[1; 1]]; []])
                       (map (tensor2 2) [[[1; 0]]; [[0; 1]; [1; 1]]; [[0; -1]]]) [])) =
     Ok {| shape := [3%nat; 3%nat]; data := of2 m; requires_grad := false |} /\
     length m = 3%nat /\ Forall (fun row => length row = 3%nat) m) /\
  shape {| shape := [1%nat; 1%nat]; data := of2 [[5]];
           requires_grad := false |} = [1%nat; 1%nat] /\
  shape {| shape := [1%nat; 2%nat]; data := of2 [[0; -1]];
           requires_grad := false |} = [1%nat; 2%nat].
Proof.
  destruct (scoring_returns_queries_by_passages (example_evaluator false) [] 2
              [[1; 2]; [3; 4]] [[1; 0]; [0; 1]; [1; 1]]
              [[[1; 2]; [3; 4]]; [[1; 1]]; []]
              [[[1; 0]]; [[0; 1]; [1; 1]]; [[0; -1]]] 2)
    as (H1 & H2 & H3 & H4).
  - discriminate.
  - discriminate.
  - repeat constructor.
  - repeat constructor.
  - discriminate.
  - discriminate.
  - repeat constructor; discriminate.
  - lia.
  - split; [exact H1|]. split; [exact H2|]. split.
    + apply (H3 (call (example_evaluator false) [tensor1 [1; 2]] [tensor1 [3; 1]] [])).
      reflexivity.
    + apply (H4 example_frame 128). reflexivity.
Defined.

(* ===================================================================== *)
(** ** Exceptions of the scoring routines *)

Lemma library_not_value_error {A} (r : result A) :
  library_result r -> is_value_error r = false.
Proof. destruct r as [a|[]]; simpl; intros H; try reflexivity; discriminate. Qed.

Lemma library_not_assertion_error {A} (r : result A) :
  library_result r -> is_assertion_error r = false.
Proof. destruct r as [a|[]]; simpl; intros H; try reflexivity; discriminate. Qed.

Lemma single_vector_scores_value_error grad Q P :
  is_value_error (single_vector_scores grad Q P) = true <-> Q = [] \/ P = [].
Proof.
  destruct Q as [|q Q]; [split; [left|]; reflexivity|].
  destruct P as [|p P]; [split; [right|]; reflexivity|].
  rewrite library_not_value_error
    by (apply single_vector_scores_library; discriminate).
  split; [discriminate | intros [H|H]; discriminate].
Qed.

Lemma multi_vector_scores_value_error grad batch_size Q P :
  is_value_error (multi_vector_scores grad batch_size Q P) = true <->
  Q = [] \/ P = [] \/ batch_size = 0.
Proof.
  destruct Q as [|q Q]; [split; [left|]; reflexivity|].
  destruct P as [|p P]; [split; [right; left|]; reflexivity|].
  destruct (Z.eq_dec batch_size 0) as [->|Hb].
  - rewrite multi_vector_scores_zero by discriminate.
    split; [intros _; right; right|]; reflexivity.
  - rewrite library_not_value_error
      by (apply multi_vector_scores_library; try discriminate; exact Hb).
    split; [discriminate | intros [H|[H|H]]; try discriminate; contradiction].
Qed.

(** C5.  [get_single_vector_scores] raises a [ValueError] exactly when one
    of the two lists is empty.  [get_multi_vector_scores] raises a
    [ValueError] exactly when one of the two lists is empty or the batch
    size is zero, which [range] refuses. *)
Theorem scores_value_error_iff (fr : Frame) (batch_size : Z) :
  (is_value_error (returned (get_single_vector_scores fr)) = true <->
   qs fr = [] \/ ps fr = []) /\
  (is_value_error (returned (get_multi_vector_scores batch_size fr)) = true <->
   qs fr = [] \/ ps fr = [] \/ batch_size = 0).
Proof.
  rewrite returned_get_single_vector_scores, returned_get_multi_vector_scores.
  split; [apply single_vector_scores_value_error
         | apply multi_vector_scores_value_error].
Qed.

(** With a batch size of zero [get_multi_vector_scores] raises a
    [ValueError] although neither list is empty. *)
Lemma get_multi_vector_scores_zero_batch_size :
  ~ (is_value_error (returned (get_multi_vector_scores 0 example_frame)) = true <->
     qs example_frame = [] \/ ps example_frame = []).
Proof.
  intros [H _]. destruct (H eq_refl) as [E|E]; discriminate E.
Qed.

(** C9.  The assertion of [evaluate] never fails: a score matrix returned
    by the scoring routine that [evaluate] selects has first dimension
    [len(qs)], and, whatever the evaluator and the two lists, [evaluate]
    does not end in an [AssertionError]. *)
Theorem evaluate_assertion_holds (fr : Frame) :
  (forall T,
     returned ((if is_multi_vector (self fr) then get_multi_vector_scores 128
                else get_single_vector_scores) fr) = Ok T ->
     py.index (shape T) 0 = Ok (length (qs fr))) /\
  is_assertion_error (returned (evaluate fr)) = false.
Proof.
  split.
  { intros T. destruct (is_multi_vector (self fr)).
    - rewrite returned_get_multi_vector_scores. intros H.
      apply multi_vector_scores_shape in H. rewrite H. reflexivity.
    - rewrite returned_get_single_vector_scores. intros H.
      apply single_vector_scores_shape in H. rewrite H. reflexivity. }
  unfold evaluate. unfold bind at 1. unfold gets at 1. unfold bind at 1.
  assert (Hsel : exists r,
    (if is_multi_vector (self fr) then get_multi_vector_scores 128
     else get_single_vector_scores) fr = (fr, r) /\
    is_assertion_error r = false /\
    forall T, r = Ok T -> shape T = [length (qs fr); length (ps fr)]).
  { destruct (is_multi_vector (self fr)).
    - exists (multi_vector_scores (grad_enabled fr) 128 (qs fr) (ps fr)). split; [|split].
      + apply get_multi_vector_scores_reads.
      + destruct (qs fr) as [|q Q] eqn:EQ; [reflexivity|].
        destruct (ps fr) as [|p P] eqn:EP; [reflexivity|].
        apply library_not_assertion_error.
        apply multi_vector_scores_library; discriminate.
      + intros T. apply multi_vector_scores_shape.
    - exists (single_vector_scores (grad_enabled fr) (qs fr) (ps fr)). split; [|split].
      + apply get_single_vector_scores_reads.
      + destruct (qs fr) as [|q Q] eqn:EQ; [reflexivity|].
        destruct (ps fr) as [|p P] eqn:EP; [reflexivity|].
        apply library_not_assertion_error.
        apply single_vector_scores_library; discriminate.
      + intros T. apply single_vector_scores_shape. }
  destruct Hsel as (r & -> & Hr & Hshape).
  destruct r as [T|e]; [|exact Hr].
  rewrite (Hshape T eq_refl).
  unfold bind, lift, gets, raise, ret, logger_info, py.index, py.len, returned.
  cbn -[torch.argmax torch.count_eq torch.arange py.truediv Z.of_nat Z.eqb].
  rewrite Z.eqb_refl.
  cbn -[torch.argmax torch.count_eq torch.arange py.truediv Z.of_nat Z.eqb].
  pose proof (argmax_library T 1) as Harg.
  destruct (torch.argmax T 1) as [arg_score|e];
    [|apply library_not_assertion_error; exact Harg].
  pose proof (count_eq_library arg_score (torch.arange (length (qs fr)))) as Hcnt.
  destruct (torch.count_eq _ _) as [correct|e];
    [|apply library_not_assertion_error; exact Hcnt].
  unfold py.truediv, torch.numpy, torch.cpu, torch.to_float32.
  destruct (Z.of_nat (length (qs fr)) =? 0); [reflexivity|].
  destruct (requires_grad T); reflexivity.
Qed.

Lemma evaluate_assertion_holds_witness :
  py.index (shape {| shape := [1%nat; 2%nat]; data := of2 [[0; -1]];
                     requires_grad := false |}) 0 =
    Ok (length (qs example_frame)) /\
  is_assertion_error (returned (evaluate example_frame)) = false.
Proof.
  destruct (evaluate_assertion_holds example_frame) as [H1 H2].
  split; [apply H1; reflexivity | exact H2].
Defined.

(* ===================================================================== *)
(** ** What a call leaves behind *)

Lemma same_objects_refl fr : same_objects fr fr.
Proof. repeat split. Qed.

Lemma same_objects_trans fr1 fr2 fr3 :
  same_objects fr1 fr2 -> same_objects fr2 fr3 -> same_objects fr1 fr3.
Proof. unfold same_objects. intros (?&?&?) (?&?&?). repeat split; congruence. Qed.

Lemma preserves_ret {A} (a : A) : preserves (ret a).
Proof. intros fr. apply same_objects_refl. Qed.

Lemma preserves_raise {A} (e : exn) : preserves (@raise A e).
Proof. intros fr. apply same_objects_refl. Qed.

Lemma preserves_lift {A} (r : result A) : preserves (lift r).
Proof. intros fr. apply same_objects_refl. Qed.

Lemma preserves_gets {A} (field : Frame -> A) : preserves (gets field).
Proof. intros fr. apply same_objects_refl. Qed.

Lemma preserves_logger_info r : preserves (logger_info r).
Proof. intros fr. repeat split. Qed.

Lemma preserves_reads {A} (m : M A) f : reads m f -> preserves m.
Proof. intros H fr. rewrite H. apply same_objects_refl. Qed.

Lemma preserves_bind {A B} (m : M A) (k : A -> M B) :
  preserves m -> (forall a, preserves (k a)) -> preserves (bind m k).
Proof.
  intros Hm Hk fr. unfold bind. specialize (Hm fr).
  destruct (m fr) as [fr' [a|e]]; simpl in *; [|exact Hm].
  eapply same_objects_trans; [exact Hm | apply Hk].
Qed.

Lemma preserves_if {A} (c : bool) (m1 m2 : M A) :
  preserves m1 -> preserves m2 -> preserves (if c then m1 else m2).
Proof. destruct c; auto. Qed.

Lemma get_single_vector_scores_preserves : preserves get_single_vector_scores.
Proof. exact (preserves_reads _ _ get_single_vector_scores_reads). Qed.

Lemma get_multi_vector_scores_preserves batch_size :
  preserves (get_multi_vector_scores batch_size).
Proof. exact (preserves_reads _ _ (get_multi_vector_scores_reads batch_size)). Qed.

Create HintDb frame.

#[local] Hint Resolve preserves_ret preserves_raise preserves_lift preserves_gets
  preserves_logger_info preserves_if preserves_bind
  get_single_vector_scores_preserves get_multi_vector_scores_preserves : frame.

Lemma evaluate_preserves : preserves evaluate.
Proof. unfold evaluate. auto 40 with frame. Qed.

(** C7.  The scoring routines leave the whole frame as they found it, and
    [evaluate] leaves the evaluator with all its fields and the two
    argument lists as it found them: the scores are the returned value
    only. *)
Theorem scoring_leaves_objects (fr : Frame) (batch_size : Z) :
  fst (get_single_vector_scores fr) = fr /\
  fst (get_multi_vector_scores batch_size fr) = fr /\
  self (fst (evaluate fr)) = self fr /\
  qs (fst (evaluate fr)) = qs fr /\
  ps (fst (evaluate fr)) = ps fr.
Proof.
  split; [rewrite get_single_vector_scores_reads; reflexivity|].
  split; [rewrite get_multi_vector_scores_reads; reflexivity|].
  exact (evaluate_preserves fr).
Qed.

(* ===================================================================== *)
(** ** Zero vectors among the query tokens *)

Lemma score_row_append_zeros d k batch_size P q :
  score_row d batch_size P (append_zeros d k q) = score_row d batch_size P q.
Proof.
  unfold score_row. f_equal. apply map_ext. intros ms.
  apply map_ext. intros p. apply MaxSim_append_zeros.
Qed.

Lemma score_matrix_append_zeros d batch_size P (ks : nat -> nat) Q :
  score_matrix d batch_size (imap (fun i q => append_zeros d (ks i) q) Q) P =
  score_matrix d batch_size Q P.
Proof.
  unfold score_matrix. revert ks.
  induction Q as [|q Q IH]; intros ks; [reflexivity|].
  simpl. rewrite score_row_append_zeros. f_equal. apply (IH (fun i => ks (S i))).
Qed.

(** C10.  Zero vectors appended to the token sequences of the queries, any
    number [ks i] of them to query [i], change nothing of what
    [get_multi_vector_scores] returns. *)
Theorem get_multi_vector_scores_zero_padded_queries
    (s : CustomRetrievalEvaluator) (records : list LogRecord) (d : nat)
    (Q P : list (list (list Z))) (batch_size : Z) (ks : nat -> nat) :
  returned (get_multi_vector_scores batch_size
              (call s (map (tensor2 d) (imap (fun i q => append_zeros d (ks i) q) Q))
                      (map (tensor2 d) P) records)) =
  returned (get_multi_vector_scores batch_size
              (call s (map (tensor2 d) Q) (map (tensor2 d) P) records)).
Proof.
  rewrite !returned_get_multi_vector_scores. simpl qs. simpl ps.
  destruct Q as [|q Q]; [reflexivity|].
  destruct P as [|p P]; [reflexivity|].
  set (Q' := imap (fun i q0 => append_zeros d (ks i) q0) (q :: Q)).
  assert (HQ' : Q' <> []) by discriminate.
  assert (Hlen : length Q' = length (q :: Q)) by apply length_imap.
  destruct (Z.lt_trichotomy batch_size 0) as [Hb|[->|Hb]].
  - rewrite !multi_vector_scores_neg
      by (try exact Hb; apply map_nonempty; assumption || discriminate).
    reflexivity.
  - rewrite !multi_vector_scores_zero
      by (apply map_nonempty; assumption || discriminate).
    reflexivity.
  - rewrite !multi_vector_scores_value by (try assumption; discriminate).
    unfold Q' at 2. rewrite score_matrix_append_zeros, Hlen. reflexivity.
Qed.

(** The scores of the example under a batch size of two, and with three
    zero vectors appended to the query. *)
Example get_multi_vector_scores_zero_padded_example :
  returned (get_multi_vector_scores 2
              (call (example_evaluator true)
                    [tensor2 1 (append_zeros 1 3 example_query)]
                    [tensor2 1 example_short_passage; tensor2 1 example_long_passage]
                    [])) =
  Ok {| shape := [1%nat; 2%nat]; data := of2 [[0; -1]];
        requires_grad := false |}.
Proof. vm_compute. reflexivity. Qed.

(* ===================================================================== *)
(** ** The renaming pass of [compute_metrics] *)

Lemma split_no_at s : has_at s = false -> py.split "@" s = [s].
Proof.
  induction s as [|c s IH]; simpl; [reflexivity|].
  intros H. apply orb_false_iff in H as [Hc Hs].
  rewrite Hc, (IH Hs). reflexivity.
Qed.

Lemma split_metric_key name k :
  has_at name = false -> has_at k = false ->
  py.split "@" (metric_key name k) = [name; k].
Proof.
  intros Hn Hk. unfold metric_key.
  induction name as [|c name IH]; simpl.
  - change (String.append "" k) with k. rewrite (split_no_at k Hk). reflexivity.
  - simpl in Hn. apply orb_false_iff in Hn as [Hc Hn].
    rewrite Hc, (IH Hn). reflexivity.
Qed.

Lemma append_cancel_l (p a b : string) : (p ++ a = p ++ b)%string -> a = b.
Proof.
  induction p as [|c p IH]; simpl; intros H; [exact H|].
  inversion H. apply IH. assumption.
Qed.

Section Renaming.

Context {V : Type}.
Implicit Types entries : list (string * string * V).

Lemma at_key_metric_key prefix name k :
  has_at name = false -> has_at k = false ->
  at_key prefix (metric_key name k) = Ok (prefix ++ k)%string.
Proof.
  intros Hn Hk. unfold at_key. rewrite split_metric_key by assumption. reflexivity.
Qed.

Lemma dict_comp_comprehension prefix entries (acc : gmap string V) :
  well_keyed entries ->
  dict_comp prefix (metric_items entries) acc = Ok (comprehension prefix entries acc).
Proof.
  intros H. revert acc. induction H as [|[[name k] v] entries [Hn Hk] _ IH];
    intros acc; [reflexivity|].
  simpl in *. rewrite at_key_metric_key by assumption. simpl. apply IH.
Qed.

Lemma comprehension_lookup_other prefix entries (acc : gmap string V) key :
  (forall e, In e entries -> key <> (prefix ++ snd (fst e))%string) ->
  comprehension prefix entries acc !! key = acc !! key.
Proof.
  revert acc. induction entries as [|e entries IH]; intros acc H; [reflexivity|].
  change (comprehension prefix (e :: entries) acc)
    with (comprehension prefix entries (<[(prefix ++ snd (fst e))%string := snd e]> acc)).
  rewrite IH.
  - apply lookup_insert_ne. intros E. apply (H e); [left; reflexivity | auto].
  - intros e' He'. apply H. right. exact He'.
Qed.

Lemma comprehension_lookup prefix entries (acc : gmap string V) key v :
  distinct_cutoffs entries ->
  comprehension prefix entries acc !! key = Some v <->
  renamed prefix entries key v \/
  ((forall e, In e entries -> key <> (prefix ++ snd (fst e))%string) /\
   acc !! key = Some v).
Proof.
  unfold distinct_cutoffs. revert acc.
  induction entries as [|[[name k] w] entries IH]; intros acc Hnd.
  - simpl. split.
    + intros H. right. split; [intros e []|exact H].
    + intros [(n & k & [] & _)|[_ H]]. exact H.
  - simpl in Hnd. apply List.NoDup_cons_iff in Hnd as [Hk Hnd].
    change (comprehension prefix ((name, k, w) :: entries) acc)
      with (comprehension prefix entries (<[(prefix ++ k)%string := w]> acc)).
    rewrite (IH _ Hnd). split.
    + intros [(n & k' & Hin & ->)|[Hne Hacc]].
      * left. exists n, k'. split; [right; exact Hin | reflexivity].
      * destruct (decide (key = (prefix ++ k)%string)) as [->|Hkey].
        -- rewrite lookup_insert_eq in Hacc. inversion Hacc; subst.
           left. exists name, k. split; [left; reflexivity | reflexivity].
        -- rewrite lookup_insert_ne in Hacc by auto.
           right. split; [|exact Hacc].
           intros e [<-|He]; [exact Hkey | apply Hne; exact He].
    + intros [(n & k' & [Heq|Hin] & ->)|[Hne Hacc]].
      * inversion Heq; subst. right. split.
        -- intros e He E. apply append_cancel_l in E. apply Hk.
           rewrite E. apply in_map_iff. exists e. split; [reflexivity | exact He].
        -- apply lookup_insert_eq.
      * left. exists n, k'. split; [exact Hin | reflexivity].
      * right. split.
        -- intros e He. apply Hne. right. exact He.
        -- rewrite lookup_insert_ne; [exact Hacc|].
           intros E. apply (Hne (name, k, w)); [left; reflexivity | auto].
Qed.

Lemma comprehension_empty_lookup prefix entries key (v : V) :
  distinct_cutoffs entries ->
  comprehension prefix entries ∅ !! key = Some v <-> renamed prefix entries key v.
Proof.
  intros H. rewrite (comprehension_lookup prefix entries ∅ key v H).
  rewrite lookup_empty. split; [intros [?|[_ ?]]; [assumption | discriminate] | auto].
Qed.

(** A key of a comprehension starts with its prefix. *)
Lemma comprehension_empty_None prefix entries key :
  (forall k, key <> (prefix ++ k)%string) ->
  comprehension prefix entries (∅ : gmap string V) !! key = None.
Proof.
  intros H. rewrite comprehension_lookup_other; [apply lookup_empty|].
  intros e _. apply H.
Qed.

Lemma unpack_into_lookup (scores d : gmap string V) key v :
  unpack_into scores d !! key = Some v <->
  d !! key = Some v \/ (d !! key = None /\ scores !! key = Some v).
Proof. unfold unpack_into. apply lookup_union_Some_raw. Qed.

End Renaming.

Ltac other_prefix :=
  let k := fresh "k" in let E := fresh "E" in
  intros k E;
  repeat match goal with
         | H : renamed _ _ _ _ |- _ => destruct H as (? & ? & _ & ->)
         end;
  discriminate E.

(** When every key has the form [<name>@<k>] and no two entries of
    one dictionary have the same [<k>], [compute_metrics] returns the
    dictionary that holds, for every entry of the six dictionaries, the
    key [<prefix>_at_<k>] with the value of the entry, and nothing else.
    Keys like [NDCG@1], [NDCG@3] are of this kind; the keys of the nAUC
    dictionary, which name the metric before the [@], are not. *)
Lemma compute_metrics_renames {V : Type}
    (ev : RetrievalEvaluator -> Qrels -> Run -> list Z -> PyVal ->
          result (items_of * items_of * items_of * items_of * items_of))
    (evc : RetrievalEvaluator -> Qrels -> Run -> list Z -> string ->
           result (list items_of))
    (fr : Frame) (relevant_docs : Qrels) (results : Run) (kwargs : gmap string PyVal)
    (ndcg _map recall precision mrr naucs : list (string * string * V))
    (rest : list items_of) :
  ev (mteb_evaluator (self fr)) relevant_docs results
     (k_values (mteb_evaluator (self fr)))
     (default (PyBool true) (kwargs !! "ignore_identical_ids")) =
    Ok (metric_items ndcg, metric_items _map, metric_items recall,
        metric_items precision, metric_items naucs) ->
  evc (mteb_evaluator (self fr)) relevant_docs results
      (k_values (mteb_evaluator (self fr))) "mrr" =
    Ok (metric_items mrr :: rest) ->
  well_keyed ndcg /\ distinct_cutoffs ndcg ->
  well_keyed _map /\ distinct_cutoffs _map ->
  well_keyed recall /\ distinct_cutoffs recall ->
  well_keyed precision /\ distinct_cutoffs precision ->
  well_keyed mrr /\ distinct_cutoffs mrr ->
  well_keyed naucs /\ distinct_cutoffs naucs ->
  exists scores,
    returned (compute_metrics ev evc relevant_docs results kwargs fr) = Ok scores /\
    renames_exactly scores ndcg _map recall precision mrr naucs.
Proof.
  intros Hev Hevc [W1 D1] [W2 D2] [W3 D3] [W4 D4] [W5 D5] [W6 D6].
  unfold compute_metrics, bind, gets, lift, ret, returned.
  rewrite Hev, Hevc.
  rewrite !dict_comp_comprehension by assumption. simpl.
  rewrite !dict_comp_comprehension by assumption. simpl.
  eexists. split; [reflexivity|].
  intros key v.
  pose proof (comprehension_empty_lookup "ndcg_at_" ndcg key v D1) as H1.
  pose proof (comprehension_empty_lookup "map_at_" _map key v D2) as H2.
  pose proof (comprehension_empty_lookup "recall_at_" recall key v D3) as H3.
  pose proof (comprehension_empty_lookup "precision_at_" precision key v D4) as H4.
  pose proof (comprehension_empty_lookup "mrr_at_" mrr key v D5) as H5.
  pose proof (comprehension_empty_lookup "naucs_at_" naucs key v D6) as H6.
  rewrite !unpack_into_lookup, lookup_empty. split.
  - intros [H|[_ [H|[_ [H|[_ [H|[_ [H|[_ [H|[_ H]]]]]]]]]]]];
      [ apply H6 in H | apply H5 in H | apply H4 in H | apply H3 in H
      | apply H2 in H | apply H1 in H | discriminate H ]; tauto.
  - intros [R|[R|[R|[R|[R|R]]]]].
    + right; split; [apply comprehension_empty_None; other_prefix|].
      right; split; [apply comprehension_empty_None; other_prefix|].
      right; split; [apply comprehension_empty_None; other_prefix|].
      right; split; [apply comprehension_empty_None; other_prefix|].
      right; split; [apply comprehension_empty_None; other_prefix|].
      left. apply H1. exact R.
    + right; split; [apply comprehension_empty_None; other_prefix|].
      right; split; [apply comprehension_empty_None; other_prefix|].
      right; split; [apply comprehension_empty_None; other_prefix|].
      right; split; [apply comprehension_empty_None; other_prefix|].
      left. apply H2. exact R.
    + right; split; [apply comprehension_empty_None; other_prefix|].
      right; split; [apply comprehension_empty_None; other_prefix|].
      right; split; [apply comprehension_empty_None; other_prefix|].
      left. apply H3. exact R.
    + right; split; [apply comprehension_empty_None; other_prefix|].
      right; split; [apply comprehension_empty_None; other_prefix|].
      left. apply H4. exact R.
    + right; split; [apply comprehension_empty_None; other_prefix|].
      left. apply H5. exact R.
    + left. apply H6. exact R.
Qed.

Ltac distinct_strings :=
  repeat (apply List.NoDup_cons;
          [simpl; intros H;
           repeat (destruct H as [H|H]; [discriminate H|]); exact H|]);
  apply List.NoDup_nil.

Lemma compute_metrics_renames_witness :
  exists scores,
    returned (compute_metrics
                (fixed_evaluate (metric_items example_ndcg) [] [] []
                                (metric_items [("nAUC_NDCG", "1_max", 3)]))
                (fixed_evaluate_custom (metric_items [("MRR", "1", 2)]))
                ∅ ∅ ∅ example_frame) = Ok scores /\
    renames_exactly scores example_ndcg [] [] [] [("MRR", "1", 2)]
                    [("nAUC_NDCG", "1_max", 3)].
Proof.
  apply (compute_metrics_renames
           (fixed_evaluate (metric_items example_ndcg) [] [] []
                           (metric_items [("nAUC_NDCG", "1_max", 3)]))
           (fixed_evaluate_custom (metric_items [("MRR", "1", 2)]))
           example_frame ∅ ∅ ∅
           example_ndcg [] [] [] [("MRR", "1", 2)] [("nAUC_NDCG", "1_max", 3)]
           [[]]).
  - reflexivity.
  - reflexivity.
  - split; [repeat constructor | distinct_strings].
  - split; [repeat constructor | distinct_strings].
  - split; [repeat constructor | distinct_strings].
  - split; [repeat constructor | distinct_strings].
  - split; [repeat constructor | distinct_strings].
  - split; [repeat constructor | distinct_strings].
Defined.

(** C6.  On the nAUC dictionary of the metrics library for one cut-off,
    twelve keys with twelve values, [compute_metrics] returns three
    entries: the keys [nAUC_NDCG@1_max], [nAUC_MAP@1_max],
    [nAUC_Recall@1_max] and [nAUC_P@1_max] are all renamed to
    [naucs_at_1_max], which keeps the value of the last of them, and so for
    [std] and [diff1].  Nine values are lost, and the returned dictionary
    is not the renaming of the entries. *)
Theorem compute_metrics_nauc_keys_collide :
  exists scores,
    returned (compute_metrics
                (fixed_evaluate [] [] [] [] (metric_items library_naucs))
                (fixed_evaluate_custom [])
                ∅ ∅ ∅ example_frame) = Ok scores /\
    map fst (metric_items library_naucs) =
      ["nAUC_NDCG@1_max"; "nAUC_NDCG@1_std"; "nAUC_NDCG@1_diff1";
       "nAUC_MAP@1_max"; "nAUC_MAP@1_std"; "nAUC_MAP@1_diff1";
       "nAUC_Recall@1_max"; "nAUC_Recall@1_std"; "nAUC_Recall@1_diff1";
       "nAUC_P@1_max"; "nAUC_P@1_std"; "nAUC_P@1_diff1"] /\
    size scores = 3%nat /\
    scores !! "naucs_at_1_max" = Some 10 /\
    scores !! "naucs_at_1_std" = Some 11 /\
    scores !! "naucs_at_1_diff1" = Some 12 /\
    renamed "naucs_at_" library_naucs "naucs_at_1_max" 1 /\
    ~ renames_exactly scores [] [] [] [] [] library_naucs.
Proof.
  eexists. split; [reflexivity|].
  split; [reflexivity|].
  split; [vm_compute; reflexivity|].
  split; [vm_compute; reflexivity|].
  split; [vm_compute; reflexivity|].
  split; [vm_compute; reflexivity|].
  assert (Hren : renamed "naucs_at_" library_naucs "naucs_at_1_max" 1).
  { exists "nAUC_NDCG", "1_max". split; [left; reflexivity | reflexivity]. }
  split; [exact Hren|].
  intros H. specialize (H "naucs_at_1_max" 1). destruct H as [_ H].
  assert (E : forall (m : gmap string Z),
            m !! "naucs_at_1_max" = Some 10 -> m !! "naucs_at_1_max" = Some 1 -> False)
    by (intros m E1 E2; rewrite E1 in E2; discriminate E2).
  eapply E; [|apply H; do 5 right; exact Hren].
  vm_compute. reflexivity.
Qed.


(* ===================================================================== *)
(** ** What [evaluate] returns and logs *)

Lemma selected_routine_reads fr :
  selected_routine (self fr) fr = (fr, selected_scores fr).
Proof.
  unfold selected_routine, selected_scores. destruct (is_multi_vector (self fr)).
  - apply get_multi_vector_scores_reads.
  - apply get_single_vector_scores_reads.
Qed.

Lemma single_vector_scores_Ok_nonempty {grad} Q P T :
  single_vector_scores grad Q P = Ok T -> Q <> [] /\ P <> [].
Proof.
  destruct Q; [discriminate|]. destruct P; [discriminate|].
  intros _. split; discriminate.
Qed.

Lemma multi_vector_scores_Ok_nonempty {grad} batch_size Q P T :
  multi_vector_scores grad batch_size Q P = Ok T -> Q <> [] /\ P <> [].
Proof.
  destruct Q; [discriminate|]. destruct P; [discriminate|].
  intros _. split; discriminate.
Qed.

Lemma selected_scores_shape fr T :
  selected_scores fr = Ok T ->
  shape T = [length (qs fr); length (ps fr)] /\ qs fr <> [] /\ ps fr <> [].
Proof.
  unfold selected_scores. destruct (is_multi_vector (self fr)); intros H.
  - split; [apply (multi_vector_scores_shape _ _ _ _ H)
           | apply (multi_vector_scores_Ok_nonempty _ _ _ _ H)].
  - split; [apply (single_vector_scores_shape _ _ _ H)
           | apply (single_vector_scores_Ok_nonempty _ _ _ H)].
Qed.

Lemma as1_reduce_last f x :
  as1 (reduce_last f 1 x) = Some (map (fun row => f (scalars row)) (items x)).
Proof.
  simpl. apply (omap_list_Some as0 (fun row => Sc (f (scalars row)))). reflexivity.
Qed.

Lemma argmax_rows n c T :
  shape T = [n; c] -> c <> 0%nat ->
  torch.argmax T 1 =
  Ok {| shape := [n]; data := reduce_last argmaxZ 1 (data T);
        requires_grad := false |}.
Proof.
  intros Hs Hc. unfold torch.argmax. rewrite Hs.
  cbn [length Nat.ltb Nat.leb Nat.eqb nth firstn].
  destruct (Nat.eqb_spec c 0) as [?|_]; [contradiction | reflexivity].
Qed.

Lemma count_eq_arange n T :
  torch.count_eq {| shape := [n]; data := reduce_last argmaxZ 1 (data T);
                    requires_grad := false |}
                 (torch.arange n) = Ok (hits T n).
Proof.
  unfold torch.count_eq, torch.arange, tensor1.
  cbn [shape data]. rewrite length_map, length_seq, shape_eqb_refl.
  rewrite as1_reduce_last, as1_of1. reflexivity.
Qed.

(** [evaluate], once the selected routine has returned: the accuracy is
    logged, and then [numpy()] decides. *)
Lemma evaluate_value fr :
  evaluate fr =
  match selected_scores fr with
  | Ok T =>
      (logged fr (INFO "Top 1 Accuracy (verif): "
                       (Qdiv (inject_Z (hits T (length (qs fr))))
                             (inject_Z (Z.of_nat (length (qs fr)))))),
       torch.numpy T)
  | Raise e => (fr, Raise e)
  end.
Proof.
  unfold evaluate. unfold bind at 1. unfold gets at 1. unfold bind at 1.
  change (if is_multi_vector (self fr) then get_multi_vector_scores 128
          else get_single_vector_scores) with (selected_routine (self fr)).
  rewrite selected_routine_reads.
  destruct (selected_scores fr) as [T|e] eqn:HT; [|reflexivity].
  destruct (selected_scores_shape fr T HT) as (Hs & HQ & HP).
  unfold bind at 1. unfold lift at 1. rewrite Hs.
  cbn [py.index nth_error].
  unfold bind at 1. unfold gets at 1.
  unfold py.len. rewrite Z.eqb_refl. cbn [negb].
  unfold bind at 1. unfold lift at 1.
  rewrite (argmax_rows (length (qs fr)) (length (ps fr)) T Hs)
    by (destruct (ps fr); [contradiction | discriminate]).
  unfold bind at 1. unfold lift at 1. cbn [py.index nth_error].
  unfold bind at 1. unfold lift at 1. rewrite count_eq_arange.
  unfold bind at 1. unfold lift at 1. cbn [py.index nth_error].
  unfold bind at 1. unfold lift at 1. unfold py.truediv.
  destruct (Z.eqb_spec (Z.of_nat (length (qs fr))) 0) as [E|_].
  { destruct (qs fr); [contradiction | discriminate E]. }
  unfold bind at 1. unfold logger_info at 1.
  unfold bind, lift, ret, torch.cpu, torch.to_float32, logged.
  destruct (torch.numpy T); reflexivity.
Qed.

Lemma argmaxZ_from_keeps best best_i i l :
  (forall y, In y l -> y <= best) -> argmaxZ_from best best_i i l = best_i.
Proof.
  revert i. induction l as [|x l IH]; intros i H; simpl; [reflexivity|].
  destruct (Z.ltb_spec best x) as [Hlt|_].
  - specialize (H x (or_introl eq_refl)). lia.
  - apply IH. intros y Hy. apply H. right. exact Hy.
Qed.

Lemma argmaxZ_from_finds best best_i i l j :
  (j < length l)%nat -> best < nth j l 0 ->
  (forall c, (c < length l)%nat -> c <> j -> nth c l 0 < nth j l 0) ->
  argmaxZ_from best best_i i l = (i + j)%nat.
Proof.
  revert best best_i i j. induction l as [|x l IH]; intros best best_i i j Hj Hb Hmax;
    [simpl in Hj; lia|].
  destruct j as [|j]; simpl in *.
  - destruct (Z.ltb_spec best x) as [_|?]; [|lia].
    rewrite Nat.add_0_r. apply argmaxZ_from_keeps.
    intros y Hy. apply In_nth with (d := 0) in Hy as (c & Hc & <-).
    specialize (Hmax (S c) ltac:(lia) ltac:(lia)). simpl in Hmax. lia.
  - assert (Hx : x < nth j l 0)
      by (specialize (Hmax 0%nat ltac:(lia) ltac:(lia)); exact Hmax).
    assert (Hrest : forall c, (c < length l)%nat -> c <> j -> nth c l 0 < nth j l 0).
    { intros c Hc Hne. apply (Hmax (S c)); lia. }
    destruct (Z.ltb_spec best x);
      rewrite (IH _ _ _ j) by (try lia; assumption); lia.
Qed.

(** The position of an entry larger than all the others. *)
Lemma argmaxZ_strict l b :
  (b < length l)%nat ->
  (forall c, (c < length l)%nat -> c <> b -> nth c l 0 < nth b l 0) ->
  argmaxZ l = Z.of_nat b.
Proof.
  intros Hb Hmax. destruct l as [|x l]; [simpl in Hb; lia|].
  unfold argmaxZ. f_equal. destruct b as [|j].
  - apply argmaxZ_from_keeps. intros y Hy.
    apply In_nth with (d := 0) in Hy as (c & Hc & <-).
    specialize (Hmax (S c) ltac:(simpl; lia) ltac:(lia)). simpl in Hmax. lia.
  - rewrite (argmaxZ_from_finds x 0 1 l j).
    + reflexivity.
    + simpl in Hb. lia.
    + specialize (Hmax 0%nat ltac:(simpl; lia) ltac:(lia)). exact Hmax.
    + intros c Hc Hne. apply (Hmax (S c)); simpl; lia.
Qed.


Lemma indicator_sum_same (u : list Z) :
  sumZ (zip_with (fun a b => if a =? b then 1 else 0) u u) = Z.of_nat (length u).
Proof.
  induction u as [|a u IH]; [reflexivity|].
  cbn [zip_with sumZ fold_right length]. unfold sumZ in IH.
  rewrite Z.eqb_refl, IH. lia.
Qed.

Lemma row_argmax_of2 sh m g :
  row_argmax {| shape := sh; data := of2 m;
                requires_grad := g |} = map argmaxZ m.
Proof.
  unfold row_argmax. cbn [data items of2]. rewrite map_map.
  apply map_ext. intros v. rewrite scalars_of1. reflexivity.
Qed.

Lemma hits_top1_hits sh m g :
  hits {| shape := sh; data := of2 m; requires_grad := g |} (length m) =
  top1_hits m.
Proof. unfold hits, top1_hits. rewrite row_argmax_of2. reflexivity. Qed.

Lemma top1_hits_own_passage_first m :
  own_passage_first m -> top1_hits m = Z.of_nat (length m).
Proof.
  intros H. unfold top1_hits.
  assert (E : map argmaxZ m = map Z.of_nat (seq 0 (length m))).
  { apply (nth_ext _ _ 0 0); [rewrite !length_map, length_seq; reflexivity|].
    intros b Hb. rewrite length_map in Hb.
    rewrite (nth_indep _ 0 (argmaxZ [])) by (rewrite length_map; exact Hb).
    rewrite (map_nth argmaxZ).
    rewrite (nth_indep _ 0 (Z.of_nat 0))
      by (rewrite length_map, length_seq; exact Hb).
    rewrite (map_nth Z.of_nat), seq_nth by exact Hb. simpl.
    destruct (H b Hb) as [Hlen Hmax].
    apply argmaxZ_strict; [exact Hlen|].
    intros c Hc Hne. exact (Hmax c Hc Hne). }
  rewrite E, indicator_sum_same, length_map, length_seq. reflexivity.
Qed.

Lemma first_largest_spec row b :
  first_largest row b = true <->
  (b < length row)%nat /\
  (forall c, (c < length row)%nat -> nth c row 0 <= nth b row 0) /\
  (forall c, (c < b)%nat -> nth c row 0 < nth b row 0).
Proof.
  unfold first_largest. rewrite !andb_true_iff, Nat.ltb_lt, !forallb_forall.
  split.
  - intros [[H1 H2] H3]. split; [exact H1|]. split.
    + intros c Hc. apply Z.leb_le. apply H2. apply in_seq. lia.
    + intros c Hc. apply Z.ltb_lt. apply H3. apply in_seq. lia.
  - intros (H1 & H2 & H3). split; [split; [exact H1|]|].
    + intros c Hc. apply Z.leb_le. apply H2. apply in_seq in Hc. lia.
    + intros c Hc. apply Z.ltb_lt. apply H3. apply in_seq in Hc. lia.
Qed.

Lemma first_largest_unique row b b' :
  first_largest row b = true -> first_largest row b' = true -> b = b'.
Proof.
  rewrite !first_largest_spec. intros (H1 & H2 & H3) (H1' & H2' & H3').
  destruct (Nat.lt_trichotomy b b') as [Hlt|[->|Hlt]]; [|reflexivity|].
  - specialize (H3' b Hlt). specialize (H2 b' H1'). lia.
  - specialize (H3 b' Hlt). specialize (H2' b H1). lia.
Qed.

(** The scan of [argmax] over the rest [l] of a row, the best entry so far
    being the first largest of what was scanned. *)
Lemma argmaxZ_from_first_largest row pre l best_i :
  row = pre ++ l -> (best_i < length pre)%nat ->
  (forall c, (c < length pre)%nat -> nth c row 0 <= nth best_i row 0) ->
  (forall c, (c < best_i)%nat -> nth c row 0 < nth best_i row 0) ->
  first_largest row
    (argmaxZ_from (nth best_i row 0) best_i (length pre) l) = true.
Proof.
  revert pre best_i. induction l as [|x l IH]; intros pre best_i Hrow Hbi Hle Hlt.
  - simpl. apply first_largest_spec. rewrite app_nil_r in Hrow. subst row.
    repeat split; assumption.
  - assert (Hx : nth (length pre) row 0 = x) by (subst row; apply nth_middle).
    assert (Hrow' : row = (pre ++ [x]) ++ l) by (rewrite <- app_assoc; exact Hrow).
    assert (Hlen : length (pre ++ [x]) = S (length pre))
      by (rewrite length_app; simpl; lia).
    simpl. destruct (Z.ltb_spec (nth best_i row 0) x) as [Hbest|Hbest].
    + rewrite <- Hx at 1. rewrite <- Hlen. apply IH; try assumption.
      * rewrite Hlen. lia.
      * intros c Hc. rewrite Hlen in Hc.
        destruct (Nat.eq_dec c (length pre)) as [->|Hne]; [lia|].
        specialize (Hle c ltac:(lia)). lia.
      * intros c Hc. specialize (Hle c Hc). lia.
    + rewrite <- Hlen. apply IH; try assumption.
      * rewrite Hlen. lia.
      * intros c Hc. rewrite Hlen in Hc.
        destruct (Nat.eq_dec c (length pre)) as [->|Hne]; [lia|].
        apply Hle. lia.
Qed.

(** [argmax] of a row that is not empty is the column of its first largest
    entry, and no other. *)
Lemma argmaxZ_first_largest row b :
  row <> [] -> (argmaxZ row = Z.of_nat b <-> first_largest row b = true).
Proof.
  intros Hne. destruct row as [|x r]; [contradiction|].
  assert (Hk : first_largest (x :: r) (argmaxZ_from x 0 1 r) = true).
  { apply (argmaxZ_from_first_largest (x :: r) [x] r 0%nat).
    - reflexivity.
    - simpl. lia.
    - intros c Hc. simpl in Hc. replace c with 0%nat by lia. simpl. lia.
    - intros c Hc. lia. }
  unfold argmaxZ. split.
  - intros E. apply Nat2Z.inj in E. rewrite <- E. exact Hk.
  - intros Hb. f_equal. exact (first_largest_unique _ _ _ Hk Hb).
Qed.

Lemma top1_hits_from (m : list (list Z)) (s : nat) :
  Forall (fun row => row <> []) m ->
  sumZ (zip_with (fun a b => if a =? b then 1 else 0)
                 (map argmaxZ m) (map Z.of_nat (seq s (length m)))) =
  Z.of_nat (length (List.filter (fun b => first_largest (nth (b - s) m []) b)
                           (seq s (length m)))).
Proof.
  intros H. revert s. induction H as [|row m Hrow _ IH]; intros s; [reflexivity|].
  cbn [map length seq zip_with sumZ fold_right List.filter].
  rewrite Nat.sub_diag. cbn [nth].
  rewrite (filter_ext_in _ (fun b => first_largest (nth (b - S s) m []) b)).
  2:{ intros b Hb. apply in_seq in Hb.
      replace (b - s)%nat with (S (b - S s)) by lia. reflexivity. }
  specialize (IH (S s)). unfold sumZ in IH. rewrite IH.
  destruct (first_largest row s) eqn:Hfl.
  - rewrite (proj2 (argmaxZ_first_largest row s Hrow) Hfl), Z.eqb_refl.
    cbn [length]. lia.
  - destruct (Z.eqb_spec (argmaxZ row) (Z.of_nat s)) as [E|_]; [|lia].
    rewrite (proj1 (argmaxZ_first_largest row s Hrow) E) in Hfl. discriminate Hfl.
Qed.

Lemma top1_hits_top1_count (m : list (list Z)) :
  Forall (fun row => row <> []) m -> top1_hits m = Z.of_nat (top1_count m).
Proof.
  intros H. unfold top1_hits, top1_count. rewrite (top1_hits_from m 0 H).
  f_equal. f_equal. apply filter_ext. intros b. rewrite Nat.sub_0_r. reflexivity.
Qed.

(** X1.  [evaluate] ends as the scoring routine it selects ends, but for
    [numpy()]: when the routine raises, [evaluate] raises the same
    exception and the frame is untouched; when the routine returns scores
    that do not require grad, [evaluate] returns them; when the scores
    require grad, [numpy()] raises [RuntimeError].  The assertion, the
    accuracy and the logging in between never raise. *)
Theorem evaluate_returns_the_scores (fr : Frame) :
  match returned (selected_routine (self fr) fr) with
  | Ok T =>
      returned (evaluate fr) =
      if requires_grad T
      then Raise torch.numpy_requires_grad
      else Ok T
  | Raise e => evaluate fr = (fr, Raise e)
  end.
Proof.
  rewrite evaluate_value, selected_routine_reads. unfold returned. cbn [snd].
  destruct (selected_scores fr) as [T|e]; reflexivity.
Qed.

(** X2.  When the selected routine has returned a score matrix,
    [evaluate] passes exactly one record to [logger.info], also when
    [numpy()] raises afterwards: the top 1 accuracy, which is the number of
    queries [b] whose own passage [b] has the first largest score of row
    [b], divided by [len(qs)]. *)
Theorem evaluate_logs_accuracy (fr : Frame) (m : list (list Z)) (c : nat)
    (g : bool) :
  returned (selected_routine (self fr) fr) =
    Ok {| shape := [length m; c]; data := of2 m; requires_grad := g |} ->
  Forall (fun row => length row = c) m ->
  fst (evaluate fr) =
  logged fr (INFO "Top 1 Accuracy (verif): "
                  (Qdiv (inject_Z (Z.of_nat (top1_count m)))
                        (inject_Z (py.len (qs fr))))).
Proof.
  intros Hret Hrows. rewrite selected_routine_reads in Hret.
  unfold returned in Hret. simpl in Hret.
  destruct (selected_scores_shape fr _ Hret) as (Hs & _ & HP).
  simpl in Hs. injection Hs as Hlen Hc.
  assert (Hne : Forall (fun row => row <> []) m).
  { eapply List.Forall_impl; [|exact Hrows]. intros row Hrow E. subst row.
    simpl in Hrow. rewrite <- Hrow in Hc.
    destruct (ps fr); [contradiction | discriminate Hc]. }
  rewrite evaluate_value, Hret. cbn [fst]. unfold py.len.
  rewrite <- Hlen, hits_top1_hits, (top1_hits_top1_count m Hne). reflexivity.
Qed.

Lemma evaluate_logs_accuracy_witness :
  fst (evaluate (call (example_evaluator false)
                      (map tensor1 [[2; 0]; [0; 3]; [1; 1]])
                      (map tensor1 [[1; 0]; [1; 1]; [0; 0]]) [])) =
  logged (call (example_evaluator false)
               (map tensor1 [[2; 0]; [0; 3]; [1; 1]])
               (map tensor1 [[1; 0]; [1; 1]; [0; 0]]) [])
         (INFO "Top 1 Accuracy (verif): "
               (Qdiv (inject_Z (Z.of_nat (top1_count [[2; 2; 0]; [0; 3; 0]; [1; 2; 0]])))
                     (inject_Z 3))).
Proof.
  apply (evaluate_logs_accuracy
           (call (example_evaluator false)
                 (map tensor1 [[2; 0]; [0; 3]; [1; 1]])
                 (map tensor1 [[1; 0]; [1; 1]; [0; 0]]) [])
           [[2; 2; 0]; [0; 3; 0]; [1; 2; 0]] 3 false).
  - reflexivity.
  - repeat constructor.
Defined.

(** X3.  When every query scores highest, and strictly so, with the passage
    of its own position, the accuracy [evaluate] logs is 1. *)
Theorem evaluate_accuracy_one (fr : Frame) (m : list (list Z)) (c : nat)
    (g : bool) :
  returned (selected_routine (self fr) fr) =
    Ok {| shape := [length m; c]; data := of2 m; requires_grad := g |} ->
  own_passage_first m ->
  exists accuracy,
    fst (evaluate fr) = logged fr (INFO "Top 1 Accuracy (verif): " accuracy) /\
    Qeq accuracy 1.
Proof.
  intros Hret Hown. rewrite selected_routine_reads in Hret.
  unfold returned in Hret. simpl in Hret.
  destruct (selected_scores_shape fr _ Hret) as (Hs & HQ & _).
  simpl in Hs. injection Hs as Hlen _.
  rewrite evaluate_value, Hret. eexists. split; [reflexivity|].
  rewrite <- Hlen, hits_top1_hits, (top1_hits_own_passage_first m Hown).
  apply Qmult_inv_r. intros E. unfold inject_Z, Qeq in E. simpl in E.
  destruct m; [|discriminate E]. simpl in Hlen. destruct (qs fr); [contradiction | discriminate Hlen].
Qed.

Lemma evaluate_accuracy_one_witness :
  exists accuracy,
    fst (evaluate (call (example_evaluator false)
                        (map tensor1 [[2; 0]; [0; 3]])
                        (map tensor1 [[1; 0]; [0; 1]; [0; 0]]) [])) =
    logged (call (example_evaluator false)
                 (map tensor1 [[2; 0]; [0; 3]])
                 (map tensor1 [[1; 0]; [0; 1]; [0; 0]]) [])
           (INFO "Top 1 Accuracy (verif): " accuracy) /\
    Qeq accuracy 1.
Proof.
  apply (evaluate_accuracy_one
           (call (example_evaluator false)
                 (map tensor1 [[2; 0]; [0; 3]])
                 (map tensor1 [[1; 0]; [0; 1]; [0; 0]]) [])
           [[2; 0; 0]; [0; 3; 0]] 3 false).
  - reflexivity.
  - intros b Hb. simpl in Hb.
    destruct b as [|[|b]]; [| |lia]; (split; [simpl; lia|]);
      intros c Hc Hne; simpl in Hc;
      destruct c as [|[|[|c]]]; try lia; unfold entry; simpl; lia.
Defined.

(** X4.  With no query [evaluate] raises the [ValueError] for the queries,
    also when there is no passage either; with queries and no passage it
    raises the one for the passages.  Either way the frame is untouched,
    for both kinds of evaluator. *)
Theorem evaluate_empty_input (fr : Frame) :
  (qs fr = [] ->
   evaluate fr = (fr, Raise (ValueError "No querie(s) provided"))) /\
  (qs fr <> [] -> ps fr = [] ->
   evaluate fr = (fr, Raise (ValueError "No passage(s) provided"))).
Proof.
  split.
  - intros HQ. rewrite evaluate_value. unfold selected_scores.
    unfold multi_vector_scores, single_vector_scores. rewrite HQ.
    destruct (is_multi_vector (self fr)); reflexivity.
  - intros HQ HP. rewrite evaluate_value. unfold selected_scores.
    unfold multi_vector_scores, single_vector_scores.
    rewrite (len_nonzero _ HQ), HP.
    destruct (is_multi_vector (self fr)); reflexivity.
Qed.

Lemma evaluate_empty_input_witness :
  evaluate (call (example_evaluator true) [] [] []) =
    (call (example_evaluator true) [] [] [],
     Raise (ValueError "No querie(s) provided")) /\
  evaluate (call (example_evaluator false) [tensor1 [1]] [] []) =
    (call (example_evaluator false) [tensor1 [1]] [] [],
     Raise (ValueError "No passage(s) provided")).
Proof.
  split.
  - apply (evaluate_empty_input (call (example_evaluator true) [] [] [])).
    reflexivity.
  - apply (evaluate_empty_input (call (example_evaluator false) [tensor1 [1]] [] [])).
    + discriminate.
    + reflexivity.
Defined.

(* ===================================================================== *)
(** ** Calls in sequence, and the grad mode of the runtime *)























(** The two calls of the example: in grad mode the query that requires
    grad makes [numpy()] raise when the accuracy has been logged; with grad
    mode off the same call returns the scores. *)
Example evaluate_grad_mode_example :
  evaluate example_tracked_frame =
    (logged example_tracked_frame (INFO "Top 1 Accuracy (verif): " 1),
     Raise torch.numpy_requires_grad) /\
  returned (evaluate (enter example_frame_no_grad
                            [example_tracked_query] [tensor1 [3; 4]])) =
    Ok {| shape := [1%nat; 1%nat]; data := of2 [[11]]; requires_grad := false |}.
Proof. split; vm_compute; reflexivity. Qed.

(* ===================================================================== *)
(** ** Scores that require grad *)

Lemma stack_tracks ts grad T :
  torch.stack ts grad = Ok T -> requires_grad T = torch.tracks ts grad.
Proof.
  unfold torch.stack. destruct ts as [|t r]; [discriminate|].
  destruct (forallb _ r); [|discriminate].
  intros H. injection H as <-. reflexivity.
Qed.

Lemma pad_sequence_tracks ts v grad T :
  torch.pad_sequence ts v grad = Ok T -> requires_grad T = torch.tracks ts grad.
Proof.
  unfold torch.pad_sequence. destruct ts as [|t r]; [discriminate|].
  destruct (shape t); [discriminate|].
  destruct (existsb _ _); [discriminate|].
  destruct (omap_list _ _); [|discriminate].
  intros H. injection H as <-. reflexivity.
Qed.

Lemma einsum_tracks eq x y grad T :
  torch.einsum eq x y grad = Ok T -> requires_grad T = torch.tracks [x; y] grad.
Proof.
  unfold torch.einsum, torch.einsum_bd_cd_bc, torch.einsum_bnd_csd_bcns,
    torch.malformed.
  repeat match goal with
         | |- context [if ?c then _ else _] => destruct c
         | |- context [match ?c with _ => _ end] => destruct c
         end; try discriminate; intros H; injection H as <-; reflexivity.
Qed.

Lemma max_tracks x dim grad mx :
  torch.max x dim grad = Ok mx -> requires_grad (fst mx) = torch.tracks [x] grad.
Proof.
  unfold torch.max.
  repeat match goal with
         | |- context [if ?c then _ else _] => destruct c
         end; try discriminate.
  intros H. injection H as <-. reflexivity.
Qed.

Lemma sum_tracks x dim grad T :
  torch.sum x dim grad = Ok T -> requires_grad T = torch.tracks [x] grad.
Proof.
  unfold torch.sum.
  repeat match goal with
         | |- context [if ?c then _ else _] => destruct c
         end; try discriminate.
  intros H. injection H as <-. reflexivity.
Qed.

Lemma cat_tracks ts dim grad T :
  torch.cat ts dim grad = Ok T -> requires_grad T = torch.tracks ts grad.
Proof.
  unfold torch.cat. destruct ts as [|t r]; [discriminate|].
  repeat match goal with
         | |- context [if ?c then _ else _] => destruct c
         end; try discriminate.
  intros H. injection H as <-. reflexivity.
Qed.

Lemma single_vector_scores_tracks grad Q P T :
  single_vector_scores grad Q P = Ok T ->
  requires_grad T = existsb requires_grad (Q ++ P) && grad.
Proof.
  unfold single_vector_scores.
  destruct (py.len Q =? 0); [discriminate|].
  destruct (py.len P =? 0); [discriminate|].
  destruct (torch.stack Q grad) as [x|e] eqn:Hx; [|discriminate].
  destruct (torch.stack P grad) as [y|e] eqn:Hy; [|discriminate].
  cbn [rbind]. intros H.
  rewrite (einsum_tracks _ _ _ _ _ H). unfold torch.tracks. cbn [existsb].
  rewrite (stack_tracks _ _ _ Hx), (stack_tracks _ _ _ Hy), existsb_app.
  unfold torch.tracks.
  destruct (existsb requires_grad Q), (existsb requires_grad P), grad; reflexivity.
Qed.

Lemma scores_block_tracks grad qb p_slice T :
  scores_block grad qb p_slice = Ok T ->
  requires_grad T = (requires_grad qb || existsb requires_grad p_slice) && grad.
Proof.
  unfold scores_block.
  destruct (torch.pad_sequence p_slice 0 grad) as [pb|e] eqn:Hpb; [|discriminate].
  cbn [rbind].
  destruct (torch.einsum _ qb pb grad) as [sim|e] eqn:Hsim; [|discriminate].
  cbn [rbind].
  destruct (torch.max sim 3 grad) as [mx|e] eqn:Hmx; [|discriminate].
  cbn [rbind]. intros H.
  rewrite (sum_tracks _ _ _ _ H). unfold torch.tracks. cbn [existsb].
  rewrite (max_tracks _ _ _ _ Hmx). unfold torch.tracks. cbn [existsb].
  rewrite (einsum_tracks _ _ _ _ _ Hsim). unfold torch.tracks. cbn [existsb].
  rewrite (pad_sequence_tracks _ _ _ _ Hpb). unfold torch.tracks.
  destruct (requires_grad qb), (existsb requires_grad p_slice), grad; reflexivity.
Qed.

(** The results of the rounds of a loop over batches: one of them requires
    grad when [a] holds or a member of a batch requires grad, in grad
    mode. *)
Lemma batches_track (a grad : bool) (xs : list (list Tensor)) (ys : list Tensor) :
  Forall2 (fun x y => requires_grad y = (a || existsb requires_grad x) && grad)
          xs ys ->
  xs <> [] ->
  existsb requires_grad ys = (a || existsb requires_grad (concat xs)) && grad.
Proof.
  induction 1 as [|x y xs ys Hxy Hrest IH]; intros Hne; [contradiction|].
  cbn [existsb concat]. rewrite existsb_app, Hxy.
  destruct xs as [|x' xs].
  - inversion Hrest; subst. cbn [existsb concat].
    destruct a, (existsb requires_grad x), grad; reflexivity.
  - rewrite IH by discriminate.
    destruct a, (existsb requires_grad x),
      (existsb requires_grad (concat (x' :: xs))), grad; reflexivity.
Qed.

Lemma scores_rows_tracks grad batch_size P q_slice T :
  0 < batch_size -> P <> [] ->
  scores_rows grad batch_size P q_slice = Ok T ->
  requires_grad T =
  (existsb requires_grad P || existsb requires_grad q_slice) && grad.
Proof.
  intros Hb HP. rewrite scores_rows_batches by exact Hb.
  destruct (torch.pad_sequence q_slice 0 grad) as [qb|e] eqn:Hqb; [|discriminate].
  cbn [rbind].
  destruct (rmap (scores_block grad qb) (batches batch_size P)) as [sb|e] eqn:Hsb;
    [|discriminate].
  cbn [rbind]. intros H. rewrite (cat_tracks _ _ _ _ H). unfold torch.tracks.
  apply rmap_Ok_inv in Hsb.
  rewrite (batches_track (requires_grad qb) grad (batches batch_size P) sb).
  - rewrite concat_batches by exact Hb.
    rewrite (pad_sequence_tracks _ _ _ _ Hqb). unfold torch.tracks.
    destruct (existsb requires_grad q_slice), (existsb requires_grad P), grad;
      reflexivity.
  - eapply Forall2_impl; [exact Hsb|]. intros x y Hxy.
    apply (scores_block_tracks _ _ _ _ Hxy).
  - apply batches_nil_iff; assumption.
Qed.

Lemma multi_vector_scores_tracks grad batch_size Q P T :
  multi_vector_scores grad batch_size Q P = Ok T ->
  requires_grad T = existsb requires_grad (Q ++ P) && grad.
Proof.
  intros H.
  destruct Q as [|q0 Q']; [discriminate|]. destruct P as [|p0 P']; [discriminate|].
  destruct (Z.lt_trichotomy batch_size 0) as [Hb|[->|Hb]].
  - rewrite multi_vector_scores_neg in H by (try exact Hb; discriminate). discriminate.
  - rewrite multi_vector_scores_zero in H by discriminate. discriminate.
  - rewrite multi_vector_scores_batches in H by (try lia; discriminate).
    destruct (rmap _ (batches batch_size (q0 :: Q'))) as [sl|e] eqn:Hsl;
      [|discriminate].
    cbn [rbind] in H. rewrite (cat_tracks _ _ _ _ H). unfold torch.tracks.
    apply rmap_Ok_inv in Hsl.
    rewrite (batches_track (existsb requires_grad (p0 :: P')) grad
               (batches batch_size (q0 :: Q')) sl).
    + rewrite concat_batches by lia. rewrite existsb_app.
      destruct (existsb requires_grad (q0 :: Q')),
        (existsb requires_grad (p0 :: P')), grad; reflexivity.
    + eapply Forall2_impl; [exact Hsl|]. intros x y Hxy.
      apply (scores_rows_tracks grad batch_size (p0 :: P') x y);
        [lia | discriminate | exact Hxy].
    + apply batches_nil_iff; [lia | discriminate].
Qed.

(** X20.  A score matrix that a scoring routine returns requires grad
    exactly when the grad mode of the runtime is on and a tensor of [qs] or
    of [ps] requires grad.  So [evaluate], once its routine has returned
    scores, raises the [RuntimeError] of [numpy()] exactly then, and
    returns the scores otherwise. *)
Theorem scores_require_grad (fr : Frame) (batch_size : Z) :
  (forall T, returned (get_single_vector_scores fr) = Ok T ->
     requires_grad T =
     existsb requires_grad (qs fr ++ ps fr) && grad_enabled fr) /\
  (forall T, returned (get_multi_vector_scores batch_size fr) = Ok T ->
     requires_grad T =
     existsb requires_grad (qs fr ++ ps fr) && grad_enabled fr) /\
  (forall T, returned (selected_routine (self fr) fr) = Ok T ->
     returned (evaluate fr) =
     if existsb requires_grad (qs fr ++ ps fr) && grad_enabled fr
     then Raise torch.numpy_requires_grad
     else Ok T).
Proof.
  split; [|split].
  - intros T. rewrite returned_get_single_vector_scores.
    apply single_vector_scores_tracks.
  - intros T. rewrite returned_get_multi_vector_scores.
    apply multi_vector_scores_tracks.
  - intros T. rewrite selected_routine_reads, evaluate_value.
    unfold returned. cbn [snd]. intros H. rewrite H. cbn [snd].
    unfold torch.numpy. unfold selected_scores in H.
    destruct (is_multi_vector (self fr)).
    + rewrite (multi_vector_scores_tracks _ _ _ _ _ H). reflexivity.
    + rewrite (single_vector_scores_tracks _ _ _ _ H). reflexivity.
Qed.

Lemma scores_require_grad_witness :
  requires_grad
    {| shape := [1%nat; 1%nat]; data := of2 [[11]]; requires_grad := true |} =
    existsb requires_grad (qs example_tracked_frame ++ ps example_tracked_frame) &&
    grad_enabled example_tracked_frame /\
  requires_grad
    {| shape := [1%nat; 2%nat]; data := of2 [[0; -1]]; requires_grad := false |} =
    existsb requires_grad (qs example_frame ++ ps example_frame) &&
    grad_enabled example_frame /\
  returned (evaluate example_tracked_frame) =
    if existsb requires_grad
         (qs example_tracked_frame ++ ps example_tracked_frame) &&
       grad_enabled example_tracked_frame
    then Raise torch.numpy_requires_grad
    else Ok {| shape := [1%nat; 1%nat]; data := of2 [[11]];
               requires_grad := true |}.
Proof.
  destruct (scores_require_grad example_tracked_frame 2) as (H1 & _ & H3).
  destruct (scores_require_grad example_frame 2) as (_ & H2 & _).
  split; [apply H1; reflexivity|].
  split; [apply H2; reflexivity|].
  apply H3. reflexivity.
Defined.

(* ===================================================================== *)
(** ** The batches of the loops *)

(** X5.  With a positive batch size the slices the loops take, one after
    the other, are the whole list in its order, and each holds at least one
    and at most [batch_size] elements. *)
Theorem loop_batches_partition {A} (batch_size : Z) (l : list A) :
  0 < batch_size ->
  concat (batches batch_size l) = l /\
  Forall (fun s => s <> [] /\ py.len s <= batch_size) (batches batch_size l).
Proof.
  intros Hb. split; [apply concat_batches; exact Hb|].
  apply List.Forall_forall. intros s Hs. split.
  - exact (proj1 (List.Forall_forall _ _) (batches_nonempty batch_size l Hb) s Hs).
  - rewrite batches_pos in Hs by exact Hb.
    apply in_map_iff in Hs as (k & <- & _). unfold py.len.
    rewrite length_firstn. lia.
Qed.

Lemma loop_batches_partition_witness :
  concat (batches 2 [10; 20; 30; 40; 50]) = [10; 20; 30; 40; 50] /\
  Forall (fun s => s <> [] /\ py.len s <= 2) (batches 2 [10; 20; 30; 40; 50]).
Proof. apply (loop_batches_partition 2 [10; 20; 30; 40; 50]). lia. Defined.

(* ===================================================================== *)
(** ** The multi-vector scores and MaxSim *)

Lemma fold_left_max_ge l a :
  a <= fold_left Z.max l a /\ forall x, In x l -> x <= fold_left Z.max l a.
Proof.
  revert a. induction l as [|y l IH]; intros a; simpl.
  - split; [lia | intros x []].
  - destruct (IH (Z.max a y)) as [H1 H2]. split; [lia|].
    intros x [<-|Hx]; [lia | apply H2; exact Hx].
Qed.

Lemma fold_left_max_in l a :
  fold_left Z.max l a = a \/ In (fold_left Z.max l a) l.
Proof.
  revert a. induction l as [|y l IH]; intros a; simpl; [left; reflexivity|].
  destruct (IH (Z.max a y)) as [H|H]; [|right; right; exact H].
  rewrite H. destruct (Z.max_spec a y) as [[_ ->]|[_ ->]]; auto.
Qed.

Lemma maxZ_ge l x : In x l -> x <= maxZ l.
Proof.
  destruct l as [|y l]; [intros []|]. simpl.
  destruct (fold_left_max_ge l y) as [H1 H2].
  intros [<-|Hx]; [exact H1 | apply H2; exact Hx].
Qed.

Lemma maxZ_In l : l <> [] -> In (maxZ l) l.
Proof.
  destruct l as [|y l]; [contradiction|]. intros _. simpl.
  destruct (fold_left_max_in l y) as [->|H]; auto.
Qed.

Lemma sumZ_map_le {A} (f g : A -> Z) (l : list A) :
  (forall x, In x l -> f x <= g x) -> sumZ (map f l) <= sumZ (map g l).
Proof.
  unfold sumZ. induction l as [|x l IH]; intros H; simpl; [lia|].
  specialize (H x (or_introl eq_refl)) as Hx.
  assert (IH' := IH (fun y Hy => H y (or_intror Hy))). lia.
Qed.

Lemma dot_zeros_r d u : dot u (repeat 0 d) = 0.
Proof.
  unfold dot. revert u. induction d as [|d IH]; intros u; simpl.
  - destruct u; reflexivity.
  - destruct u as [|x u]; simpl; [reflexivity|]. rewrite Z.mul_0_r. apply IH.
Qed.

(** Padding a passage can only raise its score. *)
Lemma MaxSim_le_padded d k q p :
  p <> [] -> MaxSim q p <= MaxSim q (append_zeros d k p).
Proof.
  intros Hp. unfold MaxSim. apply sumZ_map_le. intros qv _.
  apply maxZ_ge. unfold append_zeros. rewrite map_app. apply in_or_app. left.
  apply maxZ_In. destruct p; [contradiction | discriminate].
Qed.

(** Padding a passage changes nothing when every query token already has a
    similarity of at least zero with a token of the passage. *)
Lemma MaxSim_padded_nonneg d k q p :
  p <> [] ->
  (forall qv, In qv q -> 0 <= maxZ (map (fun pv => dot qv pv) p)) ->
  MaxSim q (append_zeros d k p) = MaxSim q p.
Proof.
  intros Hp Hnn. unfold MaxSim. f_equal. apply map_ext_in. intros qv Hqv.
  apply Z.le_antisymm.
  - assert (Hne : map (fun pv => dot qv pv) (append_zeros d k p) <> []).
    { unfold append_zeros. destruct p; [contradiction | discriminate]. }
    pose proof (maxZ_In _ Hne) as Hin. unfold append_zeros in Hin at 2.
    rewrite map_app in Hin. apply in_app_or in Hin as [Hin|Hin].
    + apply maxZ_ge. exact Hin.
    + apply in_map_iff in Hin as (z & Hz & Hrep).
      apply repeat_spec in Hrep. subst z. rewrite dot_zeros_r in Hz.
      rewrite <- Hz. apply Hnn. exact Hqv.
  - apply maxZ_ge. unfold append_zeros. rewrite map_app. apply in_or_app. left.
    apply maxZ_In. destruct p; [contradiction | discriminate].
Qed.

Lemma Forall2_concat_maps {A B} (R : B -> A -> Prop) (g : list A -> A -> B)
    (xss : list (list A)) :
  (forall xs, In xs xss -> forall x, In x xs -> R (g xs x) x) ->
  Forall2 R (concat (map (fun xs => map (g xs) xs) xss)) (concat xss).
Proof.
  induction xss as [|xs xss IH]; intros H; simpl; [constructor|].
  apply Forall2_app.
  - assert (Hxs : forall x, In x xs -> R (g xs x) x)
      by (intros x Hx; apply (H xs); [left; reflexivity | exact Hx]).
    revert Hxs. generalize (g xs). clear. intros h Hh.
    induction xs as [|x xs IHxs]; simpl; constructor.
    + apply Hh. left. reflexivity.
    + apply IHxs. intros y Hy. apply Hh. right. exact Hy.
  - apply IH. intros ys Hys. apply H. right. exact Hys.
Qed.

Lemma Forall2_nth_R {A B} (R : A -> B -> Prop) l1 l2 d1 d2 i :
  Forall2 R l1 l2 -> (i < length l2)%nat -> R (nth i l1 d1) (nth i l2 d2).
Proof.
  intros H. revert i. induction H as [|x y l1 l2 Hxy _ IH]; intros i Hi;
    [simpl in Hi; lia|].
  destruct i as [|i]; simpl; [exact Hxy | apply IH; simpl in Hi; lia].
Qed.

Lemma entry_score_matrix d batch_size Q P b c :
  (b < length Q)%nat ->
  entry (score_matrix d batch_size Q P) b c =
  nth c (score_row d batch_size P (nth b Q [])) 0.
Proof.
  intros Hb. unfold entry, score_matrix.
  rewrite (nth_indep _ [] (score_row d batch_size P []))
    by (rewrite length_map; exact Hb).
  rewrite (map_nth (score_row d batch_size P)). reflexivity.
Qed.

Lemma score_row_ge_MaxSim d batch_size P q :
  0 < batch_size -> Forall (fun p => p <> []) P ->
  Forall2 (fun s p => MaxSim q p <= s) (score_row d batch_size P q) P.
Proof.
  intros Hb HP. unfold score_row.
  rewrite <- (concat_batches batch_size P Hb) at 2.
  apply (Forall2_concat_maps (fun s p => MaxSim q p <= s)
           (fun ms p => MaxSim q (pad_to d (longest ms) p))).
  intros ms Hms p Hp. apply MaxSim_le_padded.
  apply (proj1 (List.Forall_forall _ _) HP).
  apply (in_batches batch_size P ms); assumption.
Qed.

Lemma score_row_nonneg d batch_size P q :
  0 < batch_size -> Forall (fun p => p <> []) P ->
  (forall p qv, In p P -> In qv q -> 0 <= maxZ (map (fun pv => dot qv pv) p)) ->
  score_row d batch_size P q = map (MaxSim q) P.
Proof.
  intros Hb HP Hnn. unfold score_row.
  rewrite <- (concat_batches batch_size P Hb) at 2. rewrite concat_map.
  f_equal. apply map_ext_in. intros ms Hms. apply map_ext_in. intros p Hp.
  assert (HpP : In p P) by (apply (in_batches batch_size P ms); assumption).
  apply MaxSim_padded_nonneg.
  - apply (proj1 (List.Forall_forall _ _) HP). exact HpP.
  - intros qv Hqv. apply Hnn; assumption.
Qed.

Lemma batches_single {A} (batch_size : Z) (l : list A) :
  l <> [] -> py.len l <= batch_size -> batches batch_size l = [l].
Proof.
  intros Hl Hle.
  assert (Hpos : 0 < py.len l) by (unfold py.len; destruct l; [contradiction | simpl; lia]).
  rewrite batches_pos by lia. unfold rounds.
  destruct (Z.ltb_spec 0 (py.len l)) as [_|?]; [|lia].
  replace ((py.len l + batch_size - 1) / batch_size) with 1.
  - simpl. f_equal. apply firstn_all2. unfold py.len in Hle. lia.
  - apply Z.div_unique with (r := py.len l - 1); lia.
Qed.

Lemma nth_all_zero (l : list Z) c : Forall (fun x => x = 0) l -> nth c l 0 = 0.
Proof.
  intros H. revert c. induction H as [|x l Hx _ IH]; intros c;
    destruct c; simpl; auto.
Qed.

Lemma score_row_no_tokens d batch_size P :
  Forall (fun x => x = 0) (score_row d batch_size P []).
Proof.
  unfold score_row. apply List.Forall_forall. intros x Hx.
  apply in_concat in Hx as (row & Hrow & Hx).
  apply in_map_iff in Hrow as (ms & <- & _).
  apply in_map_iff in Hx as (p & <- & _). reflexivity.
Qed.

(** X6.  For embeddings of one dimension and a positive batch size,
    [get_multi_vector_scores] raises the library's [IndexError] when some
    batch of passages holds no token at all, and otherwise returns the
    matrix whose entry for a query and a passage is the MaxSim of the query
    against the passage padded with zero vectors to the longest passage of
    its batch. *)
Theorem get_multi_vector_scores_padded_MaxSim
    (s : CustomRetrievalEvaluator) (records : list LogRecord) (d : nat)
    (batch_size : Z) (Q P : list (list (list Z))) :
  0 < batch_size -> Q <> [] -> P <> [] ->
  returned (get_multi_vector_scores batch_size
              (call s (map (tensor2 d) Q) (map (tensor2 d) P) records)) =
  if existsb no_tokens (batches batch_size P)
  then Raise (IndexError "max(): Expected reduction dim to have non-zero size")
  else Ok {| shape := [length Q; length P];
             data := of2 (map (fun q =>
               concat (map (fun ms =>
                 map (fun p => MaxSim q (pad_to d (longest ms) p)) ms)
                 (batches batch_size P))) Q); requires_grad := false |}.
Proof.
  intros Hb HQ HP. rewrite returned_get_multi_vector_scores. simpl qs. simpl ps.
  apply multi_vector_scores_value; assumption.
Qed.

Lemma get_multi_vector_scores_padded_MaxSim_witness :
  returned (get_multi_vector_scores 2
              (call (example_evaluator true)
                    (map (tensor2 1) [example_query])
                    (map (tensor2 1) [example_short_passage; example_long_passage; []])
                    [])) =
  if existsb no_tokens
       (batches 2 [example_short_passage; example_long_passage; []])
  then Raise (IndexError "max(): Expected reduction dim to have non-zero size")
  else Ok {| shape := [1%nat; 3%nat];
             data := of2 (map (fun q =>
               concat (map (fun ms =>
                 map (fun p => MaxSim q (pad_to 1 (longest ms) p)) ms)
                 (batches 2 [example_short_passage; example_long_passage; []])))
               [example_query]); requires_grad := false |}.
Proof.
  apply (get_multi_vector_scores_padded_MaxSim (example_evaluator true) [] 1 2
           [example_query] [example_short_passage; example_long_passage; []]).
  - lia.
  - discriminate.
  - discriminate.
Defined.

(** X7.  When every passage has a token, no score that
    [get_multi_vector_scores] returns is below the MaxSim of its query and
    passage: the padding of a passage can only add to a maximum. *)
Theorem get_multi_vector_scores_at_least_MaxSim
    (s : CustomRetrievalEvaluator) (records : list LogRecord) (d : nat)
    (batch_size : Z) (Q P : list (list (list Z))) :
  0 < batch_size -> Q <> [] -> P <> [] -> Forall (fun p => p <> []) P ->
  exists m,
    returned (get_multi_vector_scores batch_size
                (call s (map (tensor2 d) Q) (map (tensor2 d) P) records)) =
    Ok {| shape := [length Q; length P]; data := of2 m;
          requires_grad := false |} /\
    forall b c, (b < length Q)%nat -> (c < length P)%nat ->
      MaxSim (nth b Q []) (nth c P []) <= entry m b c.
Proof.
  intros Hb HQ HP Htok. exists (score_matrix d batch_size Q P). split.
  - rewrite returned_get_multi_vector_scores. simpl qs. simpl ps.
    rewrite multi_vector_scores_value by assumption.
    rewrite batches_have_tokens by assumption. reflexivity.
  - intros b c Hlb Hlc. rewrite entry_score_matrix by exact Hlb.
    apply (Forall2_nth_R (fun s0 p => MaxSim (nth b Q []) p <= s0)
             (score_row d batch_size P (nth b Q [])) P 0 [] c).
    + apply score_row_ge_MaxSim; assumption.
    + exact Hlc.
Qed.

Lemma get_multi_vector_scores_at_least_MaxSim_witness :
  exists m,
    returned (get_multi_vector_scores 128
                (call (example_evaluator true)
                      (map (tensor2 1) [example_query])
                      (map (tensor2 1) [example_short_passage; example_long_passage])
                      [])) =
    Ok {| shape := [1%nat; 2%nat]; data := of2 m; requires_grad := false |} /\
    forall b c, (b < 1)%nat -> (c < 2)%nat ->
      MaxSim (nth b [example_query] [])
             (nth c [example_short_passage; example_long_passage] []) <=
      entry m b c.
Proof.
  apply (get_multi_vector_scores_at_least_MaxSim (example_evaluator true) [] 1 128
           [example_query] [example_short_passage; example_long_passage]).
  - lia.
  - discriminate.
  - discriminate.
  - repeat constructor; discriminate.
Defined.

(** X8.  When every passage has a token and every query token has a
    similarity of at least zero with some token of every passage, the
    scores of [get_multi_vector_scores] are the MaxSim scores, whatever the
    positive batch size. *)
Theorem get_multi_vector_scores_MaxSim_nonnegative
    (s : CustomRetrievalEvaluator) (records : list LogRecord) (d : nat)
    (batch_size : Z) (Q P : list (list (list Z))) :
  0 < batch_size -> Q <> [] -> P <> [] -> Forall (fun p => p <> []) P ->
  (forall q p qv, In q Q -> In p P -> In qv q ->
     0 <= maxZ (map (fun pv => dot qv pv) p)) ->
  returned (get_multi_vector_scores batch_size
              (call s (map (tensor2 d) Q) (map (tensor2 d) P) records)) =
  Ok {| shape := [length Q; length P];
        data := of2 (map (fun q => map (fun p => MaxSim q p) P) Q);
        requires_grad := false |}.
Proof.
  intros Hb HQ HP Htok Hnn.
  rewrite returned_get_multi_vector_scores. simpl qs. simpl ps.
  rewrite multi_vector_scores_value by assumption.
  rewrite batches_have_tokens by assumption.
  unfold score_matrix. f_equal. f_equal. f_equal.
  apply map_ext_in. intros q Hq. apply score_row_nonneg; try assumption.
  intros p qv Hp Hqv. apply (Hnn q p qv); assumption.
Qed.

Lemma get_multi_vector_scores_MaxSim_nonnegative_witness :
  returned (get_multi_vector_scores 2
              (call (example_evaluator true)
                    (map (tensor2 2) [[[1; 0]; [0; 1]]])
                    (map (tensor2 2) [[[1; 1]]; [[-1; 2]; [3; -1]]]) [])) =
  Ok {| shape := [1%nat; 2%nat];
        data := of2 (map (fun q => map (fun p => MaxSim q p)
                                       [[[1; 1]]; [[-1; 2]; [3; -1]]])
                         [[[1; 0]; [0; 1]]]); requires_grad := false |}.
Proof.
  apply (get_multi_vector_scores_MaxSim_nonnegative (example_evaluator true) [] 2 2
           [[[1; 0]; [0; 1]]] [[[1; 1]]; [[-1; 2]; [3; -1]]]).
  - lia.
  - discriminate.
  - discriminate.
  - repeat constructor; discriminate.
  - intros q p qv Hq Hp Hqv. simpl in Hq, Hp.
    destruct Hq as [<-|[]]. simpl in Hqv.
    destruct Hqv as [<-|[<-|[]]]; destruct Hp as [<-|[<-|[]]];
      vm_compute; discriminate.
Defined.

(** X9.  When all passages have the same number of tokens, at least one,
    none is padded and the scores of [get_multi_vector_scores] are the
    MaxSim scores, whatever the positive batch size. *)
Theorem get_multi_vector_scores_MaxSim_equal_lengths
    (s : CustomRetrievalEvaluator) (records : list LogRecord)
    (d n : nat) (batch_size : Z) (Q P : list (list (list Z))) :
  0 < batch_size -> Q <> [] -> P <> [] -> (0 < n)%nat ->
  Forall (fun p => length p = n) P ->
  returned (get_multi_vector_scores batch_size
              (call s (map (tensor2 d) Q) (map (tensor2 d) P) records)) =
  Ok {| shape := [length Q; length P];
        data := of2 (map (fun q => map (fun p => MaxSim q p) P) Q);
        requires_grad := false |}.
Proof.
  intros Hb HQ HP Hn Hlen.
  rewrite returned_get_multi_vector_scores. simpl qs. simpl ps.
  rewrite multi_vector_scores_value by assumption.
  rewrite batches_have_tokens; [|exact Hb|].
  - unfold score_matrix. f_equal. f_equal. f_equal. apply map_ext. intros q.
    apply (score_row_equal_lengths d batch_size P q n); assumption.
  - eapply List.Forall_impl; [|exact Hlen]. intros p Hp E. subst p. simpl in Hp. lia.
Qed.

Lemma get_multi_vector_scores_MaxSim_equal_lengths_witness :
  returned (get_multi_vector_scores 1
              (call (example_evaluator true)
                    (map (tensor2 1) [example_query; [[2]; [3]]])
                    (map (tensor2 1) [example_long_passage; [[-4]; [5]]]) [])) =
  Ok {| shape := [2%nat; 2%nat];
        data := of2 (map (fun q => map (fun p => MaxSim q p)
                                       [example_long_passage; [[-4]; [5]]])
                         [example_query; [[2]; [3]]]);
        requires_grad := false |}.
Proof.
  apply (get_multi_vector_scores_MaxSim_equal_lengths (example_evaluator true) [] 1 2 1
           [example_query; [[2]; [3]]] [example_long_passage; [[-4]; [5]]]).
  - lia.
  - discriminate.
  - discriminate.
  - lia.
  - repeat constructor.
Defined.

(** X10.  When the batch size is at least the number of passages, all
    passages are in one batch: every passage is padded to the longest of
    all passages, and the scores are the same for every such batch
    size. *)
Theorem get_multi_vector_scores_one_batch
    (s : CustomRetrievalEvaluator) (records : list LogRecord) (d : nat)
    (batch_size : Z) (Q P : list (list (list Z))) :
  Q <> [] -> P <> [] -> py.len P <= batch_size -> longest P <> 0%nat ->
  returned (get_multi_vector_scores batch_size
              (call s (map (tensor2 d) Q) (map (tensor2 d) P) records)) =
  Ok {| shape := [length Q; length P];
        data := of2 (map (fun q =>
                  map (fun p => MaxSim q (pad_to d (longest P) p)) P) Q);
        requires_grad := false |}.
Proof.
  intros HQ HP Hle Hlong.
  assert (Hb : 0 < batch_size).
  { unfold py.len in Hle. destruct P; [contradiction | simpl in Hle; lia]. }
  rewrite returned_get_multi_vector_scores. simpl qs. simpl ps.
  rewrite multi_vector_scores_value by assumption.
  unfold score_matrix, score_row. rewrite (batches_single batch_size P HP Hle).
  simpl existsb. unfold no_tokens.
  destruct (Nat.eqb_spec (longest P) 0) as [E|_]; [contradiction|].
  simpl. f_equal. f_equal. f_equal. apply map_ext. intros q. apply app_nil_r.
Qed.

Lemma get_multi_vector_scores_one_batch_witness :
  returned (get_multi_vector_scores 128 example_frame) =
  Ok {| shape := [1%nat; 2%nat];
        data := of2 (map (fun q =>
                  map (fun p => MaxSim q (pad_to 1
                         (longest [example_short_passage; example_long_passage]) p))
                      [example_short_passage; example_long_passage])
                  [example_query]); requires_grad := false |}.
Proof.
  apply (get_multi_vector_scores_one_batch (example_evaluator true) [] 1 128
           [example_query] [example_short_passage; example_long_passage]).
  - discriminate.
  - discriminate.
  - vm_compute. discriminate.
  - vm_compute. discriminate.
Defined.

(** X11.  With a negative batch size and neither list empty no round of
    the loop runs, and [get_multi_vector_scores] raises the library's
    [RuntimeError] for the concatenation of no tensor; the frame is
    untouched. *)
Theorem get_multi_vector_scores_negative_batch_size (fr : Frame) (batch_size : Z) :
  batch_size < 0 -> qs fr <> [] -> ps fr <> [] ->
  get_multi_vector_scores batch_size fr =
  (fr, Raise (RuntimeError "torch.cat(): expected a non-empty list of Tensors")).
Proof.
  intros Hb HQ HP. rewrite get_multi_vector_scores_reads.
  rewrite multi_vector_scores_neg by assumption. reflexivity.
Qed.

Lemma get_multi_vector_scores_negative_batch_size_witness :
  get_multi_vector_scores (-1) example_frame =
  (example_frame,
   Raise (RuntimeError "torch.cat(): expected a non-empty list of Tensors")).
Proof.
  apply (get_multi_vector_scores_negative_batch_size example_frame (-1)).
  - lia.
  - discriminate.
  - discriminate.
Defined.

(** X12.  A query without tokens scores 0 with every passage. *)
Theorem get_multi_vector_scores_query_without_tokens
    (s : CustomRetrievalEvaluator) (records : list LogRecord) (d : nat)
    (batch_size : Z) (Q P : list (list (list Z))) (b : nat) :
  0 < batch_size -> P <> [] -> Forall (fun p => p <> []) P ->
  (b < length Q)%nat -> nth b Q [] = [] ->
  exists m,
    returned (get_multi_vector_scores batch_size
                (call s (map (tensor2 d) Q) (map (tensor2 d) P) records)) =
    Ok {| shape := [length Q; length P]; data := of2 m;
          requires_grad := false |} /\
    forall c, entry m b c = 0.
Proof.
  intros Hb HP Htok Hlb Hq.
  assert (HQ : Q <> []) by (destruct Q; [simpl in Hlb; lia | discriminate]).
  exists (score_matrix d batch_size Q P). split.
  - rewrite returned_get_multi_vector_scores. simpl qs. simpl ps.
    rewrite multi_vector_scores_value by assumption.
    rewrite batches_have_tokens by assumption. reflexivity.
  - intros c. rewrite entry_score_matrix by exact Hlb. rewrite Hq.
    apply nth_all_zero. apply score_row_no_tokens.
Qed.

Lemma get_multi_vector_scores_query_without_tokens_witness :
  exists m,
    returned (get_multi_vector_scores 2
                (call (example_evaluator true)
                      (map (tensor2 1) [example_query; []])
                      (map (tensor2 1) [example_short_passage; example_long_passage])
                      [])) =
    Ok {| shape := [2%nat; 2%nat]; data := of2 m; requires_grad := false |} /\
    forall c, entry m 1 c = 0.
Proof.
  apply (get_multi_vector_scores_query_without_tokens (example_evaluator true) [] 1 2
           [example_query; []] [example_short_passage; example_long_passage] 1).
  - lia.
  - discriminate.
  - repeat constructor; discriminate.
  - simpl. lia.
  - reflexivity.
Defined.

(* ===================================================================== *)
(** ** The single-vector scores: mismatches and symmetry *)

Lemma zip_with_mul_comm u v : zip_with_mul u v = zip_with_mul v u.
Proof.
  revert v. induction u as [|a u IH]; intros v; destruct v as [|b v];
    simpl; try reflexivity.
  rewrite IH. f_equal. lia.
Qed.

Lemma dot_comm u v : dot u v = dot v u.
Proof. unfold dot. rewrite zip_with_mul_comm. reflexivity. Qed.

(** X13.  Query vectors of dimension [d] against passage vectors of another
    dimension [d'], neither of them 1, make [get_single_vector_scores] raise
    the library's [RuntimeError]; the frame is untouched. *)
Theorem get_single_vector_scores_dimension_mismatch
    (s : CustomRetrievalEvaluator) (records : list LogRecord)
    (d d' : nat) (Q P : list (list Z)) :
  Q <> [] -> P <> [] ->
  Forall (fun v => length v = d) Q -> Forall (fun v => length v = d') P ->
  d <> d' -> d <> 1%nat -> d' <> 1%nat ->
  get_single_vector_scores (call s (map tensor1 Q) (map tensor1 P) records) =
  (call s (map tensor1 Q) (map tensor1 P) records,
   Raise (RuntimeError "einsum(): operands do not broadcast")).
Proof.
  intros HQ HP HdQ HdP Hne H1 H1'.
  rewrite get_single_vector_scores_reads. f_equal. simpl qs. simpl ps.
  unfold single_vector_scores.
  rewrite (len_nonzero _ (map_nonempty tensor1 Q HQ)).
  rewrite (len_nonzero _ (map_nonempty tensor1 P HP)).
  rewrite (stack_tensor1 d Q HQ HdQ), (stack_tensor1 d' P HP HdP). simpl rbind.
  rewrite einsum_bd_cd_bc_eq. unfold torch.einsum_bd_cd_bc. cbn [shape].
  unfold torch.broadcastable.
  destruct (Nat.eqb_spec d d'); [contradiction|].
  destruct (Nat.eqb_spec d 1); [contradiction|].
  destruct (Nat.eqb_spec d' 1); [contradiction|]. reflexivity.
Qed.

Lemma get_single_vector_scores_dimension_mismatch_witness :
  get_single_vector_scores
    (call (example_evaluator false) (map tensor1 [[1; 2]; [3; 4]])
          (map tensor1 [[1; 0; 0]]) []) =
  (call (example_evaluator false) (map tensor1 [[1; 2]; [3; 4]])
        (map tensor1 [[1; 0; 0]]) [],
   Raise (RuntimeError "einsum(): operands do not broadcast")).
Proof.
  apply (get_single_vector_scores_dimension_mismatch (example_evaluator false) [] 2 3
           [[1; 2]; [3; 4]] [[1; 0; 0]]).
  - discriminate.
  - discriminate.
  - repeat constructor.
  - repeat constructor.
  - lia.
  - lia.
  - lia.
Defined.

(** X14.  Exchanging the queries and the passages transposes the
    single-vector scores. *)
Theorem get_single_vector_scores_transposed
    (s : CustomRetrievalEvaluator) (records : list LogRecord)
    (d : nat) (Q P : list (list Z)) :
  Q <> [] -> P <> [] ->
  Forall (fun v => length v = d) Q -> Forall (fun v => length v = d) P ->
  exists m m',
    returned (get_single_vector_scores
                (call s (map tensor1 Q) (map tensor1 P) records)) =
    Ok {| shape := [length Q; length P]; data := of2 m;
          requires_grad := false |} /\
    returned (get_single_vector_scores
                (call s (map tensor1 P) (map tensor1 Q) records)) =
    Ok {| shape := [length P; length Q]; data := of2 m';
          requires_grad := false |} /\
    forall b c, (b < length Q)%nat -> (c < length P)%nat ->
      entry m b c = entry m' c b.
Proof.
  intros HQ HP HdQ HdP.
  exists (map (fun q => map (fun p => dot q p) P) Q),
         (map (fun p => map (fun q => dot p q) Q) P).
  split; [|split].
  - rewrite returned_get_single_vector_scores. simpl qs. simpl ps.
    apply (single_vector_scores_value d); assumption.
  - rewrite returned_get_single_vector_scores. simpl qs. simpl ps.
    apply (single_vector_scores_value d); assumption.
  - intros b c Hb Hc.
    rewrite (entry_map2 dot Q P b c [] []) by assumption.
    rewrite (entry_map2 dot P Q c b [] []) by assumption.
    apply dot_comm.
Qed.

Lemma get_single_vector_scores_transposed_witness :
  exists m m',
    returned (get_single_vector_scores
                (call (example_evaluator false) (map tensor1 [[1; 2]; [3; 4]])
                      (map tensor1 [[1; 0]; [0; 1]; [1; 1]]) [])) =
    Ok {| shape := [2%nat; 3%nat]; data := of2 m; requires_grad := false |} /\
    returned (get_single_vector_scores
                (call (example_evaluator false) (map tensor1 [[1; 0]; [0; 1]; [1; 1]])
                      (map tensor1 [[1; 2]; [3; 4]]) [])) =
    Ok {| shape := [3%nat; 2%nat]; data := of2 m'; requires_grad := false |} /\
    forall b c, (b < 2)%nat -> (c < 3)%nat -> entry m b c = entry m' c b.
Proof.
  apply (get_single_vector_scores_transposed (example_evaluator false) [] 2
           [[1; 2]; [3; 4]] [[1; 0]; [0; 1]; [1; 1]]).
  - discriminate.
  - discriminate.
  - repeat constructor.
  - repeat constructor.
Defined.

(* ===================================================================== *)
(** ** [compute_metrics] on any dictionaries *)

Lemma split_nonempty sep s : py.split sep s <> [].
Proof.
  destruct s as [|c s]; simpl; [discriminate|].
  destruct (Ascii.eqb c sep); [discriminate|].
  destruct (py.split sep s); discriminate.
Qed.

Lemma split_has_at s :
  has_at s = true -> exists a b r, py.split "@" s = a :: b :: r.
Proof.
  induction s as [|c s IH]; simpl; [discriminate|].
  destruct (Ascii.eqb c "@") eqn:Hc; simpl.
  - intros _. pose proof (split_nonempty "@" s) as Hne.
    destruct (py.split "@" s) as [|h t]; [contradiction|]. eauto.
  - intros H. destruct (IH H) as (a & b & r & ->). eauto.
Qed.

Section AnyDictionaries.

Context {V : Type}.
Implicit Types d : list (string * V).

Lemma at_key_has_at prefix k :
  has_at k = true -> exists part, at_key prefix k = Ok (prefix ++ part)%string.
Proof.
  intros H. destruct (split_has_at k H) as (a & b & r & E).
  exists b. unfold at_key. rewrite E. reflexivity.
Qed.

Lemma at_key_no_at prefix k :
  has_at k = false ->
  at_key prefix k = Raise (IndexError "list index out of range").
Proof. intros H. unfold at_key. rewrite (split_no_at k H). reflexivity. Qed.

Lemma at_key_Ok prefix k key :
  at_key prefix k = Ok key <-> renamed_key prefix k key.
Proof.
  unfold at_key, py.index, renamed_key.
  destruct (nth_error (py.split "@" k) 1) as [part|]; simpl; split.
  - intros H. inversion H. eauto.
  - intros (part' & E & ->). inversion E. reflexivity.
  - discriminate.
  - intros (part' & E & _). discriminate E.
Qed.

Lemma dict_comp_keys_have_at prefix d (acc : gmap string V) :
  keys_have_at d = true -> exists m, dict_comp prefix d acc = Ok m.
Proof.
  revert acc. induction d as [|[k v] d IH]; intros acc H; simpl; [eauto|].
  simpl in H. apply andb_true_iff in H as [Hk Hd].
  destruct (at_key_has_at prefix k Hk) as [part ->]. simpl. apply IH. exact Hd.
Qed.

Lemma dict_comp_key_without_at prefix d (acc : gmap string V) :
  keys_have_at d = false ->
  dict_comp prefix d acc = Raise (IndexError "list index out of range").
Proof.
  revert acc. induction d as [|[k v] d IH]; intros acc H; simpl; [discriminate H|].
  simpl in H. destruct (has_at k) eqn:Hk; simpl in H.
  - destruct (at_key_has_at prefix k Hk) as [part ->]. simpl. apply IH. exact H.
  - rewrite (at_key_no_at prefix k Hk). reflexivity.
Qed.

Lemma dict_comp_made_from prefix d (acc m : gmap string V) :
  dict_comp prefix d acc = Ok m ->
  forall key v, m !! key = Some v ->
    acc !! key = Some v \/ made_from prefix d key v.
Proof.
  revert acc. induction d as [|[k w] d IH]; intros acc H key v Hl; simpl in H.
  - inversion H; subst. left. exact Hl.
  - destruct (at_key prefix k) as [key'|e] eqn:Hk; simpl in H; [|discriminate].
    destruct (IH _ H key v Hl) as [Hacc|(k0 & Hin & Hren)].
    + destruct (decide (key' = key)) as [->|Hne].
      * rewrite lookup_insert_eq in Hacc. inversion Hacc; subst.
        right. exists k. split; [left; reflexivity | apply at_key_Ok; exact Hk].
      * rewrite lookup_insert_ne in Hacc by exact Hne. left. exact Hacc.
    + right. exists k0. split; [right; exact Hin | exact Hren].
Qed.

Lemma dict_comp_keeps prefix d (acc m : gmap string V) key :
  dict_comp prefix d acc = Ok m -> is_Some (acc !! key) -> is_Some (m !! key).
Proof.
  revert acc. induction d as [|[k w] d IH]; intros acc H Hacc; simpl in H.
  - inversion H; subst. exact Hacc.
  - destruct (at_key prefix k) as [key'|e]; simpl in H; [|discriminate].
    apply (IH _ H). apply lookup_insert_is_Some.
    destruct (decide (key' = key)); [left; assumption | right; split; assumption].
Qed.

Lemma dict_comp_covers prefix d (acc m : gmap string V) :
  dict_comp prefix d acc = Ok m -> covers prefix d m.
Proof.
  revert acc. induction d as [|[k w] d IH]; intros acc H k0 v key Hin Hren;
    [destruct Hin|].
  simpl in H. destruct (at_key prefix k) as [key'|e] eqn:Hk; simpl in H;
    [|discriminate].
  destruct Hin as [E|Hin].
  - inversion E; subst. apply at_key_Ok in Hren. rewrite Hk in Hren.
    inversion Hren; subst.
    apply (dict_comp_keeps _ _ _ _ _ H). rewrite lookup_insert_eq. eauto.
  - exact (IH _ H k0 v key Hin Hren).
Qed.

Lemma comprehension_app prefix (l1 l2 : list (string * string * V)) acc :
  comprehension prefix (l1 ++ l2) acc =
  comprehension prefix l2 (comprehension prefix l1 acc).
Proof. unfold comprehension. apply fold_left_app. Qed.

(** The value a comprehension keeps for a cut-off is the one of the last
    entry with it. *)
Lemma comprehension_last prefix (before after : list (string * string * V))
    name k v acc :
  Forall (fun e => snd (fst e) <> k) after ->
  comprehension prefix (before ++ (name, k, v) :: after) acc
    !! (prefix ++ k)%string = Some v.
Proof.
  intros Hafter. rewrite comprehension_app.
  change (comprehension prefix ((name, k, v) :: after) ?a)
    with (comprehension prefix after (<[(prefix ++ k)%string := v]> a)).
  rewrite comprehension_lookup_other; [apply lookup_insert_eq|].
  intros e He E. apply append_cancel_l in E.
  exact (proj1 (List.Forall_forall _ _) Hafter e He (eq_sym E)).
Qed.

End AnyDictionaries.

(** X15.  When the evaluator has returned its dictionaries,
    [compute_metrics] returns a dictionary exactly when the tuple of the
    custom metric is not empty and every key of the six dictionaries holds
    an [@]; otherwise it raises [IndexError]. *)
Theorem compute_metrics_index_error {V : Type}
    (ev : RetrievalEvaluator -> Qrels -> Run -> list Z -> PyVal ->
          result (items_of * items_of * items_of * items_of * items_of))
    (evc : RetrievalEvaluator -> Qrels -> Run -> list Z -> string ->
           result (list items_of))
    (fr : Frame) (relevant_docs : Qrels) (results : Run) (kwargs : gmap string PyVal)
    (ndcg _map recall precision naucs : list (string * V))
    (mrr : list (list (string * V))) :
  ev (mteb_evaluator (self fr)) relevant_docs results
     (k_values (mteb_evaluator (self fr)))
     (default (PyBool true) (kwargs !! "ignore_identical_ids")) =
    Ok (ndcg, _map, recall, precision, naucs) ->
  evc (mteb_evaluator (self fr)) relevant_docs results
      (k_values (mteb_evaluator (self fr))) "mrr" = Ok mrr ->
  match returned (compute_metrics ev evc relevant_docs results kwargs fr) with
  | Ok _ =>
      mrr <> [] /\
      keys_have_at ndcg && keys_have_at _map && keys_have_at recall &&
      keys_have_at precision && keys_have_at (hd [] mrr) && keys_have_at naucs = true
  | Raise e =>
      e = IndexError "list index out of range" /\
      (mrr = [] \/
       keys_have_at ndcg && keys_have_at _map && keys_have_at recall &&
       keys_have_at precision && keys_have_at (hd [] mrr) && keys_have_at naucs = false)
  end.
Proof.
  intros Hev Hevc.
  unfold compute_metrics, bind, gets, lift, ret, returned. rewrite Hev, Hevc.
  cbn [fst snd].
  destruct (keys_have_at ndcg) eqn:H1;
    [destruct (dict_comp_keys_have_at "ndcg_at_" ndcg ∅ H1) as [m1 ->]
    | rewrite (dict_comp_key_without_at "ndcg_at_" ndcg ∅ H1); simpl; auto].
  destruct (keys_have_at _map) eqn:H2;
    [destruct (dict_comp_keys_have_at "map_at_" _map ∅ H2) as [m2 ->]
    | rewrite (dict_comp_key_without_at "map_at_" _map ∅ H2); simpl; auto].
  destruct (keys_have_at recall) eqn:H3;
    [destruct (dict_comp_keys_have_at "recall_at_" recall ∅ H3) as [m3 ->]
    | rewrite (dict_comp_key_without_at "recall_at_" recall ∅ H3); simpl; auto].
  destruct (keys_have_at precision) eqn:H4;
    [destruct (dict_comp_keys_have_at "precision_at_" precision ∅ H4) as [m4 ->]
    | rewrite (dict_comp_key_without_at "precision_at_" precision ∅ H4); simpl; auto].
  destruct mrr as [|mrr0 rest]; [simpl; auto|]. cbn [py.index nth_error hd].
  destruct (keys_have_at mrr0) eqn:H5;
    [destruct (dict_comp_keys_have_at "mrr_at_" mrr0 ∅ H5) as [m5 ->]
    | rewrite (dict_comp_key_without_at "mrr_at_" mrr0 ∅ H5); simpl; auto].
  destruct (keys_have_at naucs) eqn:H6;
    [destruct (dict_comp_keys_have_at "naucs_at_" naucs ∅ H6) as [m6 ->]
    | rewrite (dict_comp_key_without_at "naucs_at_" naucs ∅ H6); simpl; auto].
  simpl. split; [discriminate | reflexivity].
Qed.

Lemma compute_metrics_index_error_witness :
  match returned (compute_metrics
                    (fixed_evaluate [("NDCG@1", 5); ("NDCG", 6)] [] [] [] [])
                    (fixed_evaluate_custom [("MRR@1", 2)])
                    ∅ ∅ ∅ example_frame) with
  | Ok _ =>
      [[("MRR@1", 2)]; []] <> [] /\
      keys_have_at [("NDCG@1", 5); ("NDCG", 6)] && keys_have_at ([] : list (string * Z)) &&
      keys_have_at ([] : list (string * Z)) && keys_have_at ([] : list (string * Z)) &&
      keys_have_at (hd [] [[("MRR@1", 2)]; []]) &&
      keys_have_at ([] : list (string * Z)) = true
  | Raise e =>
      e = IndexError "list index out of range" /\
      ([[("MRR@1", 2)]; []] = [] \/
       keys_have_at [("NDCG@1", 5); ("NDCG", 6)] && keys_have_at ([] : list (string * Z)) &&
       keys_have_at ([] : list (string * Z)) && keys_have_at ([] : list (string * Z)) &&
       keys_have_at (hd [] [[("MRR@1", 2)]; []]) &&
       keys_have_at ([] : list (string * Z)) = false)
  end.
Proof.
  apply (compute_metrics_index_error
           (fixed_evaluate [("NDCG@1", 5); ("NDCG", 6)] [] [] [] [])
           (fixed_evaluate_custom [("MRR@1", 2)])
           example_frame ∅ ∅ ∅
           [("NDCG@1", 5); ("NDCG", 6)] [] [] [] [] [[("MRR@1", 2)]; []]).
  - reflexivity.
  - reflexivity.
Defined.

Lemma unpack_into_is_Some {V : Type} (scores d : gmap string V) key :
  is_Some (d !! key) \/ is_Some (scores !! key) ->
  is_Some (unpack_into scores d !! key).
Proof.
  unfold unpack_into. intros H. apply lookup_union_is_Some. exact H.
Qed.

(** X16.  Whatever the keys of the six dictionaries are, a dictionary
    that [compute_metrics] returns holds nothing of its own making: each
    of its entries has the value of an item of one of the six
    dictionaries (of the first element of the tuple, for the custom
    metric) under the key made from the key of that item; and no item is
    dropped, the key made from it is in the returned dictionary. *)
Theorem compute_metrics_entries_from_items {V : Type}
    (ev : RetrievalEvaluator -> Qrels -> Run -> list Z -> PyVal ->
          result (items_of * items_of * items_of * items_of * items_of))
    (evc : RetrievalEvaluator -> Qrels -> Run -> list Z -> string ->
           result (list items_of))
    (fr : Frame) (relevant_docs : Qrels) (results : Run) (kwargs : gmap string PyVal)
    (ndcg _map recall precision naucs : list (string * V))
    (mrr : list (list (string * V))) (scores : gmap string V) :
  ev (mteb_evaluator (self fr)) relevant_docs results
     (k_values (mteb_evaluator (self fr)))
     (default (PyBool true) (kwargs !! "ignore_identical_ids")) =
    Ok (ndcg, _map, recall, precision, naucs) ->
  evc (mteb_evaluator (self fr)) relevant_docs results
      (k_values (mteb_evaluator (self fr))) "mrr" = Ok mrr ->
  returned (compute_metrics ev evc relevant_docs results kwargs fr) = Ok scores ->
  (forall key v, scores !! key = Some v ->
     made_from "ndcg_at_" ndcg key v \/ made_from "map_at_" _map key v \/
     made_from "recall_at_" recall key v \/
     made_from "precision_at_" precision key v \/
     made_from "mrr_at_" (hd [] mrr) key v \/ made_from "naucs_at_" naucs key v) /\
  covers "ndcg_at_" ndcg scores /\ covers "map_at_" _map scores /\
  covers "recall_at_" recall scores /\ covers "precision_at_" precision scores /\
  covers "mrr_at_" (hd [] mrr) scores /\ covers "naucs_at_" naucs scores.
Proof.
  intros Hev Hevc.
  unfold compute_metrics, bind, gets, lift, ret, returned. rewrite Hev, Hevc.
  cbn [fst snd].
  destruct (dict_comp "ndcg_at_" ndcg ∅) as [m1|e] eqn:H1; [|discriminate].
  destruct (dict_comp "map_at_" _map ∅) as [m2|e] eqn:H2; [|discriminate].
  destruct (dict_comp "recall_at_" recall ∅) as [m3|e] eqn:H3; [|discriminate].
  destruct (dict_comp "precision_at_" precision ∅) as [m4|e] eqn:H4; [|discriminate].
  destruct mrr as [|mrr0 rest]; [discriminate|]. cbn [py.index nth_error hd].
  destruct (dict_comp "mrr_at_" mrr0 ∅) as [m5|e] eqn:H5; [|discriminate].
  destruct (dict_comp "naucs_at_" naucs ∅) as [m6|e] eqn:H6; [|discriminate].
  cbn [snd]. intros E. inversion E as [Es]. clear E Es.
  split.
  - intros key v.
    rewrite !unpack_into_lookup, lookup_empty.
    intros [H|[_ [H|[_ [H|[_ [H|[_ [H|[_ [H|[_ H]]]]]]]]]]]];
      [ apply (dict_comp_made_from _ _ _ _ H6) in H
      | apply (dict_comp_made_from _ _ _ _ H5) in H
      | apply (dict_comp_made_from _ _ _ _ H4) in H
      | apply (dict_comp_made_from _ _ _ _ H3) in H
      | apply (dict_comp_made_from _ _ _ _ H2) in H
      | apply (dict_comp_made_from _ _ _ _ H1) in H
      | discriminate H ];
      rewrite lookup_empty in H; destruct H as [H|H]; try discriminate H; tauto.
  - repeat split; intros k v key Hin Hren.
    + pose proof (dict_comp_covers _ _ _ _ H1 k v key Hin Hren).
      repeat (apply unpack_into_is_Some; try (left; assumption); right).
    + pose proof (dict_comp_covers _ _ _ _ H2 k v key Hin Hren).
      repeat (apply unpack_into_is_Some; try (left; assumption); right).
    + pose proof (dict_comp_covers _ _ _ _ H3 k v key Hin Hren).
      repeat (apply unpack_into_is_Some; try (left; assumption); right).
    + pose proof (dict_comp_covers _ _ _ _ H4 k v key Hin Hren).
      repeat (apply unpack_into_is_Some; try (left; assumption); right).
    + pose proof (dict_comp_covers _ _ _ _ H5 k v key Hin Hren).
      repeat (apply unpack_into_is_Some; try (left; assumption); right).
    + pose proof (dict_comp_covers _ _ _ _ H6 k v key Hin Hren).
      repeat (apply unpack_into_is_Some; try (left; assumption); right).
Qed.

Lemma compute_metrics_entries_from_items_witness :
  exists scores : gmap string Z,
    returned (compute_metrics
                (fixed_evaluate [("NDCG@1", 5); ("x@1@y", 6)] [] [] [] [("a@b", 1)])
                (fixed_evaluate_custom [("MRR@1", 2)])
                ∅ ∅ ∅ example_frame) = Ok scores /\
    (forall key v, scores !! key = Some v ->
       made_from "ndcg_at_" [("NDCG@1", 5); ("x@1@y", 6)] key v \/
       made_from "map_at_" [] key v \/ made_from "recall_at_" [] key v \/
       made_from "precision_at_" [] key v \/
       made_from "mrr_at_" (hd [] [[("MRR@1", 2)]; []]) key v \/
       made_from "naucs_at_" [("a@b", 1)] key v) /\
    covers "ndcg_at_" [("NDCG@1", 5); ("x@1@y", 6)] scores /\
    covers "map_at_" [] scores /\ covers "recall_at_" [] scores /\
    covers "precision_at_" [] scores /\
    covers "mrr_at_" (hd [] [[("MRR@1", 2)]; []]) scores /\
    covers "naucs_at_" [("a@b", 1)] scores.
Proof.
  eexists. split; [reflexivity|].
  apply (compute_metrics_entries_from_items
           (fixed_evaluate [("NDCG@1", 5); ("x@1@y", 6)] [] [] [] [("a@b", 1)])
           (fixed_evaluate_custom [("MRR@1", 2)])
           example_frame ∅ ∅ ∅
           [("NDCG@1", 5); ("x@1@y", 6)] [] [] [] [("a@b", 1)] [[("MRR@1", 2)]; []]).
  - reflexivity.
  - reflexivity.
  - reflexivity.
Defined.

(** X17.  When the keys have the form [<name>@<k>], two entries of one
    dictionary may have the same [<k>]: [compute_metrics] returns a
    dictionary that has, under [<prefix>_at_<k>], the value of the last
    entry of the dictionary with that [<k>].  The dictionaries do not
    overwrite each other. *)
Theorem compute_metrics_last_entry_wins {V : Type}
    (ev : RetrievalEvaluator -> Qrels -> Run -> list Z -> PyVal ->
          result (items_of * items_of * items_of * items_of * items_of))
    (evc : RetrievalEvaluator -> Qrels -> Run -> list Z -> string ->
           result (list items_of))
    (fr : Frame) (relevant_docs : Qrels) (results : Run) (kwargs : gmap string PyVal)
    (ndcg _map recall precision mrr naucs : list (string * string * V))
    (rest : list items_of) :
  ev (mteb_evaluator (self fr)) relevant_docs results
     (k_values (mteb_evaluator (self fr)))
     (default (PyBool true) (kwargs !! "ignore_identical_ids")) =
    Ok (metric_items ndcg, metric_items _map, metric_items recall,
        metric_items precision, metric_items naucs) ->
  evc (mteb_evaluator (self fr)) relevant_docs results
      (k_values (mteb_evaluator (self fr))) "mrr" =
    Ok (metric_items mrr :: rest) ->
  well_keyed ndcg -> well_keyed _map -> well_keyed recall ->
  well_keyed precision -> well_keyed mrr -> well_keyed naucs ->
  exists scores,
    returned (compute_metrics ev evc relevant_docs results kwargs fr) = Ok scores /\
    last_entry_wins "ndcg_at_" ndcg scores /\
    last_entry_wins "map_at_" _map scores /\
    last_entry_wins "recall_at_" recall scores /\
    last_entry_wins "precision_at_" precision scores /\
    last_entry_wins "mrr_at_" mrr scores /\
    last_entry_wins "naucs_at_" naucs scores.
Proof.
  intros Hev Hevc W1 W2 W3 W4 W5 W6.
  unfold compute_metrics, bind, gets, lift, ret, returned.
  rewrite Hev, Hevc.
  rewrite !dict_comp_comprehension by assumption. simpl.
  rewrite !dict_comp_comprehension by assumption. simpl.
  eexists. split; [reflexivity|].
  repeat split; intros before name k v after -> Hafter;
    repeat (apply unpack_into_lookup;
            first [ left; apply comprehension_last; exact Hafter
                  | right; split;
                    [apply comprehension_empty_None; intros k0 E; discriminate E|] ]).
Qed.

Lemma compute_metrics_last_entry_wins_witness :
  exists scores,
    returned (compute_metrics
                (fixed_evaluate (metric_items example_ndcg) [] [] []
                                (metric_items example_naucs))
                (fixed_evaluate_custom (metric_items [("MRR", "1", 2)]))
                ∅ ∅ ∅ example_frame) = Ok scores /\
    last_entry_wins "ndcg_at_" example_ndcg scores /\
    last_entry_wins "map_at_" [] scores /\
    last_entry_wins "recall_at_" [] scores /\
    last_entry_wins "precision_at_" [] scores /\
    last_entry_wins "mrr_at_" [("MRR", "1", 2)] scores /\
    last_entry_wins "naucs_at_" example_naucs scores.
Proof.
  apply (compute_metrics_last_entry_wins
           (fixed_evaluate (metric_items example_ndcg) [] [] []
                           (metric_items example_naucs))
           (fixed_evaluate_custom (metric_items [("MRR", "1", 2)]))
           example_frame ∅ ∅ ∅
           example_ndcg [] [] [] [("MRR", "1", 2)] example_naucs [[]]).
  - reflexivity.
  - reflexivity.
  - repeat constructor.
  - repeat constructor.
  - repeat constructor.
  - repeat constructor.
  - repeat constructor.
  - repeat constructor.
Defined.

(* ===================================================================== *)
(** ** Construction and [evaluate] *)

(** X18.  An evaluator constructed without [is_multi_vector] scores with
    inner products, whatever the other two arguments are: on vectors of one
    dimension [evaluate] returns the matrix of the inner products of every
    query with every passage. *)
Theorem default_evaluator_inner_products
    (get_torch_device : string -> string)
    (RetrievalEvaluator_new : gmap string PyVal -> RetrievalEvaluator)
    (mteb_evaluator_args_arg : option (gmap string PyVal))
    (device_arg : option string) (records : list LogRecord)
    (d : nat) (Q P : list (list Z)) :
  Q <> [] -> P <> [] ->
  Forall (fun v => length v = d) Q -> Forall (fun v => length v = d) P ->
  exists m,
    returned (evaluate
                (call (__init__ get_torch_device RetrievalEvaluator_new
                                None mteb_evaluator_args_arg device_arg)
                      (map tensor1 Q) (map tensor1 P) records)) =
    Ok {| shape := [length Q; length P]; data := of2 m;
          requires_grad := false |} /\
    forall b c, (b < length Q)%nat -> (c < length P)%nat ->
      entry m b c = inner_product d (nth b Q []) (nth c P []).
Proof.
  intros HQ HP HdQ HdP.
  exists (map (fun q => map (fun p => dot q p) P) Q). split.
  - rewrite evaluate_value. unfold selected_scores. cbn [call self qs ps __init__
      is_multi_vector default].
    rewrite (single_vector_scores_value d) by assumption. reflexivity.
  - intros b c Hb Hc.
    rewrite (entry_map2 dot Q P b c [] []) by assumption.
    apply dot_inner_product.
    + apply (proj1 (List.Forall_forall _ _) HdQ). apply nth_In. exact Hb.
    + apply (proj1 (List.Forall_forall _ _) HdP). apply nth_In. exact Hc.
Qed.

Lemma default_evaluator_inner_products_witness :
  exists m,
    returned (evaluate
                (call (__init__ (fun dev => dev) (fun _ => {| k_values := [1; 3; 5] |})
                                None None None)
                      (map tensor1 [[1; 2]; [3; 4]]) (map tensor1 [[5; 6]]) [])) =
    Ok {| shape := [length [[1; 2]; [3; 4]]; length [[5; 6]]]; data := of2 m;
          requires_grad := false |} /\
    forall b c, (b < length [[1; 2]; [3; 4]])%nat -> (c < length [[5; 6]])%nat ->
      entry m b c = inner_product 2 (nth b [[1; 2]; [3; 4]] []) (nth c [[5; 6]] []).
Proof.
  apply (default_evaluator_inner_products (fun dev => dev)
           (fun _ => {| k_values := [1; 3; 5] |}) None None [] 2
           [[1; 2]; [3; 4]] [[5; 6]]).
  - discriminate.
  - discriminate.
  - repeat constructor.
  - repeat constructor.
Defined.

(** X19.  An evaluator constructed with [is_multi_vector=True] scores with
    the multi-vector routine under its default batch size: when all
    passages have the same number of tokens, at least one, [evaluate]
    returns the matrix of the MaxSim scores, for any number of queries and
    passages. *)
Theorem multi_vector_evaluator_MaxSim
    (get_torch_device : string -> string)
    (RetrievalEvaluator_new : gmap string PyVal -> RetrievalEvaluator)
    (mteb_evaluator_args_arg : option (gmap string PyVal))
    (device_arg : option string) (records : list LogRecord)
    (d n : nat) (Q P : list (list (list Z))) :
  Q <> [] -> P <> [] -> (0 < n)%nat ->
  Forall (fun p => length p = n) P ->
  returned (evaluate
              (call (__init__ get_torch_device RetrievalEvaluator_new
                              (Some true) mteb_evaluator_args_arg device_arg)
                    (map (tensor2 d) Q) (map (tensor2 d) P) records)) =
  Ok {| shape := [length Q; length P];
        data := of2 (map (fun q => map (fun p => MaxSim q p) P) Q);
        requires_grad := false |}.
Proof.
  intros HQ HP Hn Hlen.
  pose proof (get_multi_vector_scores_equal_lengths
                (__init__ get_torch_device RetrievalEvaluator_new
                          (Some true) mteb_evaluator_args_arg device_arg)
                records d n 128 Q P eq_refl HQ HP Hn Hlen) as H.
  rewrite returned_get_multi_vector_scores in H. simpl qs in H. simpl ps in H.
  rewrite evaluate_value. unfold selected_scores.
  cbn [call self qs ps __init__ is_multi_vector default].
  rewrite H. reflexivity.
Qed.

Lemma multi_vector_evaluator_MaxSim_witness :
  returned (evaluate
              (call (__init__ (fun dev => dev) (fun _ => {| k_values := [1; 3; 5] |})
                              (Some true) None (Some "cpu"))
                    (map (tensor2 1) [example_query; [[2]; [3]]])
                    (map (tensor2 1) [example_long_passage; [[-4]; [5]]]) [])) =
  Ok {| shape := [2%nat; 2%nat];
        data := of2 (map (fun q => map (fun p => MaxSim q p)
                                       [example_long_passage; [[-4]; [5]]])
                         [example_query; [[2]; [3]]]);
        requires_grad := false |}.
Proof.
  apply (multi_vector_evaluator_MaxSim (fun dev => dev)
           (fun _ => {| k_values := [1; 3; 5] |}) None (Some "cpu") [] 1 2
           [example_query; [[2]; [3]]] [example_long_passage; [[-4]; [5]]]).
  - discriminate.
  - discriminate.
  - lia.
  - repeat constructor.
Defined.
